(** * The Jamulus session recorder (src/recorder/jamrecorder.cpp)

    A shallow embedding of [CJamClient], [CJamSession] and [CJamRecorder]:
    the per-client recording, the session's slot table with its frame
    counter and one-shot disconnect marker, the track maps built from live
    state and from a directory listing, and the project exporters.

    Conventions.
    - [QString] is [string]; a file's bytes are a [string] too, one
      character per byte.
    - [int], [qint64] and [int16_t] values are [Z].  The one conversion the
      source spells out, [static_cast<uint16_t>], is written as a reduction
      modulo 2^16.  The 64-bit counters are not wrapped: a session would
      have to run for 2^63 frames to leave their range.
    - A call ends in one of three ways, see [outcome]: it returns, it
      throws (the state reached at the throw is kept), or it faults (a null
      pointer is dereferenced, an index is out of range, an integer is
      divided by zero). *)

From Stdlib Require Import ZArith Ascii String DecimalString DecimalZ DecimalPos.
From stdpp Require Import gmap strings list sorting.

Local Open Scope Z_scope.

(** ** Qt strings *)

Module QString.

(** [QString::number] on an integer: decimal digits, [-] in front of a
    negative one. *)
Definition number (z : Z) : string := NilZero.string_of_int (Z.to_int z).

Definition INT_MAX : Z := 2147483647.
Definition INT_MIN : Z := -2147483648.
Definition LLONG_MAX : Z := 9223372036854775807.
Definition LLONG_MIN : Z := -9223372036854775808.

(** The decimal reading shared by [toInt] and [toLongLong]: 0 when the
    text is no numeral or the value is outside [lo..hi].  (Qt also
    accepts white space around the numeral and a leading [+].) *)
Definition toRange (lo hi : Z) (s : string) : Z :=
  match NilZero.int_of_string s with
  | Some d => let z := Z.of_int d in
              if (lo <=? z) && (z <=? hi) then z else 0
  | None => 0
  end.

Definition toInt : string -> Z := toRange INT_MIN INT_MAX.
Definition toLongLong : string -> Z := toRange LLONG_MIN LLONG_MAX.

(** [s.remove(0, 1)] *)
Definition remove_first (s : string) : string :=
  match s with
  | EmptyString => EmptyString
  | String _ r => r
  end.

(** [s.split(sep)], empty parts kept: the result is never empty. *)
Fixpoint split (sep : ascii) (s : string) : list string :=
  match s with
  | EmptyString => [EmptyString]
  | String c r =>
      if Ascii.eqb c sep then EmptyString :: split sep r
      else match split sep r with
           | p :: ps => String c p :: ps
           | [] => [String c EmptyString]
           end
  end.

(** [s.count(c)] *)
Fixpoint count (c : ascii) (s : string) : Z :=
  match s with
  | EmptyString => 0
  | String a r => (if Ascii.eqb a c then 1 else 0) + count c r
  end.

Definition lower_char (c : ascii) : ascii :=
  let n := N_of_ascii c in
  if ((65 <=? n) && (n <=? 90))%N then ascii_of_N (n + 32) else c.

Fixpoint toLower (s : string) : string :=
  match s with
  | EmptyString => EmptyString
  | String c r => String (lower_char c) (toLower r)
  end.

(** [s.endsWith(suffix)] *)
Definition endsWith (suffix s : string) : bool :=
  String.prefix (String.rev suffix) (String.rev s).

(** The text after the last [/] (QFileInfo::fileName, QDir::dirName). *)
Definition lastComponent (path : string) : string :=
  List.last (split "/" path) EmptyString.

(** The text before the first [.] (as in QFileInfo::baseName). *)
Definition beforeFirstDot (s : string) : string :=
  List.hd EmptyString (split "." s).

Definition endl : string := String (ascii_of_nat 10) EmptyString.
Definition dquote : string := String (ascii_of_nat 34) EmptyString.

End QString.

(** ** Results of a call *)

Inductive outcome (S A : Type) : Type :=
| Ok (a : A) (s : S)
| Throw (msg : string) (s : S)
| Fault.
Arguments Ok {S A} a s.
Arguments Throw {S A} msg s.
Arguments Fault {S A}.

Definition M (S A : Type) : Type := S -> outcome S A.

#[export] Instance M_ret {S} : MRet (M S) := fun A a s => Ok a s.

#[export] Instance M_bind {S} : MBind (M S) := fun A B k m s =>
  match m s with
  | Ok a s' => k a s'
  | Throw msg s' => Throw msg s'
  | Fault => Fault
  end.

Definition get {S} : M S S := fun s => Ok s s.
Definition modify {S} (f : S -> S) : M S unit := fun s => Ok tt (f s).
Definition throw {S A} (msg : string) : M S A := fun s => Throw msg s.
Definition fault {S A} : M S A := fun _ => Fault.

(** The state a call leaves behind, when it leaves one. *)
Definition final {S A} (o : outcome S A) : option S :=
  match o with
  | Ok _ s => Some s
  | Throw _ s => Some s
  | Fault => None
  end.

(** ** The disk *)

Inductive Node : Type :=
| File (bytes : string)
| Dir.

(** Absolute clean paths to nodes, and the paths at which creating or
    opening a file for writing fails. *)
Record FileSystem : Type := {
  nodes : gmap string Node;
  unwritable : gset string
}.

Module FS.

Definition exists_ (path : string) (fs : FileSystem) : bool :=
  bool_decide (is_Some (nodes fs !! path)).

Definition isDir (path : string) (fs : FileSystem) : bool :=
  match nodes fs !! path with
  | Some Dir => true
  | _ => false
  end.

Definition writable (path : string) (fs : FileSystem) : bool :=
  bool_decide (path ∉ unwritable fs).

(** QFileInfo::size; 0 for what is not a file. *)
Definition size (path : string) (fs : FileSystem) : Z :=
  match nodes fs !! path with
  | Some (File b) => Z.of_nat (String.length b)
  | _ => 0
  end.

Definition content (path : string) (fs : FileSystem) : string :=
  match nodes fs !! path with
  | Some (File b) => b
  | _ => EmptyString
  end.

Definition put (path : string) (n : Node) (fs : FileSystem) : FileSystem :=
  {| nodes := <[path := n]> (nodes fs); unwritable := unwritable fs |}.

(** Bytes written through an open handle go to the end of the file. *)
Definition append (path bytes : string) (fs : FileSystem) : FileSystem :=
  put path (File (content path fs +:+ bytes)) fs.

(** [QDir(dir).absoluteFilePath(name)] *)
Definition absoluteFilePath (dir name : string) : string :=
  dir +:+ "/" +:+ name.

(** The name of [path] inside [dir], if it lies directly in it. *)
Fixpoint stripPrefix (p s : string) : option string :=
  match p, s with
  | EmptyString, _ => Some s
  | String a p', String b s' =>
      if Ascii.eqb a b then stripPrefix p' s' else None
  | String _ _, EmptyString => None
  end.

Definition entryName (dir path : string) : option string :=
  match stripPrefix (dir +:+ "/") path with
  | Some n => if (QString.count "/" n =? 0) then Some n else None
  | None => None
  end.

Definition name_le (a b : string) : Prop :=
  String.le (QString.toLower a) (QString.toLower b).

#[export] Instance name_le_dec : RelDecision name_le.
Proof. intros a b. unfold name_le. apply _. Defined.

(** [QDir(dir).entryList({ "*" + suffix })]: the names in [dir] that end
    in [suffix], letter case ignored, sorted by name, case ignored. *)
Definition entryList (dir suffix : string) (fs : FileSystem) : list string :=
  merge_sort name_le
    (List.filter (fun n => QString.endsWith (QString.toLower suffix) (QString.toLower n))
       (omap (entryName dir) (elements (dom (nodes fs))))).

(** [QDir(dir).exists(name)] *)
Definition dirExists (dir name : string) (fs : FileSystem) : bool :=
  exists_ (absoluteFilePath dir name) fs.

End FS.

(** ** Data of the recorder *)

(** [CHostAddress]: the fields [CJamSession::Frame] compares. *)
Record CHostAddress : Type := {
  InetAddr : N;
  iPort : Z
}.

(** A recording in progress.  The open file and its stream are the bytes
    at [filename] on the disk. *)
Record CJamClient : Type := {
  startFrame : Z;
  numChannels : Z;
  name : string;
  address : CHostAddress;
  filename : string;
  frameCount : Z
}.

(** What [DisconnectClient] keeps of a recording, named after the
    accessors [Tracks] reads it with. *)
Record CJamClientConnection : Type := {
  Format : Z;
  StartFrame : Z;
  Length : Z;
  Name : string;
  FileName : string
}.

Record STrackItem : Type := {
  item_numChannels : Z;
  item_startFrame : Z;
  item_length : Z;
  item_fileName : string
}.

Record CJamSession : Type := {
  sessionDir : string;
  currentFrame : Z;
  chIdDisconnected : Z;
  vecptrJamClients : list (option CJamClient);
  jamClientConnections : list CJamClientConnection
}.

(** What the recorder says: log lines, each with the parts streamed into
    it, and the signal a new session emits. *)
Inductive Output : Type :=
| qWarning (parts : list string)
| qDebug (parts : list string)
| RecordingSessionStarted (path : string)
| ThreadExit.

Record CJamRecorder : Type := {
  recordBaseDir : string;
  iServerFrameSizeSamples : Z;
  isRecording : bool;
  currentSession : option CJamSession
}.

(** The recorder, the disk and what has been said so far. *)
Record Machine : Type := {
  recorder : CJamRecorder;
  mdisk : FileSystem;
  output : list Output
}.

(** The events a session is fed. *)
Inductive SessionEvent : Type :=
| EvFrame (iChID : Z) (name : string) (address : CHostAddress)
          (numAudioChannels : Z) (data : list Z)
| EvDisconnected (iChID : Z).

(** A session together with the disk its recordings write to. *)
Record World : Type := {
  session : CJamSession;
  disk : FileSystem
}.

#[export] Instance CHostAddress_eq_dec : EqDecision CHostAddress.
Proof. solve_decision. Defined.

Definition onDisk {A} (m : M FileSystem A) : M World A := fun w =>
  match m (disk w) with
  | Ok a fs => Ok a {| session := session w; disk := fs |}
  | Throw msg fs => Throw msg {| session := session w; disk := fs |}
  | Fault => Fault
  end.

Definition onSession (f : CJamSession -> CJamSession) : M World unit :=
  modify (fun w => {| session := f (session w); disk := disk w |}).

Definition setDisconnected (id : Z) (s : CJamSession) : CJamSession :=
  {| sessionDir := sessionDir s; currentFrame := currentFrame s;
     chIdDisconnected := id;
     vecptrJamClients := vecptrJamClients s;
     jamClientConnections := jamClientConnections s |}.

Definition setCurrentFrame (f : Z) (s : CJamSession) : CJamSession :=
  {| sessionDir := sessionDir s; currentFrame := f;
     chIdDisconnected := chIdDisconnected s;
     vecptrJamClients := vecptrJamClients s;
     jamClientConnections := jamClientConnections s |}.

(** [vecptrJamClients[iChID] = p] *)
Definition setClient (iChID : Z) (p : option CJamClient) (s : CJamSession) : CJamSession :=
  {| sessionDir := sessionDir s; currentFrame := currentFrame s;
     chIdDisconnected := chIdDisconnected s;
     vecptrJamClients := <[Z.to_nat iChID := p]> (vecptrJamClients s);
     jamClientConnections := jamClientConnections s |}.

Definition appendConnection (c : CJamClientConnection) (s : CJamSession) : CJamSession :=
  {| sessionDir := sessionDir s; currentFrame := currentFrame s;
     chIdDisconnected := chIdDisconnected s;
     vecptrJamClients := vecptrJamClients s;
     jamClientConnections := jamClientConnections s ++ [c] |}.

(** [vecptrJamClients[iChID]]: [None] outside the vector, else the pointer
    stored there ([Some None] is the null pointer). *)
Definition slotAt (v : list (option CJamClient)) (iChID : Z) : option (option CJamClient) :=
  if iChID <? 0 then None else v !! Z.to_nat iChID.

(** Reading the slot faults outside the vector. *)
Definition clientAt (iChID : Z) : M World (option CJamClient) := fun w =>
  match slotAt (vecptrJamClients (session w)) iChID with
  | Some p => Ok p w
  | None => Fault
  end.

(** One [int16_t] through the little-endian data stream. *)
Definition int16_le (x : Z) : string :=
  String (ascii_of_N (Z.to_N (x mod 256)))
    (String (ascii_of_N (Z.to_N ((x / 256) mod 256))) EmptyString).

(** The loop of [CJamClient::Frame]: [pcm[0] .. pcm[n-1]] in order; reading
    past the end of [pcm] is a fault. *)
Fixpoint writeSamples (n : nat) (pcm : list Z) : option string :=
  match n with
  | O => Some EmptyString
  | S n' =>
      match pcm with
      | x :: rest => String.append (int16_le x) <$> writeSamples n' rest
      | [] => None
      end
  end.

(** The loop of the constructor that looks for a free file name. *)
Inductive search : Type :=
| Found (affix : string)
| Overflow
| Exhausted.

(** [affix.length() == 0 ? "_1" : "_" + number(affix.remove(0, 1).toInt() + 1)];
    [None] when the [int] addition overflows. *)
Definition nextAffix (affix : string) : option string :=
  if (String.length affix =? 0)%nat then Some "_1"
  else
    let k := QString.toInt (QString.remove_first affix) in
    if k + 1 <=? QString.INT_MAX then Some ("_" +:+ QString.number (k + 1))
    else None.

Fixpoint uniqueAffix (fuel : nat) (taken : string -> bool) (fileName affix : string) : search :=
  match fuel with
  | O => Exhausted
  | S fuel' =>
      if taken (fileName +:+ affix +:+ ".wav") then
        match nextAffix affix with
        | Some affix' => uniqueAffix fuel' taken fileName affix'
        | None => Overflow
        end
      else Found affix
  end.

(** The affixes in the order the search tries them: none, [_1], [_2], ... *)
Definition affixOf (k : nat) : string :=
  match k with
  | O => EmptyString
  | S _ => "_" +:+ QString.number (Z.of_nat k)
  end.

(** The name tried at step [k]. *)
Definition candidate (fileName : string) (k : nat) : string :=
  fileName +:+ affixOf k +:+ ".wav".

(** A disk on which a recording can be started: there is room left in
    the count of its nodes, and it refuses no path. *)
Definition roomy (fs : FileSystem) : Prop :=
  Z.of_nat (size (nodes fs)) < QString.INT_MAX /\ unwritable fs = ∅.

(** ** A concrete setting

    Stand-ins for the declarations the model takes as parameters, and a
    few disks, sessions and recorders, for the statements below that are
    evaluated on a concrete run. *)

Module Sample.
Definition ClientName (name : string) (a : CHostAddress) : string :=
  name +:+ "-" +:+ QString.number (Z.of_N (InetAddr a)) +:+ "_" +:+ QString.number (iPort a).
Definition waveStreamHeaders (numChannels : Z) : string :=
  "RIFF0000WAVEfmt 00000000000000000000data0000".
Definition finalise (bytes : string) : string := bytes.
Definition MAX_NUM_CHANNELS : nat := 4.
Definition CReaperProject_toString (tracks : gmap string (list STrackItem)) (frameSize : Z) : string :=
  "<REAPER_PROJECT>".
Definition secondsAt48K (frames frameSize : Z) : string :=
  QString.number (frames * frameSize) +:+ "/48000".

Definition alice : CHostAddress := {| InetAddr := 7; iPort := 22124 |}.
Definition jamDir : string := "/rec/Jam-20200101-000000000".
Definition recording : CJamClient :=
  {| startFrame := 0; numChannels := 2; name := "Alice"; address := alice;
     filename := "/rec/Jam-20200101-000000000/Alice-7_22124-0-2.wav"; frameCount := 3 |}.
Definition oneFile : FileSystem :=
  {| nodes := {[ "/rec" := Dir; jamDir := Dir;
                 "/rec/Jam-20200101-000000000/Alice-7_22124-0-2.wav" := File (waveStreamHeaders 2) ]};
     unwritable := ∅ |}.
Definition recordingAlice : World :=
  {| session := {| sessionDir := jamDir; currentFrame := 3; chIdDisconnected := -1;
                   vecptrJamClients := [Some recording; None; None; None];
                   jamClientConnections := [] |};
     disk := oneFile |}.
Definition emptyDisk : FileSystem := {| nodes := {[ "/rec" := Dir ]}; unwritable := ∅ |}.
Definition stamp : string := "20200101-000000000".
Definition aliceFrame : SessionEvent := EvFrame 0 "Alice" alice 2 (replicate 256 0).
Definition finished : CJamSession :=
  {| sessionDir := jamDir; currentFrame := 3; chIdDisconnected := 0;
     vecptrJamClients := [None; None; None; None];
     jamClientConnections :=
       [ {| Format := 2; StartFrame := 0; Length := 3; Name := "Alice-7_22124";
            FileName := "/rec/Jam-20200101-000000000/Alice-7_22124-0-2.wav" |} ] |}.
Definition exportedOnce : FileSystem :=
  {| nodes := <[ "/rec/Jam-20200101-000000000/Jam-20200101-000000000.rpp" := File "first" ]>
                (nodes oneFile);
     unwritable := ∅ |}.
Definition stopping : Machine :=
  {| recorder := {| recordBaseDir := "/rec"; iServerFrameSizeSamples := 128;
                    isRecording := false; currentSession := Some finished |};
     mdisk := exportedOnce; output := [] |}.
Definition idle : Machine :=
  {| recorder := {| recordBaseDir := "/rec"; iServerFrameSizeSamples := 128;
                    isRecording := false; currentSession := None |};
     mdisk := emptyDisk; output := [] |}.
Definition pcmDir : FileSystem :=
  {| nodes := {[ "/old" := Dir; "/old/Alic-7_22124-0-2.pcm" := File "0123456789abcdef" ]};
     unwritable := ∅ |}.
Definition recordingMachine : Machine :=
  {| recorder := {| recordBaseDir := "/rec"; iServerFrameSizeSamples := 128;
                    isRecording := true; currentSession := Some (session recordingAlice) |};
     mdisk := oneFile; output := [] |}.
Definition started : World :=
  {| session := {| sessionDir := jamDir; currentFrame := 0; chIdDisconnected := -1;
                   vecptrJamClients := [None; None; None; None];
                   jamClientConnections := [] |};
     disk := {| nodes := {[ "/rec" := Dir; jamDir := Dir ]}; unwritable := ∅ |} |}.
Definition lockedDisk : FileSystem :=
  {| nodes := {[ "/rec" := Dir; jamDir := Dir ]};
     unwritable := {[ "/rec/Jam-20200101-000000000/Alice-7_22124-0-2.wav" ]} |}.
Definition lockedOut : World :=
  {| session := {| sessionDir := jamDir; currentFrame := 0; chIdDisconnected := -1;
                   vecptrJamClients := [None; None; None; None];
                   jamClientConnections := [] |};
     disk := lockedDisk |}.
End Sample.

Section Recorder.

(** Declared in jamrecorder.h, cwavestream.h and creaperproject.h, which
    are not among the sources: the text [CJamClient::ClientName] builds
    from the name and the address; the header bytes the [CWaveStream]
    constructor writes and what [finalise] makes of a file's bytes; the
    size of the slot vector; the text of a [CReaperProject]; the text
    [secondsAt48K] prints. *)
Context (ClientName : string -> CHostAddress -> string)
        (waveStreamHeaders : Z -> string)
        (finalise : string -> string)
        (MAX_NUM_CHANNELS : nat)
        (CReaperProject_toString : gmap string (list STrackItem) -> Z -> string)
        (secondsAt48K : Z -> Z -> string).

(** *** CJamClient *)

Definition recordingBaseName (frame _numChannels : Z) (name : string) (address : CHostAddress) : string :=
  ClientName name address +:+ "-" +:+ QString.number frame +:+ "-" +:+ QString.number _numChannels.

(** [CJamClient::CJamClient].  The search is given one step more than
    there are nodes on the disk, which is always enough
    ([uniqueAffix_enough_fuel]). *)
Definition CJamClient_new (frame _numChannels : Z) (name : string)
    (address : CHostAddress) (recordBaseDir : string) : M FileSystem CJamClient :=
  fun fs =>
    let fileName := recordingBaseName frame _numChannels name address in
    match uniqueAffix (S (size (nodes fs)))
            (fun n => FS.dirExists recordBaseDir n fs) fileName "" with
    | Found affix =>
        let fileName := fileName +:+ affix +:+ ".wav" in
        let path := FS.absoluteFilePath recordBaseDir fileName in
        if FS.writable path fs then
          Ok {| startFrame := frame;
                numChannels := _numChannels mod 65536;
                name := name;
                address := address;
                filename := path;
                frameCount := 0 |}
             (FS.append path (waveStreamHeaders (_numChannels mod 65536)) fs)
        else Throw ("Could not write to WAV file " +:+ path) fs
    | Overflow => Fault
    | Exhausted => Fault
    end.

(** [name = _name; ...; frameCount++] *)
Definition fed (_name : string) (c : CJamClient) : CJamClient :=
  {| startFrame := startFrame c;
     numChannels := numChannels c;
     name := _name;
     address := address c;
     filename := filename c;
     frameCount := frameCount c + 1 |}.

(** [CJamClient::Frame] *)
Definition CJamClient_Frame (_name : string) (pcm : list Z)
    (iServerFrameSizeSamples : Z) (c : CJamClient) : M FileSystem CJamClient :=
  fun fs =>
    match writeSamples (Z.to_nat (numChannels c * iServerFrameSizeSamples)) pcm with
    | Some bytes => Ok (fed _name c) (FS.append (filename c) bytes fs)
    | None => Fault
    end.

(** [CJamClient::Disconnect] *)
Definition CJamClient_Disconnect (c : CJamClient) : M FileSystem unit :=
  modify (fun fs => FS.put (filename c) (File (finalise (FS.content (filename c) fs))) fs).

(** *** CJamSession *)

(** [CJamSession::CJamSession]; [stamp] is the UTC time as
    [yyyyMMdd-HHmmsszzz]. *)
Definition CJamSession_new (recordBaseDir stamp : string) : M FileSystem CJamSession :=
  fun fs =>
    let dir := FS.absoluteFilePath recordBaseDir ("Jam-" +:+ stamp) in
    if negb (FS.exists_ dir fs) && negb (FS.writable dir fs) then
      Throw (dir +:+ " does not exist but could not be created") fs
    else
      let fs := if FS.exists_ dir fs then fs else FS.put dir Dir fs in
      if negb (FS.isDir dir fs) then
        Throw (dir +:+ " exists but is not a directory") fs
      else if negb (FS.writable dir fs) then
        Throw (dir +:+ " is a directory but cannot be written to") fs
      else
        Ok {| sessionDir := dir;
              currentFrame := 0;
              chIdDisconnected := -1;
              vecptrJamClients := replicate MAX_NUM_CHANNELS None;
              jamClientConnections := [] |} fs.

(** The record [DisconnectClient] makes of a recording. *)
Definition connectionOf (c : CJamClient) : CJamClientConnection :=
  {| Format := numChannels c;
     StartFrame := startFrame c;
     Length := frameCount c;
     Name := ClientName (name c) (address c);
     FileName := filename c |}.

(** [CJamSession::DisconnectClient]: the slot is dereferenced unchecked. *)
Definition DisconnectClient (iChID : Z) : M World unit :=
  p ← clientAt iChID;
  match p with
  | None => fault
  | Some c =>
      onDisk (CJamClient_Disconnect c);;
      onSession (appendConnection (connectionOf c));;
      onSession (setClient iChID None);;
      onSession (setDisconnected iChID)
  end.

(** [if (StartFrame() + FrameCount() > currentFrame) currentFrame++] *)
Definition stepFrame (c : CJamClient) (s : CJamSession) : CJamSession :=
  if startFrame c + frameCount c >? currentFrame s
  then setCurrentFrame (currentFrame s + 1) s
  else s.

Definition currentFrameNow : M World Z := fun w => Ok (currentFrame (session w)) w.

(** The test of [Frame] for a stream that is no longer the one recorded. *)
Definition identityChanged (numAudioChannels : Z) (address_ : CHostAddress)
    (c : CJamClient) : bool :=
  bool_decide (numAudioChannels ≠ numChannels c)
  || bool_decide (InetAddr address_ ≠ InetAddr (address c))
  || bool_decide (iPort address_ ≠ iPort (address c)).

(** [CJamSession::Frame] *)
Definition Frame (iChID : Z) (name_ : string) (address_ : CHostAddress)
    (numAudioChannels : Z) (data : list Z) (iServerFrameSizeSamples : Z) : M World unit :=
  w ← get;
  if iChID =? chIdDisconnected (session w) then
    onSession (setDisconnected (-1))
  else
    p ← clientAt iChID;
    match p with
    | None =>
        c ← onDisk (CJamClient_new (currentFrame (session w)) numAudioChannels
                      name_ address_ (sessionDir (session w)));
        onSession (setClient iChID (Some c))
    | Some c0 =>
        if identityChanged numAudioChannels address_ c0 then
          DisconnectClient iChID;;
          if numAudioChannels =? 0 then onSession (setClient iChID None)
          else
            now ← currentFrameNow;
            c ← onDisk (CJamClient_new now numAudioChannels
                          name_ address_ (sessionDir (session w)));
            onSession (setClient iChID (Some c))
        else mret tt
    end;;
    p ← clientAt iChID;
    match p with
    | None => mret tt
    | Some c =>
        c ← onDisk (CJamClient_Frame name_ data iServerFrameSizeSamples c);
        onSession (setClient iChID (Some c));;
        onSession (stepFrame c)
    end.

(** [CJamSession::End] *)
Fixpoint End_from (ids : list nat) : M World unit :=
  match ids with
  | [] => mret tt
  | i :: rest =>
      p ← clientAt (Z.of_nat i);
      match p with
      | Some _ =>
          DisconnectClient (Z.of_nat i);;
          onSession (setClient (Z.of_nat i) None)
      | None => mret tt
      end;;
      End_from rest
  end.

Definition End : M World unit :=
  w ← get;
  End_from (seq 0 (length (vecptrJamClients (session w)))).

(** *** Track maps *)

(** [tracks.contains(k)], [tracks.insert(k, { })] and
    [tracks[k].append(track)] on a [QMap<QString, QList<STrackItem>>]. *)
Definition ensureTrack (k : string) (tracks : gmap string (list STrackItem)) :
    gmap string (list STrackItem) :=
  if bool_decide (is_Some (tracks !! k)) then tracks else <[k := []]> tracks.

Definition appendTrack (k : string) (track : STrackItem)
    (tracks : gmap string (list STrackItem)) : gmap string (list STrackItem) :=
  <[k := default [] (tracks !! k) ++ [track]]> tracks.

(** [STrackItem track ( Format(), StartFrame(), Length(), FileName() )] *)
Definition trackItemOf (conn : CJamClientConnection) : STrackItem :=
  {| item_numChannels := Format conn;
     item_startFrame := StartFrame conn;
     item_length := Length conn;
     item_fileName := FileName conn |}.

(** [CJamSession::Tracks] *)
Definition Tracks (s : CJamSession) : gmap string (list STrackItem) :=
  foldl (fun tracks conn =>
           let track := trackItemOf conn in
           appendTrack (Name conn) track (ensureTrack (Name conn) tracks))
        ∅ (jamClientConnections s).

(** Integer division as C++ has it: truncated, and a fault on 0. *)
Definition cdiv (a b : Z) : option Z :=
  if b =? 0 then None else Some (Z.quot a b).

(** The body of the loop of [TracksFromSessionDir] for one entry; [None]
    when a list is indexed past its end or a division is by zero. *)
Definition trackFromEntry (sessionDir : string) (iServerFrameSizeSamples : Z)
    (fs : FileSystem) (tracks : gmap string (list STrackItem)) (entry : string) :
    option (gmap string (list STrackItem)) :=
  stem ← QString.split "." entry !! 0%nat;
  let split := QString.split "-" stem in
  name ← split !! 0%nat;
  hostPort ← split !! 1%nat;
  frame ← split !! 2%nat;
  tail ← split !! 3%nat;
  numChannels ← (if QString.count "_" tail >? 0
                 then QString.split "_" tail !! 0%nat else Some tail);
  let trackName := name +:+ "-" +:+ hostPort in
  let tracks := ensureTrack trackName tracks in
  perChannel ← cdiv (FS.size (FS.absoluteFilePath sessionDir entry) fs)
                    (QString.toInt numChannels);
  length ← cdiv perChannel iServerFrameSizeSamples;
  let track := {| item_numChannels := QString.toInt numChannels;
                  item_startFrame := QString.toLongLong frame;
                  item_length := length;
                  item_fileName := FS.absoluteFilePath sessionDir entry |} in
  Some (appendTrack trackName track tracks).

Fixpoint tracksFromEntries (sessionDir : string) (iServerFrameSizeSamples : Z)
    (fs : FileSystem) (tracks : gmap string (list STrackItem)) (entries : list string) :
    option (gmap string (list STrackItem)) :=
  match entries with
  | [] => Some tracks
  | entry :: rest =>
      tracks ← trackFromEntry sessionDir iServerFrameSizeSamples fs tracks entry;
      tracksFromEntries sessionDir iServerFrameSizeSamples fs tracks rest
  end.

(** [CJamSession::TracksFromSessionDir] *)
Definition TracksFromSessionDir (sessionDirName : string) (iServerFrameSizeSamples : Z)
    (fs : FileSystem) : option (gmap string (list STrackItem)) :=
  tracksFromEntries sessionDirName iServerFrameSizeSamples fs ∅
    (FS.entryList sessionDirName ".pcm" fs).

Definition isFrame (e : SessionEvent) : bool :=
  match e with
  | EvFrame _ _ _ _ _ => true
  | EvDisconnected _ => false
  end.

(** The events of a session, one at a time and in order. *)
Definition deliver (frameSize : Z) (e : SessionEvent) : M World unit :=
  match e with
  | EvFrame iChID name address numAudioChannels data =>
      Frame iChID name address numAudioChannels data frameSize
  | EvDisconnected iChID => DisconnectClient iChID
  end.

Fixpoint deliverAll (frameSize : Z) (es : list SessionEvent) : M World unit :=
  match es with
  | [] => mret tt
  | e :: rest => deliver frameSize e;; deliverAll frameSize rest
  end.

(** *** CJamRecorder *)

Definition say (o : Output) : M Machine unit :=
  modify (fun m => {| recorder := recorder m; mdisk := mdisk m;
                      output := output m ++ [o] |}).

Definition onMachineDisk {A} (f : M FileSystem A) : M Machine A := fun m =>
  match f (mdisk m) with
  | Ok a fs => Ok a {| recorder := recorder m; mdisk := fs; output := output m |}
  | Throw msg fs => Throw msg {| recorder := recorder m; mdisk := fs; output := output m |}
  | Fault => Fault
  end.

Definition onRecorder (f : CJamRecorder -> CJamRecorder) : M Machine unit :=
  modify (fun m => {| recorder := f (recorder m); mdisk := mdisk m;
                      output := output m |}).

Definition setRecording (b : bool) (r : CJamRecorder) : CJamRecorder :=
  {| recordBaseDir := recordBaseDir r;
     iServerFrameSizeSamples := iServerFrameSizeSamples r;
     isRecording := b; currentSession := currentSession r |}.

Definition setSession (s : option CJamSession) (r : CJamRecorder) : CJamRecorder :=
  {| recordBaseDir := recordBaseDir r;
     iServerFrameSizeSamples := iServerFrameSizeSamples r;
     isRecording := isRecording r; currentSession := s |}.

(** A call through [currentSession]: a fault on the null pointer. *)
Definition onCurrentSession {A} (f : M World A) : M Machine A := fun m =>
  match currentSession (recorder m) with
  | None => Fault
  | Some s =>
      let back w := {| recorder := setSession (Some (session w)) (recorder m);
                       mdisk := disk w; output := output m |} in
      match f {| session := s; disk := mdisk m |} with
      | Ok a w => Ok a (back w)
      | Throw msg w => Throw msg (back w)
      | Fault => Fault
      end
  end.

(** Modelled from the spec: [CJamSession::Name] is declared in
    jamrecorder.h, which is not among the sources; the project files are
    named after the session directory's base name. *)
Definition CJamSession_Name (s : CJamSession) : string :=
  QString.lastComponent (sessionDir s).

(** A file opened [WriteOnly] and written in one go. *)
Definition writeFile (path text : string) : M Machine unit :=
  modify (fun m => {| recorder := recorder m;
                      mdisk := FS.put path (File text) (mdisk m);
                      output := output m |}).

(** [CJamRecorder::ReaperProjectFromCurrentSession] *)
Definition ReaperProjectFromCurrentSession : M Machine unit :=
  m ← get;
  match currentSession (recorder m) with
  | None => fault
  | Some s =>
      let reaperProjectFileName :=
        FS.absoluteFilePath (sessionDir s) (CJamSession_Name s +:+ ".rpp") in
      if FS.exists_ reaperProjectFileName (mdisk m) then
        say (qWarning ["CJamRecorder::ReaperProjectFromCurrentSession():";
                       sessionDir s; "exists and will not be overwritten."])
      else if FS.writable reaperProjectFileName (mdisk m) then
        writeFile reaperProjectFileName
          (CReaperProject_toString (Tracks s) (iServerFrameSizeSamples (recorder m))
             +:+ QString.endl);;
        say (qDebug ["Session RPP:"; reaperProjectFileName])
      else
        say (qWarning ["CJamRecorder::ReaperProjectFromCurrentSession():";
                       sessionDir s; "could not be created, no RPP written."])
  end.

(** One line of the Audacity list of files. *)
Definition lofLine (frameSize : Z) (item : STrackItem) : string :=
  "file " +:+ QString.dquote +:+ QString.lastComponent (item_fileName item)
    +:+ QString.dquote +:+ " offset "
    +:+ secondsAt48K (item_startFrame item) frameSize +:+ QString.endl.

(** [QMap::keys]: ascending. *)
Definition keys (tracks : gmap string (list STrackItem)) : list string :=
  merge_sort String.le (elements (dom tracks)).

Definition lofText (frameSize : Z) (tracks : gmap string (list STrackItem)) : string :=
  foldr String.append EmptyString
    (trackName ← keys tracks;
     lofLine frameSize <$> default [] (tracks !! trackName)).

(** [CJamRecorder::AudacityLofFromCurrentSession] *)
Definition AudacityLofFromCurrentSession : M Machine unit :=
  m ← get;
  match currentSession (recorder m) with
  | None => fault
  | Some s =>
      let audacityLofFileName :=
        FS.absoluteFilePath (sessionDir s) (CJamSession_Name s +:+ ".lof") in
      if FS.exists_ audacityLofFileName (mdisk m) then
        say (qWarning ["CJamRecorder::AudacityLofFromCurrentSession():";
                       sessionDir s; "exists and will not be overwritten."])
      else if FS.writable audacityLofFileName (mdisk m) then
        writeFile audacityLofFileName
          (lofText (iServerFrameSizeSamples (recorder m)) (Tracks s));;
        say (qDebug ["Session LOF:"; audacityLofFileName])
      else
        say (qWarning ["CJamRecorder::AudacityLofFromCurrentSession():";
                       sessionDir s; "could not be created, no LOF written."])
  end.

(** [CJamRecorder::OnEnd] *)
Definition OnEnd : M Machine unit :=
  m ← get;
  if isRecording (recorder m) then
    onRecorder (setRecording false);;
    onCurrentSession End;;
    ReaperProjectFromCurrentSession;;
    AudacityLofFromCurrentSession;;
    onRecorder (setSession None)
  else mret tt.

(** [CJamRecorder::Start]; [stamp] is the time the new session reads. *)
Definition Start (stamp : string) : M Machine unit :=
  OnEnd;;
  m ← get;
  s ← onMachineDisk (CJamSession_new (recordBaseDir (recorder m)) stamp);
  onRecorder (setSession (Some s));;
  onRecorder (setRecording true);;
  say (RecordingSessionStarted (sessionDir s)).

(** [CJamRecorder::OnTriggerSession] *)
Definition OnTriggerSession (stamp : string) : M Machine unit :=
  m ← get;
  if isRecording (recorder m) then Start stamp else mret tt.

(** [CJamRecorder::OnAboutToQuit] *)
Definition OnAboutToQuit : M Machine unit :=
  OnEnd;; say ThreadExit.

(** [CJamRecorder::SessionDirToReaper], a static member: the disk and
    the log are all it touches.  Paths are taken absolute and clean. *)
Definition SessionDirToReaper (strSessionDirName : string) (serverFrameSizeSamples : Z) :
    M (FileSystem * list Output) unit :=
  fun '(fs, out) =>
    if negb (FS.exists_ strSessionDirName fs) || negb (FS.isDir strSessionDirName fs) then
      Throw (strSessionDirName +:+ " does not exist or is not a directory.  Aborting.")
            (fs, out)
    else
      let reaperProjectFileName :=
        FS.absoluteFilePath strSessionDirName
          (QString.beforeFirstDot (QString.lastComponent strSessionDirName) +:+ ".rpp") in
      if FS.exists_ reaperProjectFileName fs then
        Throw (reaperProjectFileName +:+ " exists and will not be overwritten.  Aborting.")
              (fs, out)
      else if negb (FS.writable reaperProjectFileName fs) then
        Throw (reaperProjectFileName +:+ " could not be written.  Aborting.") (fs, out)
      else
        let fs := FS.put reaperProjectFileName (File EmptyString) fs in
        match TracksFromSessionDir strSessionDirName serverFrameSizeSamples fs with
        | None => Fault
        | Some tracks =>
            Ok tt (FS.put reaperProjectFileName
                     (File (CReaperProject_toString tracks serverFrameSizeSamples
                              +:+ QString.endl)) fs,
                   out ++ [qDebug ["Session RPP:"; reaperProjectFileName]])
        end.

(** [CJamRecorder::OnDisconnected] *)
Definition OnDisconnected (iChID : Z) : M Machine unit :=
  m ← get;
  (if negb (isRecording (recorder m)) then
     say (qWarning ["CJamRecorder::OnDisconnected: channel"; QString.number iChID;
                    "disconnected but not recording"])
   else mret tt);;
  match currentSession (recorder m) with
  | None =>
      say (qWarning ["CJamRecorder::OnDisconnected: channel"; QString.number iChID;
                     "disconnected but no currentSession"])
  | Some _ => onCurrentSession (DisconnectClient iChID)
  end.

(** [CJamRecorder::OnFrame] *)
Definition OnFrame (stamp : string) (iChID : Z) (name : string) (address : CHostAddress)
    (numAudioChannels : Z) (data : list Z) : M Machine unit :=
  m ← get;
  (if negb (isRecording (recorder m)) then Start stamp else mret tt);;
  m ← get;
  onCurrentSession
    (Frame iChID name address numAudioChannels data (iServerFrameSizeSamples (recorder m))).

(** The state [DisconnectClient] leaves for the recording [c] of slot
    [iChID]. *)
Definition afterDisconnect (iChID : Z) (c : CJamClient) (w : World) : World :=
  {| session := setDisconnected iChID
                  (setClient iChID None (appendConnection (connectionOf c) (session w)));
     disk := FS.put (filename c)
               (File (finalise (FS.content (filename c) (disk w)))) (disk w) |}.

(** The state a dropped frame leaves: the marker is cleared, no more. *)
Definition afterDrop (w : World) : World :=
  {| session := setDisconnected (-1) (session w); disk := disk w |}.

(** What no event of a session changes: the size of the slot vector, the
    directory, and the connections already finalized. *)
Definition sameShape (w w' : World) : Prop :=
  length (vecptrJamClients (session w')) = length (vecptrJamClients (session w))
  /\ sessionDir (session w') = sessionDir (session w)
  /\ jamClientConnections (session w) `prefix_of` jamClientConnections (session w').

(** The channel an event is for. *)
Definition eventChannel (e : SessionEvent) : Z :=
  match e with
  | EvFrame iChID _ _ _ _ => iChID
  | EvDisconnected iChID => iChID
  end.

(** A segment that starts at or after frame 0 and ends at or before the
    frame counter. *)
Definition segmentOk (cur start count : Z) : Prop :=
  0 <= start /\ 0 <= count /\ start + count <= cur.

(** Every recording, active or finalized, lies within the frames the
    session has counted. *)
Definition withinCounter (s : CJamSession) : Prop :=
  0 <= currentFrame s
  /\ (forall (c : Z) (r : CJamClient),
        slotAt (vecptrJamClients s) c = Some (Some r) ->
        segmentOk (currentFrame s) (startFrame r) (frameCount r))
  /\ (forall conn : CJamClientConnection,
        conn ∈ jamClientConnections s ->
        segmentOk (currentFrame s) (StartFrame conn) (Length conn)).

(** Every recording of a session, active or finalized, has a file of its
    own, and that file is on the disk. *)
Definition filesTrackedIn (v : list (option CJamClient))
    (conns : list CJamClientConnection) (fs : FileSystem) : Prop :=
  NoDup (FileName <$> conns)
  /\ (forall conn : CJamClientConnection,
        conn ∈ conns -> is_Some (nodes fs !! FileName conn))
  /\ (forall (c : Z) (r : CJamClient),
        slotAt v c = Some (Some r) ->
        is_Some (nodes fs !! filename r)
        /\ forall conn : CJamClientConnection, conn ∈ conns -> FileName conn <> filename r)
  /\ (forall (c c' : Z) (r r' : CJamClient),
        slotAt v c = Some (Some r) -> slotAt v c' = Some (Some r') ->
        filename r = filename r' -> c = c').

Definition filesTracked (w : World) : Prop :=
  filesTrackedIn (vecptrJamClients (session w)) (jamClientConnections (session w)) (disk w).

(** The nodes of [fs] are nodes of [fs'] too. *)
Definition keepsNodes (fs fs' : FileSystem) : Prop :=
  forall f : string, is_Some (nodes fs !! f) -> is_Some (nodes fs' !! f).

(** The bytes a recording's file holds while it is active, for frames of
    [fsz] samples a channel: the header, and two bytes a sample for every
    frame fed. *)
Definition recordedSize (fsz : Z) (r : CJamClient) : Z :=
  Z.of_nat (String.length (waveStreamHeaders (numChannels r)))
  + frameCount r * (2 * Z.max 0 (numChannels r * fsz)).

Definition sizesOk (fsz : Z) (w : World) : Prop :=
  forall (c : Z) (r : CJamClient),
    slotAt (vecptrJamClients (session w)) c = Some (Some r) ->
    FS.size (filename r) (disk w) = recordedSize fsz r.

(** The decimal digits. *)
Definition isDigit (c : ascii) : bool :=
  let n := N_of_ascii c in ((48 <=? n) && (n <=? 57))%N.



(** All the items of a track map, whatever their track. *)
Definition items (tracks : gmap string (list STrackItem)) : list STrackItem :=
  mjoin (map_to_list tracks).*2.

(** The lines of the Audacity list of files, before they are written one
    after the other. *)
Definition lofLines (frameSize : Z) (tracks : gmap string (list STrackItem)) : list string :=
  trackName ← keys tracks;
  lofLine frameSize <$> default [] (tracks !! trackName).

(** The signals [CJamRecorder::Init] connects to the slots of the
    recorder, with what they carry; a signal whose slot may start a
    session carries the time that session reads, too. *)
Inductive Signal : Type :=
| RestartRecorder (stamp : string)
| StopRecorder
| Stopped
| ClientDisconnected (iChID : Z)
| AudioFrame (stamp : string) (iChID : Z) (name : string) (address : CHostAddress)
    (numAudioChannels : Z) (data : list Z)
| aboutToQuit.

(** The slot each signal is connected to. *)
Definition slotOf (sig : Signal) : M Machine unit :=
  match sig with
  | RestartRecorder stamp => OnTriggerSession stamp
  | StopRecorder => OnEnd
  | Stopped => OnEnd
  | ClientDisconnected iChID => OnDisconnected iChID
  | AudioFrame stamp iChID name address numAudioChannels data =>
      OnFrame stamp iChID name address numAudioChannels data
  | aboutToQuit => OnAboutToQuit
  end.

(** The connections are queued: the slots run one after the other, in
    the order of the signals. *)
Fixpoint handleAll (sigs : list Signal) : M Machine unit :=
  match sigs with
  | [] => mret tt
  | sig :: rest => slotOf sig;; handleAll rest
  end.

(** The flag and the pointer of the recorder agree. *)
Definition consistent (r : CJamRecorder) : Prop :=
  isRecording r = true <-> is_Some (currentSession r).

(** What a run of slots keeps of the machine [m0] it started from. *)
Definition keepsRecorder (m0 m : Machine) : Prop :=
  consistent (recorder m) /\
  recordBaseDir (recorder m) = recordBaseDir (recorder m0) /\
  iServerFrameSizeSamples (recorder m) = iServerFrameSizeSamples (recorder m0) /\
  output m0 `prefix_of` output m.

(** ** Facts about the session *)

Example split_ex :
  QString.split "-" "Alic-10_0_0_1_22124-0-2_1" = ["Alic"; "10_0_0_1_22124"; "0"; "2_1"].
Proof. reflexivity. Qed.

Example number_ex : QString.number 120 = "120" /\ QString.number (-3) = "-3" /\ QString.number 0 = "0".
Proof. repeat split; reflexivity. Qed.

Example toInt_ex : QString.toInt "12" = 12 /\ QString.toInt "x" = 0 /\ QString.toInt "4294967296" = 0.
Proof. repeat split; reflexivity. Qed.

Ltac run_monad :=
  unfold onSession, onDisk, clientAt, currentFrameNow in *;
  unfold mbind, M_bind, mret, M_ret, get, modify, fault, throw in *;
  cbn [session disk] in *.

Lemma slotAt_Some (v : list (option CJamClient)) (c : Z) (p : option CJamClient) :
  slotAt v c = Some p -> 0 <= c /\ v !! Z.to_nat c = Some p.
Proof.
  unfold slotAt. destruct (Z.ltb_spec c 0); [discriminate|]. auto.
Qed.

Lemma slotAt_insert_same (v : list (option CJamClient)) (c : Z) (p q : option CJamClient) :
  slotAt v c = Some p -> slotAt (<[Z.to_nat c := q]> v) c = Some q.
Proof.
  intros H. apply slotAt_Some in H as [Hc Hl]. unfold slotAt.
  destruct (Z.ltb_spec c 0); [lia|].
  apply list_lookup_insert_eq. by eapply lookup_lt_Some.
Qed.

Lemma slotAt_insert_other (v : list (option CJamClient)) (c c' : Z) (q : option CJamClient) :
  0 <= c -> c <> c' -> slotAt (<[Z.to_nat c := q]> v) c' = slotAt v c'.
Proof.
  intros Hc Hne. unfold slotAt. destruct (Z.ltb_spec c' 0); [done|].
  apply list_lookup_insert_ne. lia.
Qed.

Ltac slot_facts :=
  repeat match goal with
  | H : slotAt ?v ?c = Some _,
    H' : slotAt (<[Z.to_nat ?c := ?q]> ?v) ?c = _ |- _ =>
      rewrite (slotAt_insert_same v c _ q H) in H'
  | H : slotAt ?v ?c = Some _,
    H' : slotAt (<[Z.to_nat ?c := ?q1]> (<[Z.to_nat ?c := ?q2]> ?v)) ?c = _ |- _ =>
      rewrite (slotAt_insert_same _ c _ q1 (slotAt_insert_same v c _ q2 H)) in H'
  end; simplify_eq.

Lemma DisconnectClient_active (w : World) (c : Z) (r : CJamClient) :
  slotAt (vecptrJamClients (session w)) c = Some (Some r) ->
  DisconnectClient c w = Ok tt (afterDisconnect c r w).
Proof.
  intros H. unfold DisconnectClient. run_monad. rewrite H. reflexivity.
Qed.

Lemma DisconnectClient_null (w : World) (c : Z) :
  slotAt (vecptrJamClients (session w)) c = Some None ->
  DisconnectClient c w = Fault.
Proof.
  intros H. unfold DisconnectClient. run_monad. rewrite H. reflexivity.
Qed.

Lemma Frame_dropped (w : World) (c : Z) (n : string) (a : CHostAddress)
    (nc : Z) (d : list Z) (fsz : Z) :
  c = chIdDisconnected (session w) ->
  Frame c n a nc d fsz w = Ok tt (afterDrop w).
Proof.
  intros ->. unfold Frame. run_monad. rewrite Z.eqb_refl. reflexivity.
Qed.

Lemma Frame_opens (w : World) (c : Z) (n : string) (a : CHostAddress)
    (nc : Z) (d : list Z) (fsz : Z) (cl : CJamClient) (fs1 : FileSystem) (bytes : string) :
  c <> chIdDisconnected (session w) ->
  slotAt (vecptrJamClients (session w)) c = Some None ->
  CJamClient_new (currentFrame (session w)) nc n a (sessionDir (session w)) (disk w)
    = Ok cl fs1 ->
  writeSamples (Z.to_nat (numChannels cl * fsz)) d = Some bytes ->
  Frame c n a nc d fsz w
  = Ok tt {| session := stepFrame (fed n cl)
                          (setClient c (Some (fed n cl))
                             (setClient c (Some cl) (session w)));
             disk := FS.append (filename cl) bytes fs1 |}.
Proof.
  intros Hm Hs Hnew Hw. unfold Frame. run_monad.
  apply Z.eqb_neq in Hm. rewrite Hm, Hs, Hnew. cbn [session disk vecptrJamClients setClient].
  rewrite (slotAt_insert_same _ _ _ _ Hs).
  unfold CJamClient_Frame. rewrite Hw. reflexivity.
Qed.

Lemma Frame_to_zero (w : World) (c : Z) (n : string) (a : CHostAddress)
    (d : list Z) (fsz : Z) (r0 : CJamClient) :
  c <> chIdDisconnected (session w) ->
  slotAt (vecptrJamClients (session w)) c = Some (Some r0) ->
  identityChanged 0 a r0 = true ->
  Frame c n a 0 d fsz w
  = Ok tt {| session := setClient c None (session (afterDisconnect c r0 w));
             disk := disk (afterDisconnect c r0 w) |}.
Proof.
  intros Hm Hs Hid. unfold Frame. run_monad.
  apply Z.eqb_neq in Hm. rewrite Hm, Hs, Hid.
  rewrite (DisconnectClient_active _ _ _ Hs).
  cbn [session disk vecptrJamClients setClient afterDisconnect setDisconnected appendConnection Z.eqb].
  pose proof (slotAt_insert_same _ _ _ None Hs) as Hs1.
  rewrite (slotAt_insert_same _ _ _ None Hs1). reflexivity.
Qed.

Lemma Frame_reopens (w : World) (c : Z) (n : string) (a : CHostAddress)
    (nc : Z) (d : list Z) (fsz : Z) (r0 cl : CJamClient) (fs1 : FileSystem) (bytes : string) :
  c <> chIdDisconnected (session w) ->
  slotAt (vecptrJamClients (session w)) c = Some (Some r0) ->
  identityChanged nc a r0 = true ->
  nc <> 0 ->
  CJamClient_new (currentFrame (session w)) nc n a (sessionDir (session w))
    (disk (afterDisconnect c r0 w)) = Ok cl fs1 ->
  writeSamples (Z.to_nat (numChannels cl * fsz)) d = Some bytes ->
  Frame c n a nc d fsz w
  = Ok tt {| session := stepFrame (fed n cl)
                          (setClient c (Some (fed n cl))
                             (setClient c (Some cl) (session (afterDisconnect c r0 w))));
             disk := FS.append (filename cl) bytes fs1 |}.
Proof.
  intros Hm Hs Hid Hnc Hnew Hw. unfold Frame. run_monad.
  apply Z.eqb_neq in Hm. apply Z.eqb_neq in Hnc. rewrite Hm, Hs, Hid.
  rewrite (DisconnectClient_active _ _ _ Hs). rewrite Hnc.
  unfold currentFrameNow.
  cbn [session disk currentFrame afterDisconnect setDisconnected setClient appendConnection] in *.
  rewrite Hnew.
  cbn [session disk vecptrJamClients setClient setDisconnected appendConnection].
  pose proof (slotAt_insert_same _ _ _ None Hs) as Hs1.
  rewrite (slotAt_insert_same _ _ _ (Some cl) Hs1).
  unfold CJamClient_Frame. rewrite Hw. reflexivity.
Qed.

Lemma Frame_feeds (w : World) (c : Z) (n : string) (a : CHostAddress)
    (nc : Z) (d : list Z) (fsz : Z) (r0 : CJamClient) (bytes : string) :
  c <> chIdDisconnected (session w) ->
  slotAt (vecptrJamClients (session w)) c = Some (Some r0) ->
  identityChanged nc a r0 = false ->
  writeSamples (Z.to_nat (numChannels r0 * fsz)) d = Some bytes ->
  Frame c n a nc d fsz w
  = Ok tt {| session := stepFrame (fed n r0) (setClient c (Some (fed n r0)) (session w));
             disk := FS.append (filename r0) bytes (disk w) |}.
Proof.
  intros Hm Hs Hid Hw. unfold Frame. run_monad.
  apply Z.eqb_neq in Hm. rewrite Hm, Hs, Hid. cbn. rewrite Hs.
  unfold CJamClient_Frame. rewrite Hw. reflexivity.
Qed.

(** ** Facts about file names *)

Lemma string_length_app (s t : string) :
  String.length (s +:+ t) = (String.length s + String.length t)%nat.
Proof.
  induction s as [|c s IH]; [done|].
  change (String c s +:+ t) with (String c (s +:+ t)).
  cbn [String.length]. by rewrite IH.
Qed.

Lemma string_app_inv_tail (s1 s2 t : string) : s1 +:+ t = s2 +:+ t -> s1 = s2.
Proof.
  revert s2. induction s1 as [|c s1 IH]; intros [|c2 s2] H.
  - done.
  - apply (f_equal String.length) in H. rewrite !string_length_app in H. cbn in H. lia.
  - apply (f_equal String.length) in H. rewrite !string_length_app in H. cbn in H. lia.
  - change (String c (s1 +:+ t) = String c2 (s2 +:+ t)) in H.
    injection H as -> H. f_equal. by apply IH.
Qed.

Lemma to_int_proper (z : Z) :
  Z.to_int z <> Decimal.Pos Decimal.Nil /\ Z.to_int z <> Decimal.Neg Decimal.Nil.
Proof.
  destruct z as [|p|p]; cbn; split; try discriminate;
    intros [= H]; by apply Unsigned.to_uint_nonnil in H.
Qed.

Lemma int_of_string_number (z : Z) :
  NilZero.int_of_string (QString.number z) = Some (Z.to_int z).
Proof.
  unfold QString.number. destruct (to_int_proper z). by apply NilZero.isi.
Qed.

Lemma number_inj (a b : Z) : QString.number a = QString.number b -> a = b.
Proof.
  intros H. apply (f_equal NilZero.int_of_string) in H.
  rewrite !int_of_string_number in H. injection H as H. by apply DecimalZ.to_int_inj.
Qed.

Lemma toInt_number (z : Z) :
  QString.INT_MIN <= z <= QString.INT_MAX -> QString.toInt (QString.number z) = z.
Proof.
  intros [Hlo Hhi]. unfold QString.toInt, QString.toRange.
  rewrite int_of_string_number, DecimalZ.of_to.
  apply Z.leb_le in Hlo, Hhi. by rewrite Hlo, Hhi.
Qed.

Lemma affixOf_inj (i j : nat) : affixOf i = affixOf j -> i = j.
Proof.
  destruct i, j; cbn; try done.
  intros [= H]. apply number_inj in H. lia.
Qed.

Lemma nextAffix_affixOf (k : nat) :
  Z.of_nat k < QString.INT_MAX -> nextAffix (affixOf k) = Some (affixOf (S k)).
Proof.
  intros Hk. destruct k as [|k]; [reflexivity|].
  unfold nextAffix, affixOf.
  change ("_" +:+ QString.number (Z.of_nat (S k)))
    with (String "_" (QString.number (Z.of_nat (S k)))).
  cbn [String.length Nat.eqb QString.remove_first].
  rewrite toInt_number by (unfold QString.INT_MIN; lia).
  destruct (Z.leb_spec (Z.of_nat (S k) + 1) QString.INT_MAX); [|lia].
  do 3 f_equal. lia.
Qed.

Lemma nextAffix_last (k : nat) :
  Z.of_nat k = QString.INT_MAX -> nextAffix (affixOf k) = None.
Proof.
  intros Hk. destruct k as [|k]; [discriminate|].
  unfold nextAffix, affixOf.
  change ("_" +:+ QString.number (Z.of_nat (S k)))
    with (String "_" (QString.number (Z.of_nat (S k)))).
  cbn [String.length Nat.eqb QString.remove_first].
  rewrite toInt_number by (unfold QString.INT_MIN; lia).
  destruct (Z.leb_spec (Z.of_nat (S k) + 1) QString.INT_MAX); [lia|done].
Qed.

Lemma candidate_inj (fileName : string) (i j : nat) :
  candidate fileName i = candidate fileName j -> i = j.
Proof.
  unfold candidate. intros H. apply String.app_inj in H.
  apply string_app_inv_tail in H. by apply affixOf_inj.
Qed.

(** What the search returns, from any step on: the first free candidate. *)
Lemma uniqueAffix_found (fuel : nat) (taken : string -> bool) (fileName : string)
    (k : nat) (a : string) :
  Z.of_nat k <= QString.INT_MAX ->
  uniqueAffix fuel taken fileName (affixOf k) = Found a ->
  exists j : nat, (k <= j)%nat /\ a = affixOf j /\
    taken (candidate fileName j) = false /\
    forall i : nat, (k <= i < j)%nat -> taken (candidate fileName i) = true.
Proof.
  revert k. induction fuel as [|fuel IH]; intros k Hk H; [discriminate|].
  cbn in H. fold (candidate fileName k) in H.
  destruct (taken (candidate fileName k)) eqn:Ht.
  - destruct (decide (Z.of_nat k = QString.INT_MAX)) as [He|Hne].
    + by rewrite (nextAffix_last _ He) in H.
    + rewrite nextAffix_affixOf in H by lia.
      apply IH in H as (j & Hj & -> & Hfree & Hbefore); [|lia].
      exists j. repeat split; [lia|done|].
      intros i Hi. destruct (decide (i = k)) as [->|]; [done|]. apply Hbefore. lia.
  - injection H as <-. exists k. repeat split; [lia|done|]. intros i Hi. lia.
Qed.

(** When the search stops for another reason, every candidate it looked
    at is taken. *)
Lemma uniqueAffix_exhausted (fuel : nat) (taken : string -> bool) (fileName : string)
    (k : nat) :
  Z.of_nat k <= QString.INT_MAX ->
  uniqueAffix fuel taken fileName (affixOf k) = Exhausted ->
  forall i : nat, (k <= i < k + fuel)%nat -> taken (candidate fileName i) = true.
Proof.
  revert k. induction fuel as [|fuel IH]; intros k Hk H i Hi; [lia|].
  cbn in H. fold (candidate fileName k) in H.
  destruct (taken (candidate fileName k)) eqn:Ht; [|discriminate].
  destruct (decide (Z.of_nat k = QString.INT_MAX)) as [He|Hne].
  - by rewrite (nextAffix_last _ He) in H.
  - rewrite nextAffix_affixOf in H by lia.
    destruct (decide (i = k)) as [->|]; [done|].
    apply (IH (S k)); [lia|done|lia].
Qed.

Lemma uniqueAffix_overflow (fuel : nat) (taken : string -> bool) (fileName : string)
    (k : nat) :
  Z.of_nat k <= QString.INT_MAX ->
  uniqueAffix fuel taken fileName (affixOf k) = Overflow ->
  forall i : nat, (k <= i)%nat -> Z.of_nat i <= QString.INT_MAX ->
    taken (candidate fileName i) = true.
Proof.
  revert k. induction fuel as [|fuel IH]; intros k Hk H i Hi Hmax; [discriminate|].
  cbn in H. fold (candidate fileName k) in H.
  destruct (taken (candidate fileName k)) eqn:Ht; [|discriminate].
  destruct (decide (Z.of_nat k = QString.INT_MAX)) as [He|Hne].
  - assert (i = k) as -> by lia. done.
  - rewrite nextAffix_affixOf in H by lia.
    destruct (decide (i = k)) as [->|]; [done|].
    apply (IH (S k)); [lia|done|lia|done].
Qed.

(** Distinct candidates are distinct nodes: no more of them are taken than
    the disk has nodes. *)
Lemma taken_candidates_bounded (fs : FileSystem) (dir fileName : string) (m : nat) :
  (forall i : nat, (i < m)%nat -> FS.dirExists dir (candidate fileName i) fs = true) ->
  (m <= size (nodes fs))%nat.
Proof.
  intros Hall.
  set (path := fun i : nat => FS.absoluteFilePath dir (candidate fileName i)).
  assert (Inj (=) (=) path) as Hinj.
  { intros i j H. unfold path, FS.absoluteFilePath in H.
    do 2 apply String.app_inj in H. by apply candidate_inj in H. }
  assert (NoDup (path <$> seq 0 m)) as Hnd.
  { apply NoDup_fmap_2; [done|]. apply NoDup_seq. }
  assert (length (path <$> seq 0 m) = m) as Hlen.
  { by rewrite length_fmap, length_seq. }
  rewrite <- Hlen at 1.
  rewrite <- (size_list_to_set (C := gset string)) by done.
  rewrite <- (size_dom (D := gset string)).
  apply subseteq_size. intros p Hp.
  apply elem_of_list_to_set, list_elem_of_fmap in Hp as (i & -> & Hi).
  apply elem_of_seq in Hi. apply elem_of_dom.
  specialize (Hall i ltac:(lia)). unfold FS.dirExists, FS.exists_ in Hall.
  by apply bool_decide_eq_true in Hall.
Qed.

(** The search never runs out of steps. *)
Lemma uniqueAffix_enough_fuel (fs : FileSystem) (dir fileName : string) :
  uniqueAffix (S (size (nodes fs))) (fun n => FS.dirExists dir n fs) fileName EmptyString
  <> Exhausted.
Proof.
  intros H.
  pose proof (uniqueAffix_exhausted _ _ _ 0 ltac:(done) H) as Hall.
  pose proof (taken_candidates_bounded fs dir fileName (S (size (nodes fs)))) as Hb.
  enough (S (size (nodes fs)) <= size (nodes fs))%nat by lia.
  apply Hb. intros i Hi. apply Hall. lia.
Qed.

(** It overflows only on a disk of 2^31 nodes. *)
Lemma uniqueAffix_no_overflow (fs : FileSystem) (dir fileName : string) (fuel : nat) :
  Z.of_nat (size (nodes fs)) <= QString.INT_MAX ->
  uniqueAffix fuel (fun n => FS.dirExists dir n fs) fileName EmptyString <> Overflow.
Proof.
  intros Hsmall H.
  pose proof (uniqueAffix_overflow _ _ _ 0 ltac:(done) H) as Hall.
  pose proof (taken_candidates_bounded fs dir fileName (S (size (nodes fs)))) as Hb.
  enough (S (size (nodes fs)) <= size (nodes fs))%nat by lia.
  apply Hb. intros i Hi. apply Hall; lia.
Qed.

Lemma dirExists_false (dir n : string) (fs : FileSystem) :
  FS.dirExists dir n fs = false <-> nodes fs !! FS.absoluteFilePath dir n = None.
Proof.
  unfold FS.dirExists, FS.exists_. rewrite bool_decide_eq_false.
  by rewrite eq_None_not_Some.
Qed.

(** The constructor, step by step: it looks at the candidates in order,
    takes the first free one, and returns or throws by whether that file
    can be opened. *)
Lemma CJamClient_new_spec (frame nc : Z) (n : string) (a : CHostAddress)
    (dir : string) (fs : FileSystem) :
  Z.of_nat (size (nodes fs)) <= QString.INT_MAX ->
  exists k : nat,
    let fileName := candidate (recordingBaseName frame nc n a) k in
    let path := FS.absoluteFilePath dir fileName in
    (forall i : nat, (i < k)%nat ->
       FS.dirExists dir (candidate (recordingBaseName frame nc n a) i) fs = true) /\
    FS.dirExists dir fileName fs = false /\
    CJamClient_new frame nc n a dir fs
    = if FS.writable path fs
      then Ok {| startFrame := frame; numChannels := nc mod 65536; name := n;
                 address := a; filename := path; frameCount := 0 |}
              (FS.append path (waveStreamHeaders (nc mod 65536)) fs)
      else Throw ("Could not write to WAV file " +:+ path) fs.
Proof.
  intros Hsmall. unfold CJamClient_new.
  destruct (uniqueAffix _ _ _ _) as [affix| |] eqn:Hsearch.
  - apply (uniqueAffix_found _ _ _ 0) in Hsearch as (k & _ & -> & Hfree & Hbefore); [|done].
    exists k. cbn zeta. split; [|split; [done|done]].
    intros i Hi. apply Hbefore. lia.
  - by apply uniqueAffix_no_overflow in Hsearch.
  - by apply uniqueAffix_enough_fuel in Hsearch.
Qed.

(** What a constructed recording looks like. *)
Lemma CJamClient_new_Ok (frame nc : Z) (n : string) (a : CHostAddress)
    (dir : string) (fs fs' : FileSystem) (cl : CJamClient) :
  CJamClient_new frame nc n a dir fs = Ok cl fs' ->
  startFrame cl = frame /\ numChannels cl = nc mod 65536 /\ name cl = n /\
  address cl = a /\ frameCount cl = 0 /\
  nodes fs !! filename cl = None /\
  fs' = FS.append (filename cl) (waveStreamHeaders (nc mod 65536)) fs.
Proof.
  unfold CJamClient_new.
  destruct (uniqueAffix _ _ _ _) as [affix| |] eqn:Hsearch; [|done|done].
  destruct (FS.writable _ fs); [|done]. intros [= <- <-]. cbn.
  do 5 (split; [done|]). split; [|done].
  apply (uniqueAffix_found _ _ _ 0) in Hsearch as (k & _ & -> & Hfree & _); [|done].
  by apply dirExists_false in Hfree.
Qed.


Lemma stepFrame_counter (c : CJamClient) (s : CJamSession) :
  currentFrame s <= currentFrame (stepFrame c s) <= currentFrame s + 1.
Proof. unfold stepFrame. case_match; cbn; lia. Qed.

Lemma stepFrame_exact (c : CJamClient) (s : CJamSession) :
  currentFrame (stepFrame c s) = currentFrame s + 1
  <-> startFrame c + frameCount c > currentFrame s.
Proof.
  unfold stepFrame. destruct (Z.gtb_spec (startFrame c + frameCount c) (currentFrame s)); cbn; lia.
Qed.

Lemma stepFrame_slots (c : CJamClient) (s : CJamSession) :
  vecptrJamClients (stepFrame c s) = vecptrJamClients s.
Proof. unfold stepFrame. by case_match. Qed.

(** The three ways a frame is processed to the end. *)
Lemma Frame_Ok_inv (w w' : World) (c : Z) (n : string) (a : CHostAddress)
    (nc : Z) (d : list Z) (fsz : Z) :
  Frame c n a nc d fsz w = Ok tt w' ->
  (c = chIdDisconnected (session w) /\ w' = afterDrop w)
  \/ (c <> chIdDisconnected (session w) /\
      slotAt (vecptrJamClients (session w')) c = Some None /\
      currentFrame (session w') = currentFrame (session w))
  \/ (c <> chIdDisconnected (session w) /\
      exists (r : CJamClient) (s0 : CJamSession),
        currentFrame s0 = currentFrame (session w) /\
        slotAt (vecptrJamClients s0) c = Some (Some r) /\
        session w' = stepFrame r s0).
Proof.
  unfold Frame, DisconnectClient, CJamClient_Frame, CJamClient_Disconnect. run_monad.
  intros H.
  repeat (case_match; simplify_eq/=).
  all: try (left; split; [by apply Z.eqb_eq|done]).
  all: right.
  all: repeat match goal with H : (_ =? _) = false |- _ => apply Z.eqb_neq in H end.
  all: slot_facts.
  all: first
    [ left; split; [done|split; [|done]]; cbn;
      first [ done | eapply slotAt_insert_same; eassumption
            | eapply slotAt_insert_same; eapply slotAt_insert_same; eassumption ]
    | right; split; [done|];
      eexists _, _; split; [|split; [|reflexivity]]; cbn; [done|];
      first [ eapply slotAt_insert_same; eassumption
            | eapply slotAt_insert_same; eapply slotAt_insert_same; eassumption
            | eapply slotAt_insert_same; eapply slotAt_insert_same;
              eapply slotAt_insert_same; eassumption ] ].
Qed.

Lemma Frame_counter_step (w w' : World) (c : Z) (n : string) (a : CHostAddress)
    (nc : Z) (d : list Z) (fsz : Z) :
  final (Frame c n a nc d fsz w) = Some w' ->
  currentFrame (session w) <= currentFrame (session w') <= currentFrame (session w) + 1.
Proof.
  unfold Frame, DisconnectClient, CJamClient_Frame, CJamClient_Disconnect. run_monad.
  intros H.
  repeat (case_match; simplify_eq/=; try lia).
  all: match goal with
       | |- context [stepFrame ?c ?s] => pose proof (stepFrame_counter c s)
       end; cbn in *; lia.
Qed.

Lemma DisconnectClient_counter (w w' : World) (c : Z) :
  final (DisconnectClient c w) = Some w' ->
  currentFrame (session w') = currentFrame (session w).
Proof.
  unfold DisconnectClient, CJamClient_Disconnect. run_monad. intros H.
  repeat (case_match; simplify_eq/=). done.
Qed.

Lemma deliver_counter (fsz : Z) (e : SessionEvent) (w w' : World) :
  final (deliver fsz e w) = Some w' ->
  currentFrame (session w) <= currentFrame (session w')
  <= currentFrame (session w) + (if isFrame e then 1 else 0).
Proof.
  destruct e as [c n a nc d|c]; cbn [deliver isFrame]; intros H.
  - by apply Frame_counter_step in H.
  - apply DisconnectClient_counter in H. lia.
Qed.

Lemma deliverAll_counter (fsz : Z) (es : list SessionEvent) (w w' : World) :
  final (deliverAll fsz es w) = Some w' ->
  currentFrame (session w) <= currentFrame (session w')
  <= currentFrame (session w) + Z.of_nat (length (filter (fun e => isFrame e = true) es)).
Proof.
  revert w. induction es as [|e es IH]; intros w H.
  - cbn in H. injection H as <-. cbn. lia.
  - cbn [deliverAll] in H. unfold mbind, M_bind in H.
    destruct (deliver fsz e w) as [[] w1|msg w1|] eqn:He; [| |done].
    + apply IH in H.
      pose proof (deliver_counter fsz e w w1) as Hstep. rewrite He in Hstep.
      specialize (Hstep eq_refl). rewrite filter_cons.
      destruct (isFrame e); case_decide; try done; cbn [length]; lia.
    + cbn in H. injection H as <-.
      pose proof (deliver_counter fsz e w w1) as Hstep. rewrite He in Hstep.
      specialize (Hstep eq_refl). rewrite filter_cons.
      destruct (isFrame e); case_decide; try done; cbn [length]; lia.
Qed.

Lemma writeSamples_enough (k : nat) (pcm : list Z) :
  (k <= length pcm)%nat -> is_Some (writeSamples k pcm).
Proof.
  revert pcm. induction k as [|k IH]; intros pcm Hk; [by eexists|].
  destruct pcm as [|x pcm]; cbn in Hk; [lia|].
  destruct (IH pcm ltac:(lia)) as [b Hb]. cbn. rewrite Hb. by eexists.
Qed.

Lemma CJamClient_new_returns (frame nc : Z) (n : string) (a : CHostAddress)
    (dir : string) (fs : FileSystem) :
  Z.of_nat (size (nodes fs)) <= QString.INT_MAX -> unwritable fs = ∅ ->
  exists (cl : CJamClient) (fs' : FileSystem),
    CJamClient_new frame nc n a dir fs = Ok cl fs'.
Proof.
  intros Hsmall Hw.
  destruct (CJamClient_new_spec frame nc n a dir fs Hsmall) as (k & _ & _ & ->).
  unfold FS.writable. rewrite Hw, bool_decide_eq_true_2 by set_solver.
  by eexists _, _.
Qed.

Lemma put_small (path : string) (nd : Node) (fs : FileSystem) :
  roomy fs ->
  Z.of_nat (size (nodes (FS.put path nd fs))) <= QString.INT_MAX
  /\ unwritable (FS.put path nd fs) = ∅.
Proof.
  intros [Hs Hw]. split; [|done]. cbn.
  destruct (nodes fs !! path) as [x|] eqn:Hx.
  - rewrite <- (insert_delete_id (nodes fs) path x Hx) at 1.
    rewrite insert_insert_eq, map_size_insert_None by apply lookup_delete_eq.
    rewrite <- (insert_delete_id (nodes fs) path x Hx) in Hs.
    rewrite map_size_insert_None in Hs by apply lookup_delete_eq. lia.
  - rewrite map_size_insert_None by done. lia.
Qed.

(** A frame for an empty slot that is not suppressed opens a recording at
    the current frame counter and feeds it. *)
Lemma Frame_opens_recording (w : World) (c : Z) (n : string) (a : CHostAddress)
    (nc : Z) (d : list Z) (fsz : Z) :
  c <> chIdDisconnected (session w) ->
  slotAt (vecptrJamClients (session w)) c = Some None ->
  Z.of_nat (size (nodes (disk w))) <= QString.INT_MAX ->
  unwritable (disk w) = ∅ ->
  (Z.to_nat ((nc mod 65536) * fsz) <= length d)%nat ->
  exists (w' : World) (cl : CJamClient),
    Frame c n a nc d fsz w = Ok tt w' /\
    slotAt (vecptrJamClients (session w')) c = Some (Some cl) /\
    startFrame cl = currentFrame (session w) /\
    frameCount cl = 1 /\
    numChannels cl = nc mod 65536 /\
    name cl = n /\ address cl = a /\
    nodes (disk w) !! filename cl = None /\
    jamClientConnections (session w') = jamClientConnections (session w).
Proof.
  intros Hm Hs Hsmall Hwr Hd.
  destruct (CJamClient_new_returns (currentFrame (session w)) nc n a
              (sessionDir (session w)) (disk w) Hsmall Hwr) as (cl & fs1 & Hnew).
  pose proof (CJamClient_new_Ok _ _ _ _ _ _ _ _ Hnew)
    as (Hsf & Hnc & Hn & Ha & Hfc & Hfresh & _).
  destruct (writeSamples_enough _ d Hd) as [bytes Hbytes].
  rewrite <- Hnc in Hbytes.
  eexists _, (fed n cl). split; [by eapply Frame_opens|].
  cbn [session]. rewrite stepFrame_slots. cbn [vecptrJamClients setClient].
  split.
  { eapply slotAt_insert_same, slotAt_insert_same, Hs. }
  cbn [fed startFrame frameCount numChannels name address filename].
  rewrite Hfc. repeat split; try done.
  unfold stepFrame. by case_match.
Qed.

(** C3: after DisconnectClient(c) on an active recording, one frame for c
    is dropped: the finalized connections, every slot, the frame counter
    and the disk stay as the disconnect left them, and the marker is
    cleared.  A second frame for c then opens a new recording in slot c, in
    a file that did not exist, starting at the current frame counter. *)
Theorem disconnect_then_stale_frame (w : World) (c : Z) (r : CJamClient) :
  slotAt (vecptrJamClients (session w)) c = Some (Some r) ->
  roomy (disk w) ->
  exists w1 : World,
    DisconnectClient c w = Ok tt w1 /\
    jamClientConnections (session w1) = jamClientConnections (session w) ++ [connectionOf r] /\
    slotAt (vecptrJamClients (session w1)) c = Some None /\
    forall (n1 : string) (a1 : CHostAddress) (nc1 : Z) (d1 : list Z) (fsz1 : Z),
    exists w2 : World,
      Frame c n1 a1 nc1 d1 fsz1 w1 = Ok tt w2 /\
      jamClientConnections (session w2) = jamClientConnections (session w1) /\
      vecptrJamClients (session w2) = vecptrJamClients (session w1) /\
      currentFrame (session w2) = currentFrame (session w1) /\
      disk w2 = disk w1 /\
      chIdDisconnected (session w2) = -1 /\
      forall (n2 : string) (a2 : CHostAddress) (nc2 : Z) (d2 : list Z) (fsz2 : Z),
        (Z.to_nat ((nc2 mod 65536) * fsz2) <= length d2)%nat ->
        exists (w3 : World) (cl : CJamClient),
          Frame c n2 a2 nc2 d2 fsz2 w2 = Ok tt w3 /\
          slotAt (vecptrJamClients (session w3)) c = Some (Some cl) /\
          startFrame cl = currentFrame (session w2) /\
          frameCount cl = 1 /\
          numChannels cl = nc2 mod 65536 /\
          name cl = n2 /\ address cl = a2 /\
          nodes (disk w2) !! filename cl = None /\
          jamClientConnections (session w3) = jamClientConnections (session w1).
Proof.
  intros Hs Hroom.
  exists (afterDisconnect c r w). split; [by apply DisconnectClient_active|].
  split; [done|].
  pose proof (slotAt_insert_same _ _ _ None Hs) as Hs1. split; [done|].
  intros n1 a1 nc1 d1 fsz1. exists (afterDrop (afterDisconnect c r w)).
  split; [by apply Frame_dropped|]. do 5 (split; [done|]).
  intros n2 a2 nc2 d2 fsz2 Hd.
  destruct (put_small (filename r) (File (finalise (FS.content (filename r) (disk w))))
              (disk w) Hroom) as [Hsmall Hwr].
  apply slotAt_Some in Hs as [Hc _].
  destruct (Frame_opens_recording (afterDrop (afterDisconnect c r w)) c n2 a2 nc2 d2 fsz2)
    as (w3 & cl & HF & Hslot & Hrest); try done.
  { cbn. lia. }
  by exists w3, cl.
Qed.


(** C6: the frame counter of a session never decreases over a sequence of
    frames and disconnects, whether the sequence runs to its end or stops
    at a throw, and grows by at most one per frame; one frame takes it up
    by exactly one when it was processed to a recording whose start frame
    plus frame count exceeds the counter, and leaves it alone otherwise; a
    disconnect leaves it alone. *)
Theorem frame_counter_monotone :
  (forall (fsz : Z) (es : list SessionEvent) (w w' : World),
     final (deliverAll fsz es w) = Some w' ->
     currentFrame (session w) <= currentFrame (session w')
     <= currentFrame (session w)
        + Z.of_nat (length (filter (fun e => isFrame e = true) es)))
  /\ (forall (c : Z) (n : string) (a : CHostAddress) (nc : Z) (d : list Z) (fsz : Z)
        (w w' : World),
       final (Frame c n a nc d fsz w) = Some w' ->
       currentFrame (session w) <= currentFrame (session w')
       <= currentFrame (session w) + 1)
  /\ (forall (c : Z) (n : string) (a : CHostAddress) (nc : Z) (d : list Z) (fsz : Z)
        (w w' : World),
       Frame c n a nc d fsz w = Ok tt w' ->
       (currentFrame (session w') = currentFrame (session w) + 1
        <-> c <> chIdDisconnected (session w) /\
            exists r : CJamClient,
              slotAt (vecptrJamClients (session w')) c = Some (Some r) /\
              startFrame r + frameCount r > currentFrame (session w)))
  /\ (forall (c : Z) (w w' : World),
       final (DisconnectClient c w) = Some w' ->
       currentFrame (session w') = currentFrame (session w)).
Proof.
  split; [exact deliverAll_counter|].
  split; [intros; by eapply Frame_counter_step|].
  split; [|intros; by eapply DisconnectClient_counter].
  intros c n a nc d fsz w w' HF.
  apply Frame_Ok_inv in HF as [[Heq ->]|[(Hne & Hnull & Hcf)|(Hne & r & s0 & Hcf & Hs & Hw')]].
  - cbn. split; [lia|]. by intros [? _].
  - rewrite Hcf. split; [lia|]. intros (_ & r & Hr & _). congruence.
  - rewrite Hw', stepFrame_slots, <- Hcf. rewrite stepFrame_exact.
    split.
    + intros Hgt. split; [done|]. by exists r.
    + intros (_ & r' & Hr' & Hgt). congruence.
Qed.

(** C4, as the code has it: a frame that takes an active two-channel
    recording to channel count 0 finalizes the recording, leaves the slot
    empty and the frame counter alone, and sets the marker to c.  The next
    frame for c is dropped, whatever it carries; a frame for c with channel
    count 2 after that one opens a new recording whose start frame is the
    frame counter of that moment. *)
Theorem channel_count_two_to_zero (w : World) (c : Z) (r0 : CJamClient)
    (n : string) (a : CHostAddress) (d : list Z) (fsz : Z) :
  c <> chIdDisconnected (session w) ->
  slotAt (vecptrJamClients (session w)) c = Some (Some r0) ->
  numChannels r0 = 2 ->
  roomy (disk w) ->
  exists w1 : World,
    Frame c n a 0 d fsz w = Ok tt w1 /\
    jamClientConnections (session w1) = jamClientConnections (session w) ++ [connectionOf r0] /\
    slotAt (vecptrJamClients (session w1)) c = Some None /\
    currentFrame (session w1) = currentFrame (session w) /\
    chIdDisconnected (session w1) = c /\
    forall (n1 : string) (a1 : CHostAddress) (nc1 : Z) (d1 : list Z) (fsz1 : Z),
    exists w2 : World,
      Frame c n1 a1 nc1 d1 fsz1 w1 = Ok tt w2 /\
      vecptrJamClients (session w2) = vecptrJamClients (session w1) /\
      jamClientConnections (session w2) = jamClientConnections (session w1) /\
      currentFrame (session w2) = currentFrame (session w1) /\
      disk w2 = disk w1 /\
      forall (n2 : string) (a2 : CHostAddress) (d2 : list Z) (fsz2 : Z),
        (Z.to_nat (2 * fsz2) <= length d2)%nat ->
        exists (w3 : World) (cl : CJamClient),
          Frame c n2 a2 2 d2 fsz2 w2 = Ok tt w3 /\
          slotAt (vecptrJamClients (session w3)) c = Some (Some cl) /\
          startFrame cl = currentFrame (session w2) /\
          numChannels cl = 2 /\
          frameCount cl = 1.
Proof.
  intros Hm Hs Hnc Hroom.
  assert (identityChanged 0 a r0 = true) as Hid.
  { unfold identityChanged. rewrite Hnc. done. }
  eexists. split; [by eapply Frame_to_zero|].
  cbn [session disk afterDisconnect setClient setDisconnected appendConnection
       jamClientConnections vecptrJamClients currentFrame chIdDisconnected].
  split; [done|].
  pose proof (slotAt_insert_same _ _ _ None Hs) as Hs1.
  pose proof (slotAt_insert_same _ _ _ None Hs1) as Hs2.
  do 3 (split; [done|]).
  intros n1 a1 nc1 d1 fsz1. eexists. split; [by apply Frame_dropped|].
  do 4 (split; [done|]).
  intros n2 a2 d2 fsz2 Hd.
  destruct (put_small (filename r0) (File (finalise (FS.content (filename r0) (disk w))))
              (disk w) Hroom) as [Hsmall Hwr].
  apply slotAt_Some in Hs as [Hc _].
  match goal with
  | |- exists w3 cl, Frame c n2 a2 2 d2 fsz2 ?w2 = _ /\ _ =>
      destruct (Frame_opens_recording w2 c n2 a2 2 d2 fsz2)
        as (w3 & cl & HF & Hslot & Hsf & Hfc & Hn2 & _); try done
  end.
  { cbn. lia. }
  by exists w3, cl.
Qed.

Lemma candidate_0 (fileName : string) : candidate fileName 0 = fileName +:+ ".wav".
Proof. reflexivity. Qed.

Lemma candidate_S (fileName : string) (k : nat) :
  candidate fileName (S k)
  = fileName +:+ "_" +:+ QString.number (Z.of_nat (S k)) +:+ ".wav".
Proof. reflexivity. Qed.

(** C8: when the file name-startFrame-channelCount.wav is already in the
    session directory, the constructor tries the suffixes _1, _2, ... in
    order and settles on the first name that is not there.  With _1 free
    that is the _1 name.  It then returns a recording on that new file, and
    every node that was on the disk is as it was (or it throws, when the
    file cannot be opened, and the disk is as it was). *)
Theorem unique_recording_file_name (frame nc : Z) (n : string) (a : CHostAddress)
    (dir : string) (fs : FileSystem) :
  FS.dirExists dir (recordingBaseName frame nc n a +:+ ".wav") fs = true ->
  Z.of_nat (size (nodes fs)) <= QString.INT_MAX ->
  exists k : nat,
    let fileName :=
      recordingBaseName frame nc n a +:+ "_" +:+ QString.number (Z.of_nat k) +:+ ".wav" in
    let path := FS.absoluteFilePath dir fileName in
    (1 <= k)%nat /\
    (forall i : nat, (1 <= i < k)%nat ->
       FS.dirExists dir
         (recordingBaseName frame nc n a +:+ "_" +:+ QString.number (Z.of_nat i) +:+ ".wav")
         fs = true) /\
    FS.dirExists dir fileName fs = false /\
    (FS.dirExists dir (recordingBaseName frame nc n a +:+ "_1.wav") fs = false -> k = 1%nat) /\
    (FS.writable path fs = true ->
       exists (cl : CJamClient) (fs' : FileSystem),
         CJamClient_new frame nc n a dir fs = Ok cl fs' /\
         filename cl = path /\
         nodes fs' !! path = Some (File (waveStreamHeaders (nc mod 65536))) /\
         forall p : string, p <> path -> nodes fs' !! p = nodes fs !! p) /\
    (FS.writable path fs = false ->
       exists msg : string, CJamClient_new frame nc n a dir fs = Throw msg fs).
Proof.
  intros Hbase Hsmall.
  destruct (CJamClient_new_spec frame nc n a dir fs Hsmall) as (k & Hbefore & Hfree & Hnew).
  cbn zeta in Hfree, Hnew.
  destruct k as [|k]; [rewrite candidate_0 in Hfree; congruence|].
  exists (S k). cbn zeta. rewrite candidate_S in Hfree, Hnew.
  split; [lia|]. split.
  { intros [|i] Hi; [lia|]. rewrite <- candidate_S. apply Hbefore. lia. }
  split; [done|]. split.
  { intros H1. destruct k as [|k]; [done|].
    specialize (Hbefore 1%nat ltac:(lia)). rewrite candidate_S in Hbefore.
    change (recordingBaseName frame nc n a +:+ "_" +:+ QString.number (Z.of_nat 1) +:+ ".wav")
      with (recordingBaseName frame nc n a +:+ "_1.wav") in Hbefore.
    congruence. }
  split.
  - intros Hw. rewrite Hw in Hnew. eexists _, _. split; [exact Hnew|].
    split; [done|]. apply dirExists_false in Hfree.
    unfold FS.append, FS.put, FS.content. cbn [nodes]. rewrite Hfree. split.
    + by rewrite lookup_insert_eq.
    + intros p Hp. by rewrite lookup_insert_ne.
  - intros Hw. rewrite Hw in Hnew. by eexists.
Qed.

(** ** Facts about the exporters *)

Lemma exists_put (path path' : string) (nd : Node) (fs : FileSystem) :
  FS.exists_ path fs = true -> FS.exists_ path (FS.put path' nd fs) = true.
Proof.
  unfold FS.exists_. rewrite !bool_decide_eq_true. cbn. intros H.
  destruct (decide (path' = path)) as [->|Hne].
  - rewrite lookup_insert_eq. by eexists.
  - by rewrite lookup_insert_ne.
Qed.

Lemma project_paths_differ (dir base : string) :
  FS.absoluteFilePath dir (base +:+ ".rpp") <> FS.absoluteFilePath dir (base +:+ ".lof").
Proof.
  unfold FS.absoluteFilePath. intros H. do 3 apply String.app_inj in H. discriminate.
Qed.

(** C9: an exporter that finds its target on the disk logs a warning and
    leaves the disk as it is; the two exporters run one after the other as
    in [OnEnd], so with one target there the other file is still written
    (when it is not there itself and can be opened), and the existing
    target keeps its bytes. *)
Theorem existing_export_is_skipped (m : Machine) (s : CJamSession) :
  currentSession (recorder m) = Some s ->
  let rpp := FS.absoluteFilePath (sessionDir s) (CJamSession_Name s +:+ ".rpp") in
  let lof := FS.absoluteFilePath (sessionDir s) (CJamSession_Name s +:+ ".lof") in
  let rppWarning :=
    qWarning ["CJamRecorder::ReaperProjectFromCurrentSession():"; sessionDir s;
              "exists and will not be overwritten."] in
  let lofWarning :=
    qWarning ["CJamRecorder::AudacityLofFromCurrentSession():"; sessionDir s;
              "exists and will not be overwritten."] in
  let frameSize := iServerFrameSizeSamples (recorder m) in
  (FS.exists_ rpp (mdisk m) = true ->
     ReaperProjectFromCurrentSession m
     = Ok tt {| recorder := recorder m; mdisk := mdisk m;
                output := output m ++ [rppWarning] |}) /\
  (FS.exists_ lof (mdisk m) = true ->
     AudacityLofFromCurrentSession m
     = Ok tt {| recorder := recorder m; mdisk := mdisk m;
                output := output m ++ [lofWarning] |}) /\
  (FS.exists_ rpp (mdisk m) = true ->
   FS.exists_ lof (mdisk m) = false -> FS.writable lof (mdisk m) = true ->
     (ReaperProjectFromCurrentSession;; AudacityLofFromCurrentSession) m
     = Ok tt {| recorder := recorder m;
                mdisk := FS.put lof (File (lofText frameSize (Tracks s))) (mdisk m);
                output := output m ++ [rppWarning] ++ [qDebug ["Session LOF:"; lof]] |}
     /\ nodes (FS.put lof (File (lofText frameSize (Tracks s))) (mdisk m)) !! rpp
        = nodes (mdisk m) !! rpp) /\
  (FS.exists_ lof (mdisk m) = true ->
   FS.exists_ rpp (mdisk m) = false -> FS.writable rpp (mdisk m) = true ->
     let text := CReaperProject_toString (Tracks s) frameSize +:+ QString.endl in
     (ReaperProjectFromCurrentSession;; AudacityLofFromCurrentSession) m
     = Ok tt {| recorder := recorder m;
                mdisk := FS.put rpp (File text) (mdisk m);
                output := output m ++ [qDebug ["Session RPP:"; rpp]] ++ [lofWarning] |}
     /\ nodes (FS.put rpp (File text) (mdisk m)) !! lof = nodes (mdisk m) !! lof).
Proof.
  intros Hs. cbn zeta.
  split; [|split; [|split]].
  - intros Hr. unfold ReaperProjectFromCurrentSession, say.
    unfold mbind, M_bind, get, modify. rewrite Hs, Hr. reflexivity.
  - intros Hl. unfold AudacityLofFromCurrentSession, say.
    unfold mbind, M_bind, get, modify. rewrite Hs, Hl. reflexivity.
  - intros Hr Hl Hw. split.
    + unfold ReaperProjectFromCurrentSession, AudacityLofFromCurrentSession, say, writeFile.
      unfold mbind, M_bind, get, modify. rewrite Hs, Hr. cbn [recorder mdisk output].
      rewrite Hs, Hl, Hw. cbn [recorder mdisk output]. by rewrite <- app_assoc.
    + cbn. rewrite lookup_insert_ne; [done|]. intros H. symmetry in H.
      by apply project_paths_differ in H.
  - intros Hl Hr Hw. split.
    + unfold ReaperProjectFromCurrentSession, AudacityLofFromCurrentSession, say, writeFile.
      unfold mbind, M_bind, get, modify. rewrite Hs, Hr, Hw. cbn [recorder mdisk output].
      rewrite Hs, (exists_put _ _ _ _ Hl). cbn [recorder mdisk output].
      by rewrite <- app_assoc.
    + cbn. rewrite lookup_insert_ne; [done|]. apply project_paths_differ.
Qed.

(** C10: SessionDirToReaper throws, with the disk and the log as they
    were, when the directory is not there, is no directory, or already
    holds the project file. *)
Theorem SessionDirToReaper_refuses (path : string) (frameSize : Z)
    (fs : FileSystem) (out : list Output) :
  let rpp := FS.absoluteFilePath path
               (QString.beforeFirstDot (QString.lastComponent path) +:+ ".rpp") in
  FS.exists_ path fs = false \/ FS.isDir path fs = false \/ FS.exists_ rpp fs = true ->
  exists msg : string, SessionDirToReaper path frameSize (fs, out) = Throw msg (fs, out).
Proof.
  cbn zeta. intros H. unfold SessionDirToReaper.
  destruct (FS.exists_ path fs) eqn:He; [|by eexists].
  destruct (FS.isDir path fs) eqn:Hd; [|by eexists].
  destruct H as [H|[H|H]]; [done|done|].
  cbn [negb orb]. rewrite H. by eexists.
Qed.

(** ** Further facts *)

(** A frame whose channel id is the marker does nothing but clear the
    marker: slots, connections, frame counter and disk are untouched,
    whatever the frame carries. *)
Theorem stale_frame_only_clears_marker (w : World) (n : string) (a : CHostAddress)
    (nc : Z) (d : list Z) (fsz : Z) :
  Frame (chIdDisconnected (session w)) n a nc d fsz w
  = Ok tt {| session := {| sessionDir := sessionDir (session w);
                           currentFrame := currentFrame (session w);
                           chIdDisconnected := -1;
                           vecptrJamClients := vecptrJamClients (session w);
                           jamClientConnections := jamClientConnections (session w) |};
             disk := disk w |}.
Proof. by rewrite Frame_dropped. Qed.

(** The search for a free file name never runs out of the steps the
    constructor's model gives it: the loop of the constructor ends. *)
Theorem recording_name_search_ends (fs : FileSystem) (dir fileName : string) :
  uniqueAffix (S (size (nodes fs))) (fun n => FS.dirExists dir n fs) fileName EmptyString
  <> Exhausted.
Proof. apply uniqueAffix_enough_fuel. Qed.

Lemma int16_le_length (x : Z) : String.length (int16_le x) = 2%nat.
Proof. reflexivity. Qed.


Lemma End_from_seq (rest front : list (option CJamClient)) (w : World) :
  vecptrJamClients (session w) = front ++ rest ->
  exists w' : World,
    End_from (seq (length front) (length rest)) w = Ok tt w' /\
    vecptrJamClients (session w') = front ++ replicate (length rest) None /\
    jamClientConnections (session w')
    = jamClientConnections (session w) ++ (connectionOf <$> omap id rest) /\
    currentFrame (session w') = currentFrame (session w) /\
    sessionDir (session w') = sessionDir (session w).
Proof.
  revert front w. induction rest as [|p rest IH]; intros front w Hv.
  - exists w. cbn. rewrite !app_nil_r. rewrite app_nil_r in Hv. by repeat split.
  - cbn [length seq End_from].
    assert (slotAt (vecptrJamClients (session w)) (Z.of_nat (length front)) = Some p) as Hs.
    { unfold slotAt. destruct (Z.ltb_spec (Z.of_nat (length front)) 0); [lia|].
      rewrite Nat2Z.id, Hv. by apply list_lookup_middle. }
    unfold mbind at 1 2, M_bind at 1 2. unfold clientAt at 1. rewrite Hs.
    destruct p as [c|].
    + unfold mbind at 1, M_bind at 1.
      rewrite (DisconnectClient_active _ _ _ Hs).
      unfold onSession, modify.
      set (w1 := {| session := _; disk := _ |}).
      destruct (IH (front ++ [None]) w1) as (w' & HE & Hslots & Hconns & Hcf & Hdir).
      { unfold w1. cbn. rewrite Nat2Z.id, Hv.
        rewrite list_insert_insert_eq.
        rewrite insert_app_r_alt by lia. rewrite Nat.sub_diag. cbn.
        by rewrite <- app_assoc. }
      rewrite length_app in HE. cbn in HE. rewrite Nat.add_1_r in HE.
      exists w'. split; [exact HE|]. split.
      { rewrite Hslots, <- app_assoc. done. }
      split.
      { rewrite Hconns. unfold w1. cbn. by rewrite <- app_assoc. }
      split; [by rewrite Hcf|by rewrite Hdir].
    + unfold mret, M_ret.
      destruct (IH (front ++ [None]) w) as (w' & HE & Hslots & Hconns & Hcf & Hdir).
      { rewrite Hv. by rewrite <- app_assoc. }
      rewrite length_app in HE. cbn in HE. rewrite Nat.add_1_r in HE.
      exists w'. split; [exact HE|]. split.
      { rewrite Hslots, <- app_assoc. done. }
      by repeat split.
Qed.

(** [End] always returns: it leaves every slot empty, appends one
    connection for each recording that was active, in slot order, and
    leaves the frame counter alone. *)
Theorem End_finalizes_every_slot (w : World) :
  exists w' : World,
    End w = Ok tt w' /\
    vecptrJamClients (session w')
    = replicate (length (vecptrJamClients (session w))) None /\
    jamClientConnections (session w')
    = jamClientConnections (session w)
      ++ (connectionOf <$> omap id (vecptrJamClients (session w))) /\
    currentFrame (session w') = currentFrame (session w).
Proof.
  destruct (End_from_seq (vecptrJamClients (session w)) [] w eq_refl)
    as (w' & HE & Hslots & Hconns & Hcf & _).
  exists w'. unfold End, mbind, M_bind, get. by repeat split.
Qed.

Lemma foldl_tracks (conns : list CJamClientConnection)
    (acc : gmap string (list STrackItem)) (k : string) :
  foldl (fun tracks conn =>
           let track := trackItemOf conn in
           appendTrack (Name conn) track (ensureTrack (Name conn) tracks)) acc conns !! k
  = match filter (fun conn => Name conn = k) conns with
    | [] => acc !! k
    | l => Some (default [] (acc !! k) ++ (trackItemOf <$> l))
    end.
Proof.
  revert acc. induction conns as [|conn conns IH]; intros acc; [done|].
  cbn [foldl]. rewrite IH. clear IH. rewrite filter_cons.
  destruct (decide (Name conn = k)) as [Hk|Hk].
  - assert (appendTrack (Name conn) (trackItemOf conn) (ensureTrack (Name conn) acc) !! k
            = Some (default [] (acc !! k) ++ [trackItemOf conn])) as ->.
    { unfold appendTrack, ensureTrack. rewrite Hk, lookup_insert_eq. f_equal.
      case_bool_decide as Hin.
      - done.
      - rewrite lookup_insert_eq. apply eq_None_not_Some in Hin. by rewrite Hin. }
    destruct (filter _ conns) as [|c0 l]; cbn; [done|].
    by rewrite <- app_assoc.
  - assert (appendTrack (Name conn) (trackItemOf conn) (ensureTrack (Name conn) acc) !! k
            = acc !! k) as ->.
    { unfold appendTrack, ensureTrack. rewrite lookup_insert_ne by done.
      case_bool_decide; [done|]. by rewrite lookup_insert_ne. }
    done.
Qed.

(** [Tracks] groups the finalized connections by the name recorded when
    they were finalized: under each name, the segments of that name in the
    order they were finalized, and no key for a name without segments. *)
Theorem Tracks_groups_by_name (s : CJamSession) (k : string) :
  Tracks s !! k
  = match filter (fun conn => Name conn = k) (jamClientConnections s) with
    | [] => None
    | l => Some (trackItemOf <$> l)
    end.
Proof.
  unfold Tracks. rewrite foldl_tracks, lookup_empty. done.
Qed.

(** A disconnect that reaches the recorder when it holds no session is
    logged twice and changes nothing else. *)
Theorem OnDisconnected_without_session (base : string) (frameSize : Z)
    (fs : FileSystem) (out : list Output) (iChID : Z) :
  OnDisconnected iChID
    {| recorder := {| recordBaseDir := base; iServerFrameSizeSamples := frameSize;
                      isRecording := false; currentSession := None |};
       mdisk := fs; output := out |}
  = Ok tt
      {| recorder := {| recordBaseDir := base; iServerFrameSizeSamples := frameSize;
                        isRecording := false; currentSession := None |};
         mdisk := fs;
         output := out ++ [qWarning ["CJamRecorder::OnDisconnected: channel";
                                     QString.number iChID;
                                     "disconnected but not recording"];
                           qWarning ["CJamRecorder::OnDisconnected: channel";
                                     QString.number iChID;
                                     "disconnected but no currentSession"]] |}.
Proof.
  unfold OnDisconnected, say, mbind, M_bind, get, modify. cbn.
  by rewrite <- app_assoc.
Qed.

(** [OnEnd] and [OnTriggerSession] do nothing when the recorder is not
    recording: a restart request never starts a session from idle. *)
Theorem idle_recorder_stays_idle (base stamp : string) (frameSize : Z)
    (cur : option CJamSession) (fs : FileSystem) (out : list Output) :
  let m := {| recorder := {| recordBaseDir := base; iServerFrameSizeSamples := frameSize;
                             isRecording := false; currentSession := cur |};
              mdisk := fs; output := out |} in
  OnEnd m = Ok tt m /\ OnTriggerSession stamp m = Ok tt m.
Proof. split; reflexivity. Qed.

(** ** Invariants of a session *)

(** Every way [Frame] can leave a state behind, by returning or by
    throwing. *)
Lemma Frame_final_inv (w w' : World) (c : Z) (n : string) (a : CHostAddress)
    (nc : Z) (d : list Z) (fsz : Z) :
  final (Frame c n a nc d fsz w) = Some w' ->
  (c = chIdDisconnected (session w) /\ w' = afterDrop w)
  \/ (c <> chIdDisconnected (session w) /\
      slotAt (vecptrJamClients (session w)) c = Some None /\
      ((exists msg : string,
          CJamClient_new (currentFrame (session w)) nc n a (sessionDir (session w)) (disk w)
          = Throw msg (disk w') /\ session w' = session w)
       \/ (exists (cl : CJamClient) (fs1 : FileSystem) (bytes : string),
             CJamClient_new (currentFrame (session w)) nc n a (sessionDir (session w)) (disk w)
             = Ok cl fs1 /\
             writeSamples (Z.to_nat (numChannels cl * fsz)) d = Some bytes /\
             w' = {| session := stepFrame (fed n cl)
                                  (setClient c (Some (fed n cl))
                                     (setClient c (Some cl) (session w)));
                     disk := FS.append (filename cl) bytes fs1 |})))
  \/ (c <> chIdDisconnected (session w) /\
      exists r0 : CJamClient,
        slotAt (vecptrJamClients (session w)) c = Some (Some r0) /\
        ((identityChanged nc a r0 = false /\
          exists bytes : string,
            writeSamples (Z.to_nat (numChannels r0 * fsz)) d = Some bytes /\
            w' = {| session := stepFrame (fed n r0)
                                 (setClient c (Some (fed n r0)) (session w));
                    disk := FS.append (filename r0) bytes (disk w) |})
         \/ (identityChanged nc a r0 = true /\ nc = 0 /\
             w' = {| session := setClient c None (session (afterDisconnect c r0 w));
                     disk := disk (afterDisconnect c r0 w) |})
         \/ (identityChanged nc a r0 = true /\ nc <> 0 /\
             exists msg : string,
               CJamClient_new (currentFrame (session w)) nc n a (sessionDir (session w))
                 (disk (afterDisconnect c r0 w)) = Throw msg (disk w') /\
               session w' = session (afterDisconnect c r0 w))
         \/ (identityChanged nc a r0 = true /\ nc <> 0 /\
             exists (cl : CJamClient) (fs1 : FileSystem) (bytes : string),
               CJamClient_new (currentFrame (session w)) nc n a (sessionDir (session w))
                 (disk (afterDisconnect c r0 w)) = Ok cl fs1 /\
               writeSamples (Z.to_nat (numChannels cl * fsz)) d = Some bytes /\
               w' = {| session := stepFrame (fed n cl)
                                    (setClient c (Some (fed n cl))
                                       (setClient c (Some cl)
                                          (session (afterDisconnect c r0 w))));
                       disk := FS.append (filename cl) bytes fs1 |}))).
Proof.
  intros H.
  destruct (decide (c = chIdDisconnected (session w))) as [Heq|Hne].
  { left. split; [done|]. rewrite (Frame_dropped _ _ _ _ _ _ _ Heq) in H.
    by injection H as <-. }
  right.
  destruct (slotAt (vecptrJamClients (session w)) c) as [[r0|]|] eqn:Hs.
  - right. split; [done|]. exists r0. split; [done|].
    destruct (identityChanged nc a r0) eqn:Hid.
    + right. destruct (decide (nc = 0)) as [->|Hnc].
      * left. rewrite (Frame_to_zero _ _ _ _ _ _ _ Hne Hs Hid) in H.
        injection H as <-. done.
      * right.
        destruct (CJamClient_new (currentFrame (session w)) nc n a (sessionDir (session w))
                    (disk (afterDisconnect c r0 w))) as [cl fs1|msg fs1|] eqn:Hnew.
        -- right. split; [done|]. split; [done|].
           destruct (writeSamples (Z.to_nat (numChannels cl * fsz)) d) as [bytes|] eqn:Hw.
           ++ rewrite (Frame_reopens _ _ _ _ _ _ _ _ _ _ _ Hne Hs Hid Hnc Hnew Hw) in H.
              injection H as <-. by exists cl, fs1, bytes.
           ++ exfalso. revert H. unfold Frame. run_monad.
              apply Z.eqb_neq in Hne. apply Z.eqb_neq in Hnc. rewrite Hne, Hs, Hid.
              rewrite (DisconnectClient_active _ _ _ Hs), Hnc.
              cbn [session disk currentFrame afterDisconnect setDisconnected setClient
                   appendConnection] in *.
              rewrite Hnew.
              cbn [session disk vecptrJamClients setClient setDisconnected appendConnection].
              pose proof (slotAt_insert_same _ _ _ None Hs) as Hs1.
              rewrite (slotAt_insert_same _ _ _ (Some cl) Hs1).
              unfold CJamClient_Frame. by rewrite Hw.
        -- left. split; [done|]. split; [done|]. exists msg.
           revert H. unfold Frame. run_monad.
           apply Z.eqb_neq in Hne. apply Z.eqb_neq in Hnc. rewrite Hne, Hs, Hid.
           rewrite (DisconnectClient_active _ _ _ Hs), Hnc.
           cbn [session disk currentFrame afterDisconnect setDisconnected setClient
                appendConnection] in *.
           rewrite Hnew. cbn. intros [= <-]. done.
        -- exfalso. revert H. unfold Frame. run_monad.
           apply Z.eqb_neq in Hne. apply Z.eqb_neq in Hnc. rewrite Hne, Hs, Hid.
           rewrite (DisconnectClient_active _ _ _ Hs), Hnc.
           cbn [session disk currentFrame afterDisconnect setDisconnected setClient
                appendConnection] in *.
           by rewrite Hnew.
    + left. split; [done|].
      destruct (writeSamples (Z.to_nat (numChannels r0 * fsz)) d) as [bytes|] eqn:Hw.
      * rewrite (Frame_feeds _ _ _ _ _ _ _ _ _ Hne Hs Hid Hw) in H.
        injection H as <-. by exists bytes.
      * exfalso. revert H. unfold Frame. run_monad.
        apply Z.eqb_neq in Hne. rewrite Hne, Hs, Hid. cbn. rewrite Hs.
        unfold CJamClient_Frame. by rewrite Hw.
  - left. split; [done|]. split; [done|].
    destruct (CJamClient_new (currentFrame (session w)) nc n a (sessionDir (session w))
                (disk w)) as [cl fs1|msg fs1|] eqn:Hnew.
    + right.
      destruct (writeSamples (Z.to_nat (numChannels cl * fsz)) d) as [bytes|] eqn:Hw.
      * rewrite (Frame_opens _ _ _ _ _ _ _ _ _ _ Hne Hs Hnew Hw) in H.
        injection H as <-. by exists cl, fs1, bytes.
      * exfalso. revert H. unfold Frame. run_monad.
        apply Z.eqb_neq in Hne. rewrite Hne, Hs, Hnew.
        cbn [session disk vecptrJamClients setClient].
        rewrite (slotAt_insert_same _ _ _ _ Hs).
        unfold CJamClient_Frame. by rewrite Hw.
    + left. exists msg. revert H. unfold Frame. run_monad.
      apply Z.eqb_neq in Hne. rewrite Hne, Hs, Hnew. cbn. intros [= <-]. done.
    + exfalso. revert H. unfold Frame. run_monad.
      apply Z.eqb_neq in Hne. by rewrite Hne, Hs, Hnew.
  - exfalso. revert H. unfold Frame. run_monad.
    apply Z.eqb_neq in Hne. by rewrite Hne, Hs.
Qed.

Lemma DisconnectClient_final_inv (w w' : World) (c : Z) :
  final (DisconnectClient c w) = Some w' ->
  exists r : CJamClient,
    slotAt (vecptrJamClients (session w)) c = Some (Some r) /\ w' = afterDisconnect c r w.
Proof.
  intros H. destruct (slotAt (vecptrJamClients (session w)) c) as [[r|]|] eqn:Hs.
  - rewrite (DisconnectClient_active _ _ _ Hs) in H. injection H as <-. by exists r.
  - by rewrite (DisconnectClient_null _ _ Hs) in H.
  - revert H. unfold DisconnectClient. run_monad. by rewrite Hs.
Qed.

Lemma CJamClient_new_Throw (frame nc : Z) (n : string) (a : CHostAddress)
    (dir msg : string) (fs fs' : FileSystem) :
  CJamClient_new frame nc n a dir fs = Throw msg fs' -> fs' = fs.
Proof.
  unfold CJamClient_new. repeat case_match; try done. by intros [= _ <-].
Qed.

Lemma slotAt_insert_inv (v : list (option CJamClient)) (c c' : Z) (p q : option CJamClient) :
  0 <= c ->
  slotAt (<[Z.to_nat c := p]> v) c' = Some q ->
  (c' = c /\ q = p) \/ (c' <> c /\ slotAt v c' = Some q).
Proof.
  intros Hc H. destruct (decide (c' = c)) as [->|Hne].
  - left. split; [done|]. apply slotAt_Some in H as [_ H].
    apply list_lookup_insert_Some in H as [(_ & -> & _)|[? _]]; done.
  - right. split; [done|]. by rewrite slotAt_insert_other in H.
Qed.

(** A property of worlds kept by every event is kept by every run. *)
Lemma deliverAll_invariant (P : World -> Prop) (fsz : Z) :
  (forall (e : SessionEvent) (w w' : World),
     P w -> final (deliver fsz e w) = Some w' -> P w') ->
  forall (es : list SessionEvent) (w w' : World),
    P w -> final (deliverAll fsz es w) = Some w' -> P w'.
Proof.
  intros Hstep es. induction es as [|e es IH]; intros w w' HP H.
  - cbn in H. by injection H as <-.
  - cbn [deliverAll] in H. unfold mbind, M_bind in H.
    destruct (deliver fsz e w) as [[] w1|msg w1|] eqn:He; [| |done].
    + apply (IH w1); [|done]. apply (Hstep e w); [done|]. by rewrite He.
    + cbn in H. injection H as <-. apply (Hstep e w); [done|]. by rewrite He.
Qed.

Lemma Frame_shape (w w' : World) (c : Z) (n : string) (a : CHostAddress)
    (nc : Z) (d : list Z) (fsz : Z) :
  final (Frame c n a nc d fsz w) = Some w' ->
  sameShape w w'.
Proof.
  intros H. unfold sameShape.
  apply Frame_final_inv in H
    as [[_ ->]|[(_ & _ & [(msg & _ & ->)|(cl & fs1 & b & _ & _ & ->)])
               |(_ & r0 & _ & [(_ & b & _ & ->)|[(_ & _ & ->)|[(_ & _ & msg & _ & ->)
                                |(_ & _ & cl & fs1 & b & _ & _ & ->)]]])]].
  all: cbn [session afterDrop afterDisconnect].
  all: try rewrite stepFrame_slots.
  all: try match goal with
       | |- context [stepFrame ?r ?s] =>
           replace (sessionDir (stepFrame r s)) with (sessionDir s)
             by (unfold stepFrame; by case_match);
           replace (jamClientConnections (stepFrame r s)) with (jamClientConnections s)
             by (unfold stepFrame; by case_match)
       end.
  all: cbn [vecptrJamClients sessionDir jamClientConnections setClient setDisconnected
            appendConnection].
  all: rewrite ?length_insert.
  all: split; [done|split; [done|]].
  all: first [done | by apply prefix_app_r].
Qed.

Lemma DisconnectClient_shape (w w' : World) (c : Z) :
  final (DisconnectClient c w) = Some w' -> sameShape w w'.
Proof.
  intros H. apply DisconnectClient_final_inv in H as (r & _ & ->).
  unfold sameShape. cbn. rewrite length_insert. split; [done|split; [done|]].
  by apply prefix_app_r.
Qed.

Lemma sameShape_trans (w1 w2 w3 : World) :
  sameShape w1 w2 -> sameShape w2 w3 -> sameShape w1 w3.
Proof.
  intros (H1 & H2 & H3) (H4 & H5 & H6). split; [congruence|split; [congruence|]].
  by etrans.
Qed.

(** Over any run of frames and disconnects, to its end or to a throw, the
    slot vector keeps its size, the session keeps its directory, and the
    finalized connections only grow at the end: none is removed or
    changed. *)
Theorem session_run_keeps_shape (fsz : Z) (es : list SessionEvent) (w w' : World) :
  final (deliverAll fsz es w) = Some w' ->
  length (vecptrJamClients (session w')) = length (vecptrJamClients (session w))
  /\ sessionDir (session w') = sessionDir (session w)
  /\ jamClientConnections (session w) `prefix_of` jamClientConnections (session w').
Proof.
  intros H.
  apply (deliverAll_invariant (fun w1 => sameShape w w1) fsz) in H; [done| |].
  - intros e w1 w2 H1 H2. apply (sameShape_trans _ w1); [done|].
    destruct e; cbn [deliver] in H2.
    + by eapply Frame_shape.
    + by eapply DisconnectClient_shape.
  - by repeat split.
Qed.

(** A frame or a disconnect for channel c leaves every other slot as it
    was. *)
Theorem event_touches_only_its_slot (fsz : Z) (e : SessionEvent) (w w' : World) (c' : Z) :
  final (deliver fsz e w) = Some w' ->
  c' <> eventChannel e ->
  slotAt (vecptrJamClients (session w')) c' = slotAt (vecptrJamClients (session w)) c'.
Proof.
  intros H Hc'. destruct e as [c n a nc d|c]; cbn [deliver eventChannel] in *.
  - apply Frame_final_inv in H
      as [[_ ->]|[(_ & Hs & [(msg & _ & ->)|(cl & fs1 & b & _ & _ & ->)])
                 |(_ & r0 & Hs & [(_ & b & _ & ->)|[(_ & _ & ->)|[(_ & _ & msg & _ & ->)
                                  |(_ & _ & cl & fs1 & b & _ & _ & ->)]]])]].
    all: try done.
    all: apply slotAt_Some in Hs as [Hc _].
    all: cbn [session afterDisconnect]; rewrite ?stepFrame_slots.
    all: cbn [vecptrJamClients setClient setDisconnected appendConnection].
    all: by rewrite ?slotAt_insert_other.
  - apply DisconnectClient_final_inv in H as (r & Hs & ->).
    apply slotAt_Some in Hs as [Hc _]. cbn. by rewrite slotAt_insert_other.
Qed.

Lemma wc_setClient (s : CJamSession) (c : Z) (p : option CJamClient) :
  withinCounter s -> 0 <= c ->
  (forall r : CJamClient,
     p = Some r -> segmentOk (currentFrame s) (startFrame r) (frameCount r)) ->
  withinCounter (setClient c p s).
Proof.
  intros (H0 & Hs & Hc) Hpos Hp. split; [done|]. split; [|done].
  intros c' r Hr. cbn in Hr.
  apply slotAt_insert_inv in Hr as [[-> <-]|[_ Hr]]; [| |done].
  - by apply Hp.
  - by apply (Hs c').
Qed.

Lemma wc_step (s : CJamSession) (c : Z) (n : string) (r : CJamClient) :
  withinCounter s -> 0 <= c ->
  segmentOk (currentFrame s) (startFrame r) (frameCount r) ->
  withinCounter (stepFrame (fed n r) (setClient c (Some (fed n r)) s)).
Proof.
  intros (H0 & Hs & Hc) Hpos (Hr1 & Hr2 & Hr3).
  unfold stepFrame. cbn [fed startFrame frameCount setClient currentFrame].
  destruct (Z.gtb_spec (startFrame r + (frameCount r + 1)) (currentFrame s)) as [Hgt|Hle].
  - split; [cbn; lia|]. split.
    + intros c' r' Hr'. cbn in Hr'.
      apply slotAt_insert_inv in Hr' as [[-> [= ->]]|[_ Hr']]; [| |done].
      * cbn. unfold segmentOk. lia.
      * destruct (Hs c' r' Hr') as (? & ? & ?). cbn. unfold segmentOk. lia.
    + intros conn Hconn. destruct (Hc conn Hconn) as (? & ? & ?).
      cbn. unfold segmentOk. lia.
  - split; [done|]. split.
    + intros c' r' Hr'. cbn in Hr'.
      apply slotAt_insert_inv in Hr' as [[-> [= ->]]|[_ Hr']]; [| |done].
      * cbn. unfold segmentOk. lia.
      * by apply (Hs c').
    + done.
Qed.

Lemma wc_afterDisconnect (w : World) (c : Z) (r : CJamClient) :
  withinCounter (session w) ->
  slotAt (vecptrJamClients (session w)) c = Some (Some r) ->
  withinCounter (session (afterDisconnect c r w)).
Proof.
  intros (H0 & Hs & Hc) Hr. pose proof (slotAt_Some _ _ _ Hr) as [Hpos _].
  split; [done|]. split.
  - intros c' r' Hr'. cbn in Hr'.
    apply slotAt_insert_inv in Hr' as [[_ [=]]|[_ Hr']]; [|done]. by apply (Hs c').
  - intros conn Hconn. cbn in Hconn.
    apply elem_of_app in Hconn as [Hconn|Hconn]; [by apply Hc|].
    apply list_elem_of_singleton in Hconn as ->. cbn. by apply (Hs c).
Qed.

Lemma withinCounter_event (fsz : Z) (e : SessionEvent) (w w' : World) :
  withinCounter (session w) ->
  final (deliver fsz e w) = Some w' ->
  withinCounter (session w').
Proof.
  intros Hwc H. destruct e as [c n a nc d|c]; cbn [deliver] in H.
  - apply Frame_final_inv in H
      as [[_ ->]|[(_ & Hs & [(msg & _ & ->)|(cl & fs1 & b & Hnew & _ & ->)])
                 |(_ & r0 & Hs & [(_ & b & _ & ->)|[(_ & _ & ->)|[(_ & _ & msg & _ & ->)
                                  |(_ & _ & cl & fs1 & b & Hnew & _ & ->)]]])]].
    + done.
    + done.
    + pose proof (slotAt_Some _ _ _ Hs) as [Hpos _].
      apply CJamClient_new_Ok in Hnew as (Hsf & _ & _ & _ & Hfc & _).
      cbn [session]. apply wc_step; [|done|].
      * apply wc_setClient; [done|done|]. intros r [= <-].
        rewrite Hsf, Hfc. destruct Hwc as (H0 & _). unfold segmentOk. lia.
      * cbn. rewrite Hsf, Hfc. destruct Hwc as (H0 & _). unfold segmentOk. lia.
    + pose proof (slotAt_Some _ _ _ Hs) as [Hpos _].
      cbn [session]. apply wc_step; [done|done|]. destruct Hwc as (_ & Hsl & _).
      by apply (Hsl c).
    + pose proof (slotAt_Some _ _ _ Hs) as [Hpos _].
      cbn [session]. apply wc_setClient; [by apply wc_afterDisconnect|done|done].
    + by apply wc_afterDisconnect.
    + pose proof (slotAt_Some _ _ _ Hs) as [Hpos _].
      apply CJamClient_new_Ok in Hnew as (Hsf & _ & _ & _ & Hfc & _).
      pose proof (wc_afterDisconnect w c r0 Hwc Hs) as Hwc'.
      cbn [session]. apply wc_step; [|done|].
      * apply wc_setClient; [done|done|]. intros r [= <-].
        rewrite Hsf, Hfc. destruct Hwc as (H0 & _). cbn. unfold segmentOk. lia.
      * rewrite Hsf, Hfc. destruct Hwc as (H0 & _). cbn. unfold segmentOk. lia.
  - apply DisconnectClient_final_inv in H as (r & Hs & ->). by apply wc_afterDisconnect.
Qed.

Lemma CJamSession_new_Ok (base stamp : string) (fs fs' : FileSystem) (s : CJamSession) :
  CJamSession_new base stamp fs = Ok s fs' ->
  s = {| sessionDir := FS.absoluteFilePath base ("Jam-" +:+ stamp);
         currentFrame := 0;
         chIdDisconnected := -1;
         vecptrJamClients := replicate MAX_NUM_CHANNELS None;
         jamClientConnections := [] |}.
Proof.
  unfold CJamSession_new. repeat case_match; try done.
  all: by intros [= <- _].
Qed.

Lemma slotAt_replicate_None (k : nat) (c : Z) (p : option CJamClient) :
  slotAt (replicate k None) c = Some p -> p = None.
Proof.
  intros H. apply slotAt_Some in H as [_ H].
  by apply lookup_replicate in H as [-> _].
Qed.

(** In every state a session reaches from its construction, each active
    recording and each finalized connection starts at a frame that is not
    negative, has a frame count that is not negative, and ends at or
    before the session's frame counter. *)
Theorem segments_within_counter (base stamp : string) (fs fs1 : FileSystem)
    (s : CJamSession) (fsz : Z) (es : list SessionEvent) (w' : World) :
  CJamSession_new base stamp fs = Ok s fs1 ->
  final (deliverAll fsz es {| session := s; disk := fs1 |}) = Some w' ->
  0 <= currentFrame (session w')
  /\ (forall (c : Z) (r : CJamClient),
        slotAt (vecptrJamClients (session w')) c = Some (Some r) ->
        0 <= startFrame r /\ 0 <= frameCount r
        /\ startFrame r + frameCount r <= currentFrame (session w'))
  /\ (forall conn : CJamClientConnection,
        conn ∈ jamClientConnections (session w') ->
        0 <= StartFrame conn /\ 0 <= Length conn
        /\ StartFrame conn + Length conn <= currentFrame (session w')).
Proof.
  intros Hnew H. apply CJamSession_new_Ok in Hnew as ->.
  apply (deliverAll_invariant (fun w => withinCounter (session w)) fsz) in H; [done| |].
  - intros e w1 w2. apply withinCounter_event.
  - split; [done|]. split.
    + intros c r Hr. by apply slotAt_replicate_None in Hr.
    + intros conn Hconn. by apply elem_of_nil in Hconn.
Qed.

(** ** The files of a session *)

Lemma keepsNodes_refl (fs : FileSystem) : keepsNodes fs fs.
Proof. by intros f. Qed.

Lemma keepsNodes_put (path : string) (nd : Node) (fs : FileSystem) :
  keepsNodes fs (FS.put path nd fs).
Proof.
  intros f Hf. cbn. destruct (decide (path = f)) as [->|Hne].
  - rewrite lookup_insert_eq. by eexists.
  - by rewrite lookup_insert_ne.
Qed.

Lemma keepsNodes_trans (fs1 fs2 fs3 : FileSystem) :
  keepsNodes fs1 fs2 -> keepsNodes fs2 fs3 -> keepsNodes fs1 fs3.
Proof. intros H1 H2 f Hf. by apply H2, H1. Qed.

Lemma present_put (path : string) (nd : Node) (fs : FileSystem) :
  is_Some (nodes (FS.put path nd fs) !! path).
Proof. cbn. rewrite lookup_insert_eq. by eexists. Qed.

Lemma stepFrame_connections (r : CJamClient) (s : CJamSession) :
  jamClientConnections (stepFrame r s) = jamClientConnections s.
Proof. unfold stepFrame. by case_match. Qed.

(** Dropping the recording of a slot, on a disk that has lost no node. *)
Lemma ft_clear (v : list (option CJamClient)) (conns : list CJamClientConnection)
    (fs fs' : FileSystem) (c : Z) :
  filesTrackedIn v conns fs -> 0 <= c -> keepsNodes fs fs' ->
  filesTrackedIn (<[Z.to_nat c := None]> v) conns fs'.
Proof.
  intros (Hnd & Hconn & Hslot & Hinj) Hc Hk. split; [done|]. split.
  { intros conn Hin. by apply Hk, Hconn. }
  split.
  - intros c1 r Hr. apply slotAt_insert_inv in Hr as [[_ [=]]|[_ Hr]]; [|done].
    destruct (Hslot c1 r Hr) as [Hp Hne]. split; [by apply Hk|done].
  - intros c1 c2 r1 r2 H1 H2.
    apply slotAt_insert_inv in H1 as [[_ [=]]|[_ H1]]; [|done].
    apply slotAt_insert_inv in H2 as [[_ [=]]|[_ H2]]; [|done].
    by apply Hinj.
Qed.

(** Putting into a slot a recording whose file is new, or is the file of
    the recording that was there. *)
Lemma ft_replace (v : list (option CJamClient)) (conns : list CJamClientConnection)
    (fs fs' : FileSystem) (c : Z) (r : CJamClient) :
  filesTrackedIn v conns fs -> 0 <= c -> keepsNodes fs fs' ->
  is_Some (nodes fs' !! filename r) ->
  (nodes fs !! filename r = None
   \/ exists r0 : CJamClient, slotAt v c = Some (Some r0) /\ filename r0 = filename r) ->
  filesTrackedIn (<[Z.to_nat c := Some r]> v) conns fs'.
Proof.
  intros (Hnd & Hconn & Hslot & Hinj) Hc Hk Hpres Hwhy. split; [done|]. split.
  { intros conn Hin. by apply Hk, Hconn. }
  split.
  - intros c1 r1 Hr. apply slotAt_insert_inv in Hr as [[-> [= ->]]|[_ Hr]]; [| |done].
    + split; [done|]. intros conn Hin Heq. destruct Hwhy as [Hfresh|(r0 & Hr0 & Hf)].
      * specialize (Hconn conn Hin). rewrite Heq, Hfresh in Hconn. by destruct Hconn.
      * destruct (Hslot c r0 Hr0) as [_ Hne]. apply (Hne conn Hin). congruence.
    + destruct (Hslot c1 r1 Hr) as [Hp Hne]. split; [by apply Hk|done].
  - assert (forall (c2 : Z) (r2 : CJamClient),
              c2 <> c -> slotAt v c2 = Some (Some r2) -> filename r2 <> filename r) as Hother.
    { intros c2 r2 Hne H2 Heq. destruct Hwhy as [Hfresh|(r0 & Hr0 & Hf)].
      - destruct (Hslot c2 r2 H2) as [Hp _]. rewrite Heq, Hfresh in Hp. by destruct Hp.
      - apply Hne. apply (Hinj c2 c r2 r0); [done|done|congruence]. }
    intros c1 c2 r1 r2 H1 H2 Heq.
    apply slotAt_insert_inv in H1 as [[-> [= ->]]|[Hne1 H1]]; [| |done];
      apply slotAt_insert_inv in H2 as [[-> [= ->]]|[Hne2 H2]]; try done.
    + exfalso. by apply (Hother c2 r2 Hne2 H2).
    + exfalso. by apply (Hother c1 r1 Hne1 H1).
    + by apply (Hinj c1 c2 r1 r2).
Qed.

Lemma ft_afterDisconnect (w : World) (c : Z) (r : CJamClient) :
  filesTracked w ->
  slotAt (vecptrJamClients (session w)) c = Some (Some r) ->
  filesTracked (afterDisconnect c r w).
Proof.
  intros (Hnd & Hconn & Hslot & Hinj) Hr. pose proof (slotAt_Some _ _ _ Hr) as [Hc _].
  unfold filesTracked. cbn [afterDisconnect session disk vecptrJamClients
    jamClientConnections setDisconnected setClient appendConnection].
  set (fs' := FS.put _ _ _).
  assert (keepsNodes (disk w) fs') as Hk by apply keepsNodes_put.
  destruct (Hslot c r Hr) as [Hpr Hnr].
  split.
  { rewrite fmap_app. apply NoDup_app. split; [done|]. split; [|apply NoDup_singleton].
    intros f Hf Hf'. cbn in Hf'. apply list_elem_of_singleton in Hf'.
    apply list_elem_of_fmap in Hf as (conn & -> & Hin). by apply (Hnr conn Hin). }
  split.
  { intros conn Hin. apply elem_of_app in Hin as [Hin|Hin]; [by apply Hk, Hconn|].
    apply list_elem_of_singleton in Hin as ->. cbn. by apply Hk. }
  split.
  - intros c1 r1 H1. apply slotAt_insert_inv in H1 as [[_ [=]]|[Hne H1]]; [|done].
    destruct (Hslot c1 r1 H1) as [Hp Hn]. split; [by apply Hk|].
    intros conn Hin. apply elem_of_app in Hin as [Hin|Hin]; [by apply Hn|].
    apply list_elem_of_singleton in Hin as ->. cbn. intros Heq. apply Hne.
    by apply (Hinj c1 c r1 r).
  - intros c1 c2 r1 r2 H1 H2.
    apply slotAt_insert_inv in H1 as [[_ [=]]|[_ H1]]; [|done].
    apply slotAt_insert_inv in H2 as [[_ [=]]|[_ H2]]; [|done].
    by apply Hinj.
Qed.

(** A recording just constructed, fed its first frame and put in its
    slot. *)
Lemma ft_opened (w : World) (c : Z) (n : string) (cl : CJamClient)
    (bytes : string) (frame nc : Z) (a : CHostAddress) (dir : string) (fs1 : FileSystem) :
  filesTracked w -> 0 <= c ->
  (forall r0 : CJamClient, slotAt (vecptrJamClients (session w)) c <> Some (Some r0)) ->
  CJamClient_new frame nc n a dir (disk w) = Ok cl fs1 ->
  filesTrackedIn
    (<[Z.to_nat c := Some (fed n cl)]> (<[Z.to_nat c := Some cl]> (vecptrJamClients (session w))))
    (jamClientConnections (session w))
    (FS.append (filename cl) bytes fs1).
Proof.
  intros Hft Hc Hnone Hnew.
  apply CJamClient_new_Ok in Hnew as (_ & _ & _ & _ & _ & Hfresh & ->).
  rewrite list_insert_insert_eq.
  apply (ft_replace _ _ (disk w)); [done|done| | |by left].
  - eapply keepsNodes_trans; apply keepsNodes_put.
  - apply present_put.
Qed.

Lemma filesTracked_event (fsz : Z) (e : SessionEvent) (w w' : World) :
  filesTracked w ->
  final (deliver fsz e w) = Some w' ->
  filesTracked w'.
Proof.
  intros Hft H. destruct e as [c n a nc d|c]; cbn [deliver] in H.
  - apply Frame_final_inv in H
      as [[_ ->]|[(_ & Hs & [(msg & Hnew & Hsess)|(cl & fs1 & b & Hnew & _ & ->)])
                 |(_ & r0 & Hs & [(_ & b & _ & ->)|[(_ & _ & ->)|[(_ & _ & msg & Hnew & Hsess)
                                  |(_ & _ & cl & fs1 & b & Hnew & _ & ->)]]])]].
    + done.
    + apply CJamClient_new_Throw in Hnew. unfold filesTracked. by rewrite Hsess, Hnew.
    + pose proof (slotAt_Some _ _ _ Hs) as [Hc _].
      unfold filesTracked. cbn [session disk].
      rewrite stepFrame_slots, stepFrame_connections.
      cbn [vecptrJamClients jamClientConnections setClient].
      eapply ft_opened; [done|done| |done]. intros r0. by rewrite Hs.
    + pose proof (slotAt_Some _ _ _ Hs) as [Hc _].
      unfold filesTracked. cbn [session disk].
      rewrite stepFrame_slots, stepFrame_connections.
      cbn [vecptrJamClients jamClientConnections setClient].
      apply (ft_replace _ _ (disk w)); [done|done|apply keepsNodes_put|apply present_put|].
      right. by exists r0.
    + pose proof (slotAt_Some _ _ _ Hs) as [Hc _].
      pose proof (ft_afterDisconnect w c r0 Hft Hs) as Hft'.
      unfold filesTracked. cbn [session disk vecptrJamClients jamClientConnections setClient].
      apply (ft_clear _ _ (disk (afterDisconnect c r0 w))); [done|done|apply keepsNodes_refl].
    + apply CJamClient_new_Throw in Hnew. unfold filesTracked. rewrite Hsess, Hnew.
      by apply ft_afterDisconnect.
    + pose proof (slotAt_Some _ _ _ Hs) as [Hc _].
      pose proof (ft_afterDisconnect w c r0 Hft Hs) as Hft'.
      unfold filesTracked. cbn [session disk].
      rewrite stepFrame_slots, stepFrame_connections.
      cbn [vecptrJamClients jamClientConnections setClient].
      eapply (ft_opened (afterDisconnect c r0 w)); [done|done| |done].
      intros r1. cbn. by rewrite (slotAt_insert_same _ _ _ None Hs).
  - apply DisconnectClient_final_inv in H as (r & Hs & ->). by apply ft_afterDisconnect.
Qed.

(** In every state a session reaches from its construction, the files of
    its recordings, active and finalized, are on the disk and pairwise
    distinct: no two segments share a file. *)
Theorem recording_files_distinct (base stamp : string) (fs fs1 : FileSystem)
    (s : CJamSession) (fsz : Z) (es : list SessionEvent) (w' : World) :
  CJamSession_new base stamp fs = Ok s fs1 ->
  final (deliverAll fsz es {| session := s; disk := fs1 |}) = Some w' ->
  NoDup (FileName <$> jamClientConnections (session w'))
  /\ (forall conn : CJamClientConnection,
        conn ∈ jamClientConnections (session w') ->
        is_Some (nodes (disk w') !! FileName conn))
  /\ (forall (c : Z) (r : CJamClient),
        slotAt (vecptrJamClients (session w')) c = Some (Some r) ->
        is_Some (nodes (disk w') !! filename r)
        /\ forall conn : CJamClientConnection,
             conn ∈ jamClientConnections (session w') -> FileName conn <> filename r)
  /\ (forall (c c' : Z) (r r' : CJamClient),
        slotAt (vecptrJamClients (session w')) c = Some (Some r) ->
        slotAt (vecptrJamClients (session w')) c' = Some (Some r') ->
        filename r = filename r' -> c = c').
Proof.
  intros Hnew H. apply CJamSession_new_Ok in Hnew as ->.
  apply (deliverAll_invariant filesTracked fsz) in H; [done| |].
  - intros e w1 w2. apply filesTracked_event.
  - split; [apply NoDup_nil_2|]. split.
    { intros conn Hin. by apply elem_of_nil in Hin. }
    split.
    + intros c r Hr. by apply slotAt_replicate_None in Hr.
    + intros c c' r r' Hr. by apply slotAt_replicate_None in Hr.
Qed.

Lemma size_content (path : string) (fs : FileSystem) :
  FS.size path fs = Z.of_nat (String.length (FS.content path fs)).
Proof. unfold FS.size, FS.content. by repeat case_match. Qed.

Lemma size_append_same (path bytes : string) (fs : FileSystem) :
  FS.size path (FS.append path bytes fs)
  = FS.size path fs + Z.of_nat (String.length bytes).
Proof.
  rewrite (size_content path fs). unfold FS.size, FS.append, FS.put. cbn [nodes].
  rewrite lookup_insert_eq, string_length_app. lia.
Qed.

Lemma size_put_other (path path' : string) (nd : Node) (fs : FileSystem) :
  path <> path' -> FS.size path (FS.put path' nd fs) = FS.size path fs.
Proof. intros Hne. unfold FS.size, FS.put. cbn [nodes]. by rewrite lookup_insert_ne. Qed.

Lemma size_absent (path : string) (fs : FileSystem) :
  nodes fs !! path = None -> FS.size path fs = 0.
Proof. intros H. unfold FS.size. by rewrite H. Qed.

Lemma writeSamples_length (k : nat) (pcm : list Z) (bytes : string) :
  writeSamples k pcm = Some bytes -> String.length bytes = (2 * k)%nat.
Proof.
  revert pcm bytes. induction k as [|k IH]; intros pcm bytes H.
  - cbn in H. by injection H as <-.
  - destruct pcm as [|x pcm]; [done|]. cbn in H.
    destruct (writeSamples k pcm) as [b|] eqn:Hb; [|done].
    cbn in H. injection H as <-. rewrite string_length_app, int16_le_length, (IH _ _ Hb). lia.
Qed.

Lemma so_afterDisconnect (fsz : Z) (w : World) (c : Z) (r : CJamClient) :
  filesTracked w -> sizesOk fsz w ->
  slotAt (vecptrJamClients (session w)) c = Some (Some r) ->
  sizesOk fsz (afterDisconnect c r w).
Proof.
  intros (_ & _ & _ & Hinj) Hso Hr. pose proof (slotAt_Some _ _ _ Hr) as [Hc _].
  intros c1 r1 H1. cbn in H1. apply slotAt_insert_inv in H1 as [[_ [=]]|[Hne H1]]; [|done].
  cbn [afterDisconnect disk]. rewrite size_put_other; [by apply (Hso c1)|].
  intros Heq. apply Hne. by apply (Hinj c1 c r1 r).
Qed.

Lemma so_clear (fsz : Z) (w : World) (c : Z) :
  sizesOk fsz w -> 0 <= c ->
  sizesOk fsz {| session := setClient c None (session w); disk := disk w |}.
Proof.
  intros Hso Hc c1 r1 H1. cbn in H1.
  apply slotAt_insert_inv in H1 as [[_ [=]]|[_ H1]]; [|done]. by apply (Hso c1).
Qed.

Lemma so_opened (fsz : Z) (w : World) (c : Z) (n : string) (cl : CJamClient)
    (bytes : string) (d : list Z) (frame nc : Z) (a : CHostAddress) (dir : string)
    (fs1 : FileSystem) :
  filesTracked w -> sizesOk fsz w -> 0 <= c ->
  CJamClient_new frame nc n a dir (disk w) = Ok cl fs1 ->
  writeSamples (Z.to_nat (numChannels cl * fsz)) d = Some bytes ->
  sizesOk fsz
    {| session := stepFrame (fed n cl)
                    (setClient c (Some (fed n cl)) (setClient c (Some cl) (session w)));
       disk := FS.append (filename cl) bytes fs1 |}.
Proof.
  intros (_ & _ & Hslot & _) Hso Hc Hnew Hw.
  apply CJamClient_new_Ok in Hnew as (_ & Hnc & _ & _ & Hfc & Hfresh & ->).
  apply writeSamples_length in Hw.
  intros c1 r1 H1. cbn [session disk] in *. rewrite stepFrame_slots in H1. cbn in H1.
  rewrite list_insert_insert_eq in H1.
  apply slotAt_insert_inv in H1 as [[-> [= ->]]|[Hne H1]]; [| |done].
  - rewrite !size_append_same, (size_absent _ _ Hfresh), Hw.
    unfold recordedSize. cbn [fed numChannels frameCount filename]. rewrite Hfc, Hnc. lia.
  - destruct (Hslot c1 r1 H1) as [Hp _].
    assert (filename r1 <> filename cl) as Hdiff.
    { intros Heq. rewrite Heq, Hfresh in Hp. by destruct Hp. }
    unfold FS.append. rewrite !size_put_other by done. by apply (Hso c1).
Qed.

Lemma sizes_event (fsz : Z) (e : SessionEvent) (w w' : World) :
  filesTracked w -> sizesOk fsz w ->
  final (deliver fsz e w) = Some w' ->
  sizesOk fsz w'.
Proof.
  intros Hft Hso H. destruct e as [c n a nc d|c]; cbn [deliver] in H.
  - apply Frame_final_inv in H
      as [[_ ->]|[(_ & Hs & [(msg & Hnew & Hsess)|(cl & fs1 & b & Hnew & Hw & ->)])
                 |(_ & r0 & Hs & [(_ & b & Hw & ->)|[(_ & _ & ->)|[(_ & _ & msg & Hnew & Hsess)
                                  |(_ & _ & cl & fs1 & b & Hnew & Hw & ->)]]])]].
    + done.
    + apply CJamClient_new_Throw in Hnew. unfold sizesOk. by rewrite Hsess, Hnew.
    + pose proof (slotAt_Some _ _ _ Hs) as [Hc _]. by eapply so_opened.
    + pose proof (slotAt_Some _ _ _ Hs) as [Hc _]. destruct Hft as (_ & _ & _ & Hinj).
      apply writeSamples_length in Hw.
      intros c1 r1 H1. cbn [session disk] in *. rewrite stepFrame_slots in H1. cbn in H1.
      apply slotAt_insert_inv in H1 as [[-> [= ->]]|[Hne H1]]; [| |done].
      * cbn [fed filename]. rewrite size_append_same, (Hso c r0 Hs), Hw.
        unfold recordedSize. cbn [fed numChannels frameCount]. lia.
      * unfold FS.append. rewrite size_put_other; [by apply (Hso c1)|].
        intros Heq. apply Hne. by apply (Hinj c1 c r1 r0).
    + pose proof (slotAt_Some _ _ _ Hs) as [Hc _].
      apply (so_clear fsz (afterDisconnect c r0 w)); [|done]. by apply so_afterDisconnect.
    + apply CJamClient_new_Throw in Hnew.
      pose proof (so_afterDisconnect fsz w c r0 Hft Hso Hs) as Hso'.
      unfold sizesOk. by rewrite Hsess, Hnew.
    + pose proof (slotAt_Some _ _ _ Hs) as [Hc _].
      eapply (so_opened fsz (afterDisconnect c r0 w)); try done.
      * by apply ft_afterDisconnect.
      * by apply so_afterDisconnect.
  - apply DisconnectClient_final_inv in H as (r & Hs & ->). by apply so_afterDisconnect.
Qed.

(** In every state a session reaches from its construction by frames of
    one frame size, the file of each active recording holds the header and
    two bytes for each of the numChannels * frameSize samples of every
    frame counted for it: its size determines its frame count. *)
Theorem recording_file_sizes (base stamp : string) (fs fs1 : FileSystem)
    (s : CJamSession) (fsz : Z) (es : list SessionEvent) (w' : World) :
  CJamSession_new base stamp fs = Ok s fs1 ->
  final (deliverAll fsz es {| session := s; disk := fs1 |}) = Some w' ->
  forall (c : Z) (r : CJamClient),
    slotAt (vecptrJamClients (session w')) c = Some (Some r) ->
    FS.size (filename r) (disk w')
    = Z.of_nat (String.length (waveStreamHeaders (numChannels r)))
      + frameCount r * (2 * Z.max 0 (numChannels r * fsz)).
Proof.
  intros Hnew H. apply CJamSession_new_Ok in Hnew as ->.
  apply (deliverAll_invariant (fun w => filesTracked w /\ sizesOk fsz w) fsz) in H.
  - by destruct H as [_ H].
  - intros e w1 w2 [Hft Hso] Hstep. split.
    + by eapply filesTracked_event.
    + by eapply sizes_event.
  - split.
    + split; [apply NoDup_nil_2|]. split.
      { intros conn Hin. by apply elem_of_nil in Hin. }
      split.
      * intros c r Hr. by apply slotAt_replicate_None in Hr.
      * intros c c' r r' Hr. by apply slotAt_replicate_None in Hr.
    + intros c r Hr. by apply slotAt_replicate_None in Hr.
Qed.

(** ** Errors and bounds *)

Lemma World_eq (w w' : World) :
  session w' = session w -> disk w' = disk w -> w' = w.
Proof. destruct w, w'. cbn. by intros -> ->. Qed.

(** When [Frame] throws, the recording for the frame could not be opened:
    slot c is empty afterwards and the frame counter is as it was.  Had the
    slot been empty, nothing at all has changed; had it held a recording of
    another identity, that recording has been finalized as by
    DisconnectClient(c). *)
Theorem Frame_throw_leaves_slot_empty (w w' : World) (c : Z) (n : string)
    (a : CHostAddress) (nc : Z) (d : list Z) (fsz : Z) (msg : string) :
  Frame c n a nc d fsz w = Throw msg w' ->
  slotAt (vecptrJamClients (session w')) c = Some None
  /\ currentFrame (session w') = currentFrame (session w)
  /\ (slotAt (vecptrJamClients (session w)) c = Some None -> w' = w)
  /\ (forall r0 : CJamClient,
        slotAt (vecptrJamClients (session w)) c = Some (Some r0) ->
        w' = afterDisconnect c r0 w).
Proof.
  intros HF. assert (final (Frame c n a nc d fsz w) = Some w') as H by by rewrite HF.
  apply Frame_final_inv in H
    as [[Heq ->]|[(Hne & Hs & [(msg' & Hnew & Hsess)|(cl & fs1 & b & Hnew & Hw & ->)])
               |(Hne & r0 & Hs & [(Hid & b & Hw & ->)|[(Hid & -> & ->)
                                |[(Hid & Hnc & msg' & Hnew & Hsess)
                                |(Hid & Hnc & cl & fs1 & b & Hnew & Hw & ->)]]])]].
  - by rewrite (Frame_dropped _ _ _ _ _ _ _ Heq) in HF.
  - apply CJamClient_new_Throw in Hnew. rewrite Hsess.
    split; [done|]. split; [done|]. split.
    + intros _. by apply World_eq.
    + intros r0 Hr0. congruence.
  - by rewrite (Frame_opens _ _ _ _ _ _ _ _ _ _ Hne Hs Hnew Hw) in HF.
  - by rewrite (Frame_feeds _ _ _ _ _ _ _ _ _ Hne Hs Hid Hw) in HF.
  - by rewrite (Frame_to_zero _ _ _ _ _ _ _ Hne Hs Hid) in HF.
  - apply CJamClient_new_Throw in Hnew. rewrite Hsess.
    split; [exact (slotAt_insert_same _ _ _ None Hs)|]. split; [done|]. split.
    + intros Hnone. congruence.
    + intros r1 Hr1. assert (r1 = r0) as -> by congruence. by apply World_eq.
  - by rewrite (Frame_reopens _ _ _ _ _ _ _ _ _ _ _ Hne Hs Hid Hnc Hnew Hw) in HF.
Qed.

Lemma slotAt_out_of_range (v : list (option CJamClient)) (c : Z) :
  c < 0 \/ Z.of_nat (length v) <= c -> slotAt v c = None.
Proof.
  intros H. unfold slotAt. destruct (Z.ltb_spec c 0); [done|].
  apply lookup_ge_None. lia.
Qed.

(** A channel id outside the slot vector is a fault, in DisconnectClient
    and in Frame alike, with one exception: a frame whose id equals the
    marker is dropped before any slot is read, so Frame(-1, ...) on a
    session whose marker is unset returns. *)
Theorem channel_id_out_of_range (w : World) (c : Z) (n : string) (a : CHostAddress)
    (nc : Z) (d : list Z) (fsz : Z) :
  c < 0 \/ Z.of_nat (length (vecptrJamClients (session w))) <= c ->
  DisconnectClient c w = Fault
  /\ (c <> chIdDisconnected (session w) -> Frame c n a nc d fsz w = Fault)
  /\ (c = chIdDisconnected (session w) -> Frame c n a nc d fsz w = Ok tt (afterDrop w)).
Proof.
  intros Hc. apply slotAt_out_of_range in Hc. split; [|split].
  - unfold DisconnectClient. run_monad. by rewrite Hc.
  - intros Hne. unfold Frame. run_monad. apply Z.eqb_neq in Hne. by rewrite Hne, Hc.
  - apply Frame_dropped.
Qed.

(** The session constructor never faults.  It returns exactly when the
    session directory can be written and is a directory or not yet there;
    then the directory is on the disk, every other node is as it was, and
    the session starts with frame counter 0, no marker, MAX_NUM_CHANNELS
    empty slots and no connections.  When it throws, the disk is as it
    was. *)
Theorem session_constructor_outcome (base stamp : string) (fs : FileSystem) :
  let dir := FS.absoluteFilePath base ("Jam-" +:+ stamp) in
  let fresh := {| sessionDir := dir; currentFrame := 0; chIdDisconnected := -1;
                  vecptrJamClients := replicate MAX_NUM_CHANNELS None;
                  jamClientConnections := [] |} in
  if FS.writable dir fs && (negb (FS.exists_ dir fs) || FS.isDir dir fs)
  then exists fs' : FileSystem,
         CJamSession_new base stamp fs = Ok fresh fs'
         /\ FS.isDir dir fs' = true
         /\ (forall p : string, p <> dir -> nodes fs' !! p = nodes fs !! p)
         /\ (FS.exists_ dir fs = true -> fs' = fs)
  else exists msg : string, CJamSession_new base stamp fs = Throw msg fs.
Proof.
  cbn zeta. unfold CJamSession_new.
  set (dir := FS.absoluteFilePath base ("Jam-" +:+ stamp)).
  destruct (FS.writable dir fs) eqn:Hw; cbn [andb negb].
  - destruct (FS.exists_ dir fs) eqn:He; cbn [andb negb orb].
    + rewrite Hw. destruct (FS.isDir dir fs) eqn:Hd; cbn [negb].
      * exists fs. by repeat split.
      * by eexists.
    + assert (FS.isDir dir (FS.put dir Dir fs) = true) as Hd.
      { unfold FS.isDir, FS.put. cbn. by rewrite lookup_insert_eq. }
      assert (FS.writable dir (FS.put dir Dir fs) = true) as Hw' by done.
      rewrite Hd, Hw'. cbn [negb]. eexists. split; [done|]. split; [done|]. split; [|done].
      intros p Hp. cbn. by rewrite lookup_insert_ne.
  - destruct (FS.exists_ dir fs) eqn:He; cbn [andb negb].
    + rewrite Hw. destruct (FS.isDir dir fs); cbn [negb]; by eexists.
    + by eexists.
Qed.

(** ** Reading a directory back *)

Lemma count_nonneg (c : ascii) (s : string) : 0 <= QString.count c s.
Proof. induction s as [|a s IH]; cbn; [done|]. case_match; lia. Qed.

Lemma count_app (c : ascii) (s t : string) :
  QString.count c (s +:+ t) = QString.count c s + QString.count c t.
Proof.
  induction s as [|a s IH]; [done|].
  change (String a s +:+ t) with (String a (s +:+ t)). cbn [QString.count].
  rewrite IH. lia.
Qed.

Lemma string_app_assoc (s t u : string) : (s +:+ t) +:+ u = s +:+ (t +:+ u).
Proof.
  induction s as [|a s IH]; [done|].
  change ((String a s +:+ t) +:+ u) with (String a ((s +:+ t) +:+ u)).
  by rewrite IH.
Qed.

Lemma string_app_cons (c : ascii) (s t : string) : String c s +:+ t = String c (s +:+ t).
Proof. reflexivity. Qed.

Ltac string_norm :=
  repeat (rewrite string_app_assoc || rewrite string_app_cons); reflexivity.

Lemma string_app_nil_r (s : string) : s +:+ "" = s.
Proof.
  induction s as [|a s IH]; [done|].
  change (String a s +:+ "") with (String a (s +:+ "")). by rewrite IH.
Qed.

Lemma count_cons_0 (c a : ascii) (s : string) :
  QString.count c (String a s) = 0 -> Ascii.eqb a c = false /\ QString.count c s = 0.
Proof.
  cbn. pose proof (count_nonneg c s). destruct (Ascii.eqb a c); [lia|]. by split; [|lia].
Qed.

Lemma split_plain (sep : ascii) (s : string) :
  QString.count sep s = 0 -> QString.split sep s = [s].
Proof.
  induction s as [|a s IH]; [done|]. intros H.
  apply count_cons_0 in H as [Ha Hs]. cbn [QString.split]. by rewrite Ha, (IH Hs).
Qed.

Lemma split_app_sep (sep : ascii) (s t : string) :
  QString.count sep s = 0 ->
  QString.split sep (s +:+ String sep t) = s :: QString.split sep t.
Proof.
  induction s as [|a s IH]; intros H.
  - change ("" +:+ String sep t) with (String sep t). cbn [QString.split].
    by rewrite Ascii.eqb_refl.
  - apply count_cons_0 in H as [Ha Hs].
    change (String a s +:+ String sep t) with (String a (s +:+ String sep t)).
    cbn [QString.split]. by rewrite Ha, (IH Hs).
Qed.

Lemma digit_neq (c a : ascii) : isDigit c = false -> isDigit a = true -> Ascii.eqb a c = false.
Proof. intros Hc Ha. destruct (Ascii.eqb_spec a c) as [->|]; [congruence|done]. Qed.

Lemma count_string_of_uint (c : ascii) (d : Decimal.uint) :
  isDigit c = false -> QString.count c (NilEmpty.string_of_uint d) = 0.
Proof.
  intros Hc. induction d; cbn [NilEmpty.string_of_uint QString.count]; [done|..];
    match goal with
    | |- context [Ascii.eqb ?a c] => rewrite (digit_neq c a Hc eq_refl), IHd
    end; done.
Qed.

Lemma count_number (c : ascii) (z : Z) :
  0 <= z -> isDigit c = false -> QString.count c (QString.number z) = 0.
Proof.
  intros Hz Hc. unfold QString.number. destruct z as [|p|p]; [|..|lia].
  - change (QString.count c (String "0" EmptyString) = 0). cbn [QString.count].
    by rewrite (digit_neq c "0" Hc eq_refl).
  - cbn [Z.to_int NilZero.string_of_int]. unfold NilZero.string_of_uint.
    destruct (Pos.to_uint p) eqn:Hp; [by apply Unsigned.to_uint_nonnil in Hp|..];
      by apply count_string_of_uint.
Qed.

Lemma count_affixOf (c : ascii) (k : nat) :
  isDigit c = false -> Ascii.eqb "_" c = false -> QString.count c (affixOf k) = 0.
Proof.
  intros Hc Hu. destruct k as [|k]; [done|]. unfold affixOf.
  change ("_" +:+ QString.number (Z.of_nat (S k)))
    with (String "_" (QString.number (Z.of_nat (S k)))).
  cbn [QString.count]. rewrite Hu, count_number by (done || lia). done.
Qed.

Lemma toRange_number (lo hi z : Z) :
  lo <= z <= hi -> QString.toRange lo hi (QString.number z) = z.
Proof.
  intros [Hlo Hhi]. unfold QString.toRange.
  rewrite int_of_string_number, DecimalZ.of_to.
  apply Z.leb_le in Hlo, Hhi. by rewrite Hlo, Hhi.
Qed.

(** The channel count text of [number nc] followed by an affix. *)
Lemma channels_of_tail (nc : Z) (k : nat) :
  0 <= nc ->
  (if QString.count "_" (QString.number nc +:+ affixOf k) >? 0
   then QString.split "_" (QString.number nc +:+ affixOf k) !! 0%nat
   else Some (QString.number nc +:+ affixOf k))
  = Some (QString.number nc).
Proof.
  intros Hnc. destruct k as [|k].
  - cbn [affixOf]. rewrite string_app_nil_r. by rewrite count_number.
  - unfold affixOf.
    change ("_" +:+ QString.number (Z.of_nat (S k)))
      with (String "_" (QString.number (Z.of_nat (S k)))).
    rewrite count_app, (count_number "_" nc) by done.
    cbn [QString.count]. rewrite Ascii.eqb_refl.
    pose proof (count_nonneg "_" (QString.number (Z.of_nat (S k)))).
    destruct (Z.gtb_spec (0 + (1 + QString.count "_" (QString.number (Z.of_nat (S k))))) 0);
      [|lia].
    rewrite split_app_sep by (by apply count_number). done.
Qed.

(** The loop body of [TracksFromSessionDir] reads back what the
    constructor wrote into a file name: for a client name of the form
    name-hostPort (neither part holding a dash or a dot), a start frame and
    a channel count that are not negative, and any affix, the entry
    ClientName-frame-channels[_k].pcm is put on track name-hostPort with
    that channel count and start frame, and with length
    size / channels / frameSize. *)
Theorem offline_entry_reads_back (n : string) (a : CHostAddress) (name' hostPort : string)
    (frame nc fsz : Z) (k : nat) (dir : string) (fs : FileSystem)
    (tracks : gmap string (list STrackItem)) :
  ClientName n a = name' +:+ "-" +:+ hostPort ->
  QString.count "-" name' = 0 -> QString.count "." name' = 0 ->
  QString.count "-" hostPort = 0 -> QString.count "." hostPort = 0 ->
  0 <= frame <= QString.LLONG_MAX ->
  0 < nc <= QString.INT_MAX ->
  fsz <> 0 ->
  let entry := recordingBaseName frame nc n a +:+ affixOf k +:+ ".pcm" in
  let path := FS.absoluteFilePath dir entry in
  trackFromEntry dir fsz fs tracks entry
  = Some (appendTrack (name' +:+ "-" +:+ hostPort)
            {| item_numChannels := nc;
               item_startFrame := frame;
               item_length := Z.quot (Z.quot (FS.size path fs) nc) fsz;
               item_fileName := path |}
            (ensureTrack (name' +:+ "-" +:+ hostPort) tracks)).
Proof.
  intros HCN Hn1 Hn2 Hh1 Hh2 Hframe Hnc Hfsz. cbn zeta.
  unfold recordingBaseName. rewrite HCN.
  set (tail := QString.number nc +:+ affixOf k).
  set (stem := name' +:+ String "-" (hostPort +:+ String "-"
                 (QString.number frame +:+ String "-" tail))).
  assert (((name' +:+ "-" +:+ hostPort) +:+ "-" +:+ QString.number frame +:+ "-"
            +:+ QString.number nc) +:+ affixOf k +:+ ".pcm" = stem +:+ String "." "pcm") as ->.
  { unfold stem, tail. string_norm. }
  assert (QString.count "-" tail = 0) as Ht1.
  { unfold tail. rewrite count_app, count_number, count_affixOf; done || lia. }
  assert (QString.count "." tail = 0) as Ht2.
  { unfold tail. rewrite count_app, count_number, count_affixOf; done || lia. }
  assert (QString.count "." stem = 0) as Hs2.
  { unfold stem.
    rewrite count_app, Hn2. cbn [QString.count].
    rewrite count_app, Hh2. cbn [QString.count].
    rewrite count_app, count_number by (done || lia). cbn [QString.count].
    rewrite Ht2. done. }
  unfold trackFromEntry.
  rewrite (split_app_sep "." stem "pcm" Hs2). cbn [lookup list_lookup mbind option_bind].
  assert (QString.split "-" stem = [name'; hostPort; QString.number frame; tail]) as ->.
  { unfold stem.
    rewrite (split_app_sep "-" name' _ Hn1), (split_app_sep "-" hostPort _ Hh1).
    rewrite (split_app_sep "-" (QString.number frame)) by (apply count_number; done || lia).
    by rewrite (split_plain "-" tail Ht1). }
  cbn [lookup list_lookup mbind option_bind].
  unfold tail. rewrite channels_of_tail by lia.
  cbn [mbind option_bind].
  unfold QString.toInt, QString.toLongLong.
  rewrite !toRange_number by (unfold QString.INT_MIN, QString.LLONG_MIN; lia).
  unfold cdiv.
  destruct (Z.eqb_spec nc 0); [lia|]. cbn [mbind option_bind].
  destruct (Z.eqb_spec fsz 0); [done|]. cbn [mbind option_bind].
  reflexivity.
Qed.

(** ** Facts about the track maps *)




Lemma items_appendTrack (k : string) (track : STrackItem)
    (tracks : gmap string (list STrackItem)) :
  items (appendTrack k track (ensureTrack k tracks)) ≡ₚ track :: items tracks.
Proof.
  unfold items, appendTrack, ensureTrack.
  destruct (tracks !! k) as [l|] eqn:Hk.
  - rewrite bool_decide_eq_true_2 by by eexists. rewrite Hk. cbn [default].
    rewrite <- (insert_delete_eq tracks k (l ++ [track])).
    rewrite map_to_list_insert by apply lookup_delete_eq.
    rewrite <- (map_to_list_delete tracks k l Hk).
    cbn. rewrite <- app_assoc. cbn.
    by rewrite <- Permutation_middle.
  - rewrite bool_decide_eq_false_2 by (by intros [? ?]; congruence).
    rewrite lookup_insert_eq. cbn [default app].
    rewrite insert_insert_eq.
    rewrite map_to_list_insert by done. done.
Qed.

Lemma tracksFromEntries_items (dir : string) (fsz : Z) (fs : FileSystem)
    (entries : list string) (acc tracks : gmap string (list STrackItem)) :
  tracksFromEntries dir fsz fs acc entries = Some tracks ->
  item_fileName <$> items tracks
  ≡ₚ (item_fileName <$> items acc) ++ (FS.absoluteFilePath dir <$> entries).
Proof.
  revert acc. induction entries as [|entry rest IH]; intros acc.
  - cbn. intros [= ->]. by rewrite app_nil_r.
  - cbn [tracksFromEntries].
    destruct (trackFromEntry dir fsz fs acc entry) as [acc'|] eqn:Hone;
      cbn [mbind option_bind]; [|done].
    intros Hrest. rewrite (IH _ Hrest). clear IH Hrest.
    assert (item_fileName <$> items acc'
            ≡ₚ FS.absoluteFilePath dir entry :: (item_fileName <$> items acc)) as ->.
    { revert Hone. unfold trackFromEntry.
      repeat (match goal with
              | |- context [?o ≫= _] =>
                  match o with
                  | _ ≫= _ => fail 1
                  | _ => destruct o; cbn [mbind option_bind]; [|done]
                  end
              end).
      intros [= <-]. by rewrite items_appendTrack. }
    cbn [fmap list_fmap]. by rewrite <- Permutation_middle.
Qed.

(** The map [TracksFromSessionDir] returns holds one item for each
    [*.pcm] entry of the directory, with the path of that entry as its
    file name: no entry is left out and none is listed twice. *)
Theorem offline_tracks_one_item_per_file (dir : string) (fsz : Z) (fs : FileSystem)
    (tracks : gmap string (list STrackItem)) :
  TracksFromSessionDir dir fsz fs = Some tracks ->
  item_fileName <$> items tracks
  ≡ₚ FS.absoluteFilePath dir <$> FS.entryList dir ".pcm" fs.
Proof.
  intros H. apply tracksFromEntries_items in H. rewrite H.
  unfold items. by rewrite map_to_list_empty.
Qed.

Lemma items_foldl_tracks (conns : list CJamClientConnection)
    (acc : gmap string (list STrackItem)) :
  items (foldl (fun tracks conn =>
                  let track := trackItemOf conn in
                  appendTrack (Name conn) track (ensureTrack (Name conn) tracks)) acc conns)
  ≡ₚ items acc ++ (trackItemOf <$> conns).
Proof.
  revert acc. induction conns as [|conn conns IH]; intros acc.
  - cbn. by rewrite app_nil_r.
  - cbn [foldl]. rewrite IH. cbn zeta. rewrite items_appendTrack. cbn [fmap list_fmap].
    by rewrite <- Permutation_middle.
Qed.

Lemma bind_over_entries {B} (f : STrackItem -> B) (m : gmap string (list STrackItem))
    (l : list (string * list STrackItem)) :
  Forall (fun kv => m !! kv.1 = Some kv.2) l ->
  (l.*1 ≫= fun k => f <$> default [] (m !! k)) = f <$> mjoin l.*2.
Proof.
  induction 1 as [|[k v] l Hkv _ IH]; [done|].
  cbn in Hkv. cbn. rewrite Hkv, IH. cbn. by rewrite fmap_app.
Qed.

Lemma keys_Permutation (tracks : gmap string (list STrackItem)) :
  keys tracks ≡ₚ (map_to_list tracks).*1.
Proof.
  unfold keys. rewrite merge_sort_Permutation.
  rewrite (dom_alt (D:=gset string) tracks).
  apply elements_list_to_set, NoDup_fst_map_to_list.
Qed.

Lemma lofLines_items (frameSize : Z) (tracks : gmap string (list STrackItem)) :
  lofLines frameSize tracks ≡ₚ lofLine frameSize <$> items tracks.
Proof.
  unfold lofLines, items. rewrite keys_Permutation.
  rewrite bind_over_entries; [done|].
  apply Forall_forall. intros [k v] Hin. by apply elem_of_map_to_list in Hin.
Qed.

(** The Audacity list of files is made of one line for each finalized
    connection of the session, naming its file and its offset, and of
    nothing else. *)
Theorem lof_lists_every_segment (frameSize : Z) (s : CJamSession) :
  lofText frameSize (Tracks s) = foldr String.append EmptyString (lofLines frameSize (Tracks s))
  /\ lofLines frameSize (Tracks s)
     ≡ₚ (fun conn => lofLine frameSize (trackItemOf conn)) <$> jamClientConnections s.
Proof.
  split; [done|].
  rewrite lofLines_items. unfold Tracks. rewrite items_foldl_tracks.
  unfold items at 1. rewrite map_to_list_empty. cbn [fmap list_fmap mjoin list_join app].
  by rewrite <- list_fmap_compose.
Qed.

(** ** Facts about the recorder *)

Lemma handleAll_invariant (P : Machine -> Prop) :
  (forall (sig : Signal) (m m' : Machine),
     P m -> final (slotOf sig m) = Some m' -> P m') ->
  forall (sigs : list Signal) (m m' : Machine),
    P m -> final (handleAll sigs m) = Some m' -> P m'.
Proof.
  intros Hstep sigs. induction sigs as [|sig sigs IH]; intros m m' HP H.
  - cbn in H. by injection H as <-.
  - cbn [handleAll] in H. unfold mbind, M_bind in H.
    destruct (slotOf sig m) as [[] m1|msg m1|] eqn:He; [| |done].
    + apply (IH m1); [|done]. apply (Hstep sig m); [done|]. by rewrite He.
    + cbn in H. injection H as <-. apply (Hstep sig m); [done|]. by rewrite He.
Qed.

Lemma keepsRecorder_refl (m : Machine) : consistent (recorder m) -> keepsRecorder m m.
Proof. by intros H; repeat split; try apply H. Qed.

Lemma keepsRecorder_trans (m0 m1 m2 : Machine) :
  keepsRecorder m0 m1 -> keepsRecorder m1 m2 -> keepsRecorder m0 m2.
Proof.
  intros (_ & Hb & Hf & Ho) (Hc & Hb' & Hf' & Ho').
  split; [done|]. split; [congruence|]. split; [congruence|]. by etrans.
Qed.

Lemma End_from_seq_disk (rest front : list (option CJamClient)) (w : World) :
  vecptrJamClients (session w) = front ++ rest ->
  exists w' : World,
    End_from (seq (length front) (length rest)) w = Ok tt w' /\
    unwritable (disk w') = unwritable (disk w) /\
    forall path : string,
      (forall c : CJamClient, Some c ∈ rest -> filename c <> path) ->
      nodes (disk w') !! path = nodes (disk w) !! path.
Proof.
  revert front w. induction rest as [|p rest IH]; intros front w Hv.
  - by exists w.
  - cbn [length seq End_from].
    assert (slotAt (vecptrJamClients (session w)) (Z.of_nat (length front)) = Some p) as Hs.
    { unfold slotAt. destruct (Z.ltb_spec (Z.of_nat (length front)) 0); [lia|].
      rewrite Nat2Z.id, Hv. by apply list_lookup_middle. }
    unfold mbind at 1 2, M_bind at 1 2. unfold clientAt at 1. rewrite Hs.
    destruct p as [c|].
    + unfold mbind at 1, M_bind at 1.
      rewrite (DisconnectClient_active _ _ _ Hs).
      unfold onSession, modify.
      set (w1 := {| session := _; disk := _ |}).
      destruct (IH (front ++ [None]) w1) as (w' & HE & Hu & Hn).
      { unfold w1. cbn. rewrite Nat2Z.id, Hv.
        rewrite list_insert_insert_eq.
        rewrite insert_app_r_alt by lia. rewrite Nat.sub_diag. cbn.
        by rewrite <- app_assoc. }
      rewrite length_app in HE. cbn in HE. rewrite Nat.add_1_r in HE.
      exists w'. split; [exact HE|]. split; [by rewrite Hu|].
      intros path Hp. rewrite Hn.
      * unfold w1. cbn. apply lookup_insert_ne, Hp. apply elem_of_cons. by left.
      * intros c' Hc'. apply Hp. apply elem_of_cons. by right.
    + unfold mret, M_ret.
      destruct (IH (front ++ [None]) w) as (w' & HE & Hu & Hn).
      { rewrite Hv. by rewrite <- app_assoc. }
      rewrite length_app in HE. cbn in HE. rewrite Nat.add_1_r in HE.
      exists w'. split; [exact HE|]. split; [done|].
      intros path Hp. apply Hn. intros c' Hc'. apply Hp. apply elem_of_cons. by right.
Qed.

Lemma End_outcome (w : World) :
  exists w' : World,
    End w = Ok tt w' /\
    vecptrJamClients (session w')
    = replicate (length (vecptrJamClients (session w))) None /\
    jamClientConnections (session w')
    = jamClientConnections (session w)
      ++ (connectionOf <$> omap id (vecptrJamClients (session w))) /\
    currentFrame (session w') = currentFrame (session w) /\
    sessionDir (session w') = sessionDir (session w) /\
    unwritable (disk w') = unwritable (disk w) /\
    forall path : string,
      (forall c : CJamClient, Some c ∈ vecptrJamClients (session w) -> filename c <> path) ->
      nodes (disk w') !! path = nodes (disk w) !! path.
Proof.
  destruct (End_from_seq (vecptrJamClients (session w)) [] w eq_refl)
    as (w' & HE & Hslots & Hconns & Hcf & Hdir).
  destruct (End_from_seq_disk (vecptrJamClients (session w)) [] w eq_refl)
    as (w2 & HE2 & Hu & Hn).
  rewrite HE in HE2. injection HE2 as <-.
  exists w'. unfold End, mbind, M_bind, get. by repeat split.
Qed.

Lemma Reaper_outcome (m : Machine) (s : CJamSession) :
  currentSession (recorder m) = Some s ->
  exists (fs' : FileSystem) (o : Output),
    ReaperProjectFromCurrentSession m
    = Ok tt {| recorder := recorder m; mdisk := fs'; output := output m ++ [o] |} /\
    unwritable fs' = unwritable (mdisk m).
Proof.
  intros Hs. unfold ReaperProjectFromCurrentSession, say, writeFile.
  unfold mbind, M_bind, get, modify. rewrite Hs.
  destruct (FS.exists_ _ (mdisk m)); [by eexists _, _|].
  destruct (FS.writable _ (mdisk m)); by eexists _, _.
Qed.

Lemma Lof_outcome (m : Machine) (s : CJamSession) :
  currentSession (recorder m) = Some s ->
  exists (fs' : FileSystem) (o : Output),
    AudacityLofFromCurrentSession m
    = Ok tt {| recorder := recorder m; mdisk := fs'; output := output m ++ [o] |} /\
    unwritable fs' = unwritable (mdisk m).
Proof.
  intros Hs. unfold AudacityLofFromCurrentSession, say, writeFile.
  unfold mbind, M_bind, get, modify. rewrite Hs.
  destruct (FS.exists_ _ (mdisk m)); [by eexists _, _|].
  destruct (FS.writable _ (mdisk m)); by eexists _, _.
Qed.

Lemma consistent_idle (r : CJamRecorder) :
  consistent r -> isRecording r = false -> currentSession r = None.
Proof.
  intros [_ H] Hr. destruct (currentSession r) as [s|]; [|done].
  rewrite H in Hr by by eexists. done.
Qed.

Lemma consistent_recording (r : CJamRecorder) :
  consistent r -> isRecording r = true -> exists s, currentSession r = Some s.
Proof. intros [H _] Hr. by apply H. Qed.

Lemma OnEnd_outcome (m : Machine) :
  consistent (recorder m) ->
  exists m' : Machine,
    OnEnd m = Ok tt m' /\
    isRecording (recorder m') = false /\
    currentSession (recorder m') = None /\
    keepsRecorder m m'.
Proof.
  intros Hc. unfold OnEnd. unfold mbind at 1, M_bind at 1, get at 1.
  destruct (isRecording (recorder m)) eqn:Hr.
  - destruct (consistent_recording _ Hc Hr) as [s Hs].
    unfold mbind at 1, M_bind at 1, onRecorder at 1, modify at 1.
    unfold mbind at 1, M_bind at 1, onCurrentSession at 1.
    cbn [recorder mdisk output setRecording currentSession]. rewrite Hs.
    destruct (End_outcome {| session := s; disk := mdisk m |})
      as (w' & -> & _ & _ & _ & _ & Hu & _).
    set (m1 := {| recorder := _; mdisk := disk w'; output := output m |}).
    destruct (Reaper_outcome m1 (session w') eq_refl) as (fs2 & o2 & HR & Hu2).
    unfold mbind at 1, M_bind at 1. rewrite HR.
    set (m2 := {| recorder := recorder m1; mdisk := fs2; output := _ |}).
    destruct (Lof_outcome m2 (session w') eq_refl) as (fs3 & o3 & HL & Hu3).
    unfold mbind at 1, M_bind at 1. rewrite HL.
    unfold onRecorder, modify. eexists. split; [done|].
    unfold keepsRecorder, consistent. cbn. split; [done|]. split; [done|].
    split; [split; [done|by intros [? ?]]|].
    split; [done|]. split; [done|].
    rewrite <- app_assoc. by apply prefix_app_r.
  - exists m. unfold mret, M_ret. split; [done|]. split; [done|].
    split; [by apply consistent_idle|by apply keepsRecorder_refl].
Qed.

Lemma CJamSession_new_cases (base stamp : string) (fs : FileSystem) :
  (exists (s : CJamSession) (fs' : FileSystem), CJamSession_new base stamp fs = Ok s fs')
  \/ (exists (msg : string) (fs' : FileSystem),
        CJamSession_new base stamp fs = Throw msg fs').
Proof.
  unfold CJamSession_new.
  repeat case_match;
    first [left; eexists _, _; reflexivity | right; eexists _, _; reflexivity].
Qed.

Lemma Start_outcome (stamp : string) (m : Machine) :
  consistent (recorder m) ->
  (exists (m' : Machine) (s : CJamSession),
     Start stamp m = Ok tt m' /\
     isRecording (recorder m') = true /\
     currentSession (recorder m') = Some s /\
     keepsRecorder m m')
  \/ (exists (msg : string) (m' : Machine),
        Start stamp m = Throw msg m' /\
        isRecording (recorder m') = false /\
        currentSession (recorder m') = None /\
        keepsRecorder m m').
Proof.
  intros Hc. destruct (OnEnd_outcome m Hc) as (m1 & HE & Hr & Hs & Hk).
  unfold Start. unfold mbind, M_bind, get, onMachineDisk. rewrite HE.
  destruct (CJamSession_new_cases (recordBaseDir (recorder m1)) stamp (mdisk m1))
    as [(s & fs' & ->)|(msg & fs' & ->)].
  - left. unfold onRecorder, say, mbind, M_bind, modify. eexists _, s.
    split; [done|]. cbn. split; [done|]. split; [done|].
    destruct Hk as (_ & Hb & Hf & Ho).
    split; [split; [by eexists|done]|].
    split; [done|]. split; [done|]. by apply prefix_app_r.
  - right. eexists msg, _. split; [done|]. cbn. split; [done|]. split; [done|].
    destruct Hk as (Hc1 & Hb & Hf & Ho). by repeat split; try apply Hc1.
Qed.

Lemma onCurrentSession_final {A} (f : M World A) (m m' : Machine) :
  isRecording (recorder m) = true ->
  final (onCurrentSession f m) = Some m' ->
  keepsRecorder m m'.
Proof.
  intros Hr. unfold onCurrentSession.
  destruct (currentSession (recorder m)) as [s|]; [|done].
  destruct (f _) as [a w|msg w|]; [| |done].
  all: intros [= <-]; unfold keepsRecorder, consistent; cbn.
  all: by split; [split; [eexists|]|].
Qed.

Lemma slot_keeps_recorder (sig : Signal) (m m' : Machine) :
  consistent (recorder m) ->
  final (slotOf sig m) = Some m' ->
  keepsRecorder m m'.
Proof.
  intros Hc. destruct sig as [stamp| | |iChID|stamp iChID n a nc d|]; cbn [slotOf].
  - unfold OnTriggerSession. unfold mbind, M_bind, get.
    destruct (isRecording (recorder m)) eqn:Hr.
    + destruct (Start_outcome stamp m Hc) as [(m1 & s & -> & _ & _ & Hk)|(msg & m1 & -> & _ & _ & Hk)];
        by intros [= <-].
    + intros [= <-]. by apply keepsRecorder_refl.
  - destruct (OnEnd_outcome m Hc) as (m1 & -> & _ & _ & Hk). by intros [= <-].
  - destruct (OnEnd_outcome m Hc) as (m1 & -> & _ & _ & Hk). by intros [= <-].
  - unfold OnDisconnected. unfold mbind at 1, M_bind at 1, get at 1.
    destruct (isRecording (recorder m)) eqn:Hr; cbn [negb].
    + unfold mbind at 1, M_bind at 1, mret at 1, M_ret at 1.
      destruct (consistent_recording _ Hc Hr) as [s Hs]. rewrite Hs.
      by apply onCurrentSession_final.
    + rewrite (consistent_idle _ Hc Hr). unfold say, mbind, M_bind, modify.
      intros [= <-]. unfold keepsRecorder. cbn. split; [done|]. split; [done|]. split; [done|].
      rewrite <- app_assoc. by apply prefix_app_r.
  - unfold OnFrame. unfold mbind at 1, M_bind at 1, get at 1.
    destruct (isRecording (recorder m)) eqn:Hr; cbn [negb].
    + unfold mbind at 1, M_bind at 1, mret at 1, M_ret at 1.
      unfold mbind at 1, M_bind at 1, get at 1.
      by apply onCurrentSession_final.
    + unfold mbind at 1, M_bind at 1.
      destruct (Start_outcome stamp m Hc) as [(m1 & s & -> & Hr1 & _ & Hk)|(msg & m1 & -> & _ & _ & Hk)].
      * unfold mbind at 1, M_bind at 1, get at 1. intros H.
        apply (keepsRecorder_trans _ m1); [done|]. by apply onCurrentSession_final in H.
      * by intros [= <-].
  - unfold OnAboutToQuit. unfold mbind, M_bind.
    destruct (OnEnd_outcome m Hc) as (m1 & -> & _ & _ & Hk).
    unfold say, modify. intros [= <-].
    destruct Hk as (Hc1 & Hb & Hf & Ho). unfold keepsRecorder. cbn.
    split; [done|]. split; [done|]. split; [done|]. by apply prefix_app_r.
Qed.

(** Whatever signals the server sends and in whatever order, after each
    slot that returns or throws the recorder is recording exactly when it
    holds a session, its base directory and its frame size are those it
    started with, and what it had logged and emitted is still there, in
    front of what was added. *)
Theorem recorder_stays_consistent (sigs : list Signal) (m m' : Machine) :
  consistent (recorder m) ->
  final (handleAll sigs m) = Some m' ->
  consistent (recorder m') /\
  recordBaseDir (recorder m') = recordBaseDir (recorder m) /\
  iServerFrameSizeSamples (recorder m') = iServerFrameSizeSamples (recorder m) /\
  output m `prefix_of` output m'.
Proof.
  intros Hc H.
  apply (handleAll_invariant (keepsRecorder m)) with (sigs := sigs) (m := m); [|by apply keepsRecorder_refl|done].
  intros sig m1 m2 Hk Hstep.
  apply (keepsRecorder_trans _ m1); [done|].
  apply (slot_keeps_recorder sig); [apply Hk|done].
Qed.

Lemma exists_same_node (path : string) (fs fs' : FileSystem) :
  nodes fs' !! path = nodes fs !! path -> FS.exists_ path fs' = FS.exists_ path fs.
Proof. unfold FS.exists_. by intros ->. Qed.

Lemma writable_same (path : string) (fs fs' : FileSystem) :
  unwritable fs' = unwritable fs -> FS.writable path fs' = FS.writable path fs.
Proof. unfold FS.writable. by intros ->. Qed.

(** Stopping a recording exports what [End] has just finalized too: when
    neither project file is on the disk and both can be written, [OnEnd]
    returns with the recorder idle, and the files hold the Reaper project
    and the list of files of a session whose connections are those
    finalized before followed by one for each recording that was still
    open, in slot order. *)
Theorem stop_exports_open_recordings (m : Machine) (s : CJamSession) :
  isRecording (recorder m) = true ->
  currentSession (recorder m) = Some s ->
  let rpp := FS.absoluteFilePath (sessionDir s) (CJamSession_Name s +:+ ".rpp") in
  let lof := FS.absoluteFilePath (sessionDir s) (CJamSession_Name s +:+ ".lof") in
  let frameSize := iServerFrameSizeSamples (recorder m) in
  FS.exists_ rpp (mdisk m) = false -> FS.writable rpp (mdisk m) = true ->
  FS.exists_ lof (mdisk m) = false -> FS.writable lof (mdisk m) = true ->
  (forall c : CJamClient,
     Some c ∈ vecptrJamClients s -> filename c <> rpp /\ filename c <> lof) ->
  exists (m' : Machine) (s' : CJamSession),
    OnEnd m = Ok tt m' /\
    jamClientConnections s'
    = jamClientConnections s ++ (connectionOf <$> omap id (vecptrJamClients s)) /\
    nodes (mdisk m') !! rpp
    = Some (File (CReaperProject_toString (Tracks s') frameSize +:+ QString.endl)) /\
    nodes (mdisk m') !! lof = Some (File (lofText frameSize (Tracks s'))) /\
    recorder m' = {| recordBaseDir := recordBaseDir (recorder m);
                     iServerFrameSizeSamples := frameSize;
                     isRecording := false; currentSession := None |} /\
    output m' = output m ++ [qDebug ["Session RPP:"; rpp]; qDebug ["Session LOF:"; lof]].
Proof.
  intros Hr Hs. cbn zeta. intros Hre Hrw Hle Hlw Hfiles.
  destruct (End_outcome {| session := s; disk := mdisk m |})
    as (w' & HE & _ & Hconns & _ & Hdir & Hu & Hn).
  cbn [session disk] in *.
  assert (CJamSession_Name (session w') = CJamSession_Name s) as Hname.
  { unfold CJamSession_Name. by rewrite Hdir. }
  set (rpp := FS.absoluteFilePath (sessionDir s) (CJamSession_Name s +:+ ".rpp")) in *.
  set (lof := FS.absoluteFilePath (sessionDir s) (CJamSession_Name s +:+ ".lof")) in *.
  assert (FS.exists_ rpp (disk w') = false) as Hre'.
  { rewrite <- Hre. apply exists_same_node, Hn. intros c Hc. by apply Hfiles. }
  assert (FS.writable rpp (disk w') = true) as Hrw'.
  { rewrite <- Hrw. by apply writable_same. }
  set (text := CReaperProject_toString (Tracks (session w'))
                 (iServerFrameSizeSamples (recorder m)) +:+ QString.endl).
  assert (FS.exists_ lof (FS.put rpp (File text) (disk w')) = false) as Hle'.
  { rewrite <- Hle. apply exists_same_node. cbn.
    rewrite lookup_insert_ne by apply project_paths_differ.
    apply Hn. intros c Hc. by apply Hfiles. }
  assert (FS.writable lof (FS.put rpp (File text) (disk w')) = true) as Hlw'.
  { rewrite <- Hlw. by apply writable_same. }
  eexists _, (session w'). split.
  { unfold OnEnd, onRecorder, onCurrentSession, ReaperProjectFromCurrentSession,
      AudacityLofFromCurrentSession, say, writeFile.
    unfold mbind, M_bind, get, modify. rewrite Hr.
    cbn [recorder mdisk output setRecording setSession currentSession]. rewrite Hs, HE.
    cbn [recorder mdisk output setRecording setSession currentSession
         iServerFrameSizeSamples].
    rewrite Hdir, Hname. fold rpp lof text. rewrite Hre', Hrw'.
    cbn [recorder mdisk output setRecording setSession currentSession
         iServerFrameSizeSamples].
    rewrite Hdir, Hname. fold rpp lof. rewrite Hle', Hlw'.
    reflexivity. }
  cbn [recorder mdisk output setRecording setSession currentSession
       iServerFrameSizeSamples recordBaseDir isRecording].
  split; [done|]. split.
  { cbn. rewrite lookup_insert_ne by (intros H; symmetry in H; by apply project_paths_differ in H).
    by rewrite lookup_insert_eq. }
  split; [cbn; by rewrite lookup_insert_eq|].
  split; [done|]. by rewrite <- !app_assoc.
Qed.

Lemma CJamSession_new_returns (base stamp : string) (fs : FileSystem) :
  roomy fs ->
  let dir := FS.absoluteFilePath base ("Jam-" +:+ stamp) in
  FS.exists_ dir fs = false \/ FS.isDir dir fs = true ->
  exists fs' : FileSystem,
    CJamSession_new base stamp fs
    = Ok {| sessionDir := dir; currentFrame := 0; chIdDisconnected := -1;
            vecptrJamClients := replicate MAX_NUM_CHANNELS None;
            jamClientConnections := [] |} fs' /\
    Z.of_nat (size (nodes fs')) <= QString.INT_MAX /\ unwritable fs' = ∅ /\
    forall path : string, nodes fs' !! path = None -> nodes fs !! path = None.
Proof.
  intros Hroomy. cbn zeta. intros Hdir. unfold CJamSession_new.
  set (dir := FS.absoluteFilePath base ("Jam-" +:+ stamp)) in *.
  assert (forall fs0, unwritable fs0 = ∅ -> FS.writable dir fs0 = true) as Hw.
  { intros fs0 H0. unfold FS.writable. rewrite H0. apply bool_decide_eq_true_2. set_solver. }
  rewrite (Hw fs) by apply Hroomy. rewrite andb_false_r.
  destruct (FS.exists_ dir fs) eqn:He.
  - destruct Hdir as [?|Hd]; [done|]. rewrite Hd, (Hw fs) by apply Hroomy. cbn [negb].
    exists fs. split; [done|]. destruct Hroomy as [Hs Hu]. split; [lia|done].
  - assert (FS.isDir dir (FS.put dir Dir fs) = true) as ->.
    { unfold FS.isDir, FS.put. cbn. by rewrite lookup_insert_eq. }
    rewrite (Hw (FS.put dir Dir fs)) by apply Hroomy. cbn [negb].
    eexists. split; [done|].
    destruct (put_small dir Dir fs Hroomy) as [Hs Hu]. do 2 (split; [done|]).
    intros path. cbn. destruct (decide (dir = path)) as [->|Hne].
    + by rewrite lookup_insert_eq.
    + by rewrite lookup_insert_ne.
Qed.

(** A frame that reaches an idle recorder starts a session by itself:
    with room on a disk that refuses nothing, the session directory a
    directory or not yet there, the channel id among the slots and the
    frame long enough, [OnFrame] returns with the recorder recording in
    that directory, the client in its slot with a recording that starts at
    frame 0 and holds one frame, the frame counter at 1, and the start of
    the session announced. *)
Theorem first_frame_starts_session (m : Machine) (stamp : string) (c : Z) (n : string)
    (a : CHostAddress) (nc : Z) (d : list Z) :
  isRecording (recorder m) = false ->
  roomy (mdisk m) ->
  let dir := FS.absoluteFilePath (recordBaseDir (recorder m)) ("Jam-" +:+ stamp) in
  FS.exists_ dir (mdisk m) = false \/ FS.isDir dir (mdisk m) = true ->
  0 <= c < Z.of_nat MAX_NUM_CHANNELS ->
  (Z.to_nat ((nc mod 65536) * iServerFrameSizeSamples (recorder m)) <= length d)%nat ->
  exists (m' : Machine) (s : CJamSession) (cl : CJamClient),
    OnFrame stamp c n a nc d m = Ok tt m' /\
    isRecording (recorder m') = true /\
    currentSession (recorder m') = Some s /\
    sessionDir s = dir /\
    currentFrame s = 1 /\
    slotAt (vecptrJamClients s) c = Some (Some cl) /\
    startFrame cl = 0 /\ frameCount cl = 1 /\ numChannels cl = nc mod 65536 /\
    nodes (mdisk m) !! filename cl = None /\
    jamClientConnections s = [] /\
    output m' = output m ++ [RecordingSessionStarted dir].
Proof.
  intros Hr Hroomy. cbn zeta. intros Hdir Hc Hd.
  destruct (CJamSession_new_returns (recordBaseDir (recorder m)) stamp (mdisk m) Hroomy Hdir)
    as (fs1 & Hnew & Hsmall & Hu & Hkeep).
  set (dir := FS.absoluteFilePath (recordBaseDir (recorder m)) ("Jam-" +:+ stamp)) in *.
  set (fresh := {| sessionDir := dir; currentFrame := 0; chIdDisconnected := -1;
                   vecptrJamClients := replicate MAX_NUM_CHANNELS None;
                   jamClientConnections := [] |}) in *.
  assert (slotAt (vecptrJamClients fresh) c = Some None) as Hslot.
  { unfold slotAt. destruct (Z.ltb_spec c 0); [lia|]. cbn.
    rewrite lookup_replicate_2 by lia. done. }
  destruct (CJamClient_new_returns 0 nc n a dir fs1 Hsmall Hu) as (cl & fs2 & Hcl).
  pose proof (CJamClient_new_Ok _ _ _ _ _ _ _ _ Hcl) as (Hsf & Hnc & _ & _ & Hfc & Hfresh & _).
  destruct (writeSamples_enough _ d Hd) as [bytes Hbytes].
  rewrite <- Hnc in Hbytes.
  assert (Frame c n a nc d (iServerFrameSizeSamples (recorder m))
            {| session := fresh; disk := fs1 |}
          = Ok tt {| session := stepFrame (fed n cl)
                                  (setClient c (Some (fed n cl))
                                     (setClient c (Some cl) fresh));
                     disk := FS.append (filename cl) bytes fs2 |}) as HF.
  { apply Frame_opens; cbn; [lia|done|done|done]. }
  eexists _, _, (fed n cl). split.
  { unfold OnFrame, Start, OnEnd, onMachineDisk, onRecorder, onCurrentSession, say.
    unfold mbind, M_bind, mret, M_ret, get, modify. rewrite Hr. cbn [negb].
    rewrite Hr, Hnew.
    cbn [recorder mdisk output setRecording setSession currentSession
         iServerFrameSizeSamples recordBaseDir isRecording].
    rewrite HF. reflexivity. }
  cbn [recorder mdisk output setRecording setSession currentSession
       iServerFrameSizeSamples recordBaseDir isRecording session].
  split; [done|]. split; [done|].
  assert (startFrame (fed n cl) + frameCount (fed n cl) > 0) as Hgt.
  { cbn. lia. }
  split; [unfold stepFrame; by case_match|].
  split.
  { apply (stepFrame_exact (fed n cl)
             (setClient c (Some (fed n cl)) (setClient c (Some cl) fresh))) in Hgt.
    rewrite Hgt. done. }
  split.
  { rewrite stepFrame_slots. cbn [vecptrJamClients setClient].
    eapply slotAt_insert_same, slotAt_insert_same, Hslot. }
  cbn [fed startFrame frameCount numChannels filename].
  split; [done|]. split; [lia|]. split; [done|]. split; [by apply Hkeep|].
  split; [unfold stepFrame; by case_match|]. done.
Qed.

(** The signals that stop the recorder never make it fault: from a
    recorder whose flag and pointer agree, [OnEnd] and [OnAboutToQuit]
    return, and leave it not recording and without a session. *)
Theorem stop_leaves_recorder_idle (sig : Signal) (m : Machine) :
  consistent (recorder m) ->
  sig = StopRecorder \/ sig = Stopped \/ sig = aboutToQuit ->
  exists m' : Machine,
    slotOf sig m = Ok tt m' /\
    isRecording (recorder m') = false /\
    currentSession (recorder m') = None.
Proof.
  intros Hc Hsig. destruct (OnEnd_outcome m Hc) as (m1 & HE & Hr & Hs & _).
  destruct Hsig as [-> | [-> | ->]]; cbn [slotOf].
  - by exists m1.
  - by exists m1.
  - unfold OnAboutToQuit, say, mbind, M_bind, modify. rewrite HE. by eexists.
Qed.


(** ** The offline exporter *)









End Recorder.

(** ** Concrete runs *)

Notation "'frame''" := (Frame Sample.ClientName Sample.waveStreamHeaders Sample.finalise).
Notation "'disconnect''" := (DisconnectClient Sample.ClientName Sample.finalise).
Notation "'deliverAll''" :=
  (deliverAll Sample.ClientName Sample.waveStreamHeaders Sample.finalise).
Notation "'new''" := (CJamClient_new Sample.ClientName Sample.waveStreamHeaders).
Notation "'reaper''" := (ReaperProjectFromCurrentSession Sample.CReaperProject_toString).
Notation "'audacity''" := (AudacityLofFromCurrentSession Sample.secondsAt48K).

Lemma roomy_sample : roomy Sample.oneFile.
Proof. split; [by vm_compute|reflexivity]. Qed.

(** C3 on the session recording Alice in slot 0. *)
Lemma disconnect_then_stale_frame_witness :
  slotAt (vecptrJamClients (session Sample.recordingAlice)) 0 = Some (Some Sample.recording)
  /\ roomy Sample.oneFile
  /\ exists w1 : World, disconnect' 0 Sample.recordingAlice = Ok tt w1
       /\ slotAt (vecptrJamClients (session w1)) 0 = Some None.
Proof.
  split; [reflexivity|]. split; [split; [by vm_compute|reflexivity]|].
  destruct (disconnect_then_stale_frame Sample.ClientName Sample.waveStreamHeaders
              Sample.finalise Sample.recordingAlice 0 Sample.recording)
    as (w1 & H1 & _ & H2 & _); [reflexivity|split; [by vm_compute|reflexivity]|].
  by exists w1.
Defined.

(** C4 as the spec words it fails: Alice records two channels in slot 0;
    a frame with channel count 0 finalizes that recording, and the frame
    with channel count 2 that follows opens nothing: it is taken for the
    stale frame of the disconnect.  Slot 0 is still empty and the one
    finalized connection is all there is. *)
Lemma channel_count_back_to_two_is_dropped :
  match (frame' 0 "Alice" Sample.alice 0 [] 2;;
         frame' 0 "Alice" Sample.alice 2 [1; 2; 3; 4] 2) Sample.recordingAlice with
  | Ok _ w2 =>
      slotAt (vecptrJamClients (session w2)) 0 = Some None
      /\ jamClientConnections (session w2)
         = [connectionOf Sample.ClientName Sample.recording]
  | _ => False
  end.
Proof. vm_compute. split; reflexivity. Qed.

(** C4 as amended, on the same session. *)
Lemma channel_count_two_to_zero_witness :
  0 <> chIdDisconnected (session Sample.recordingAlice)
  /\ numChannels Sample.recording = 2
  /\ exists w1 : World,
       frame' 0 "Alice" Sample.alice 0 [] 128 Sample.recordingAlice = Ok tt w1
       /\ slotAt (vecptrJamClients (session w1)) 0 = Some None
       /\ chIdDisconnected (session w1) = 0.
Proof.
  split; [done|]. split; [reflexivity|].
  destruct (channel_count_two_to_zero Sample.ClientName Sample.waveStreamHeaders
              Sample.finalise Sample.recordingAlice 0 Sample.recording
              "Alice" Sample.alice [] 128)
    as (w1 & H1 & _ & H2 & _ & H3 & _);
    [done|reflexivity|reflexivity|split; [by vm_compute|reflexivity]|].
  by exists w1.
Defined.


(** C6 on a run of three frames and a disconnect. *)
Lemma frame_counter_monotone_witness :
  exists w' : World,
    final (deliverAll' 128 [Sample.aliceFrame; EvDisconnected 0; Sample.aliceFrame;
                            Sample.aliceFrame] Sample.recordingAlice) = Some w'
    /\ 3 <= currentFrame (session w') <= 3 + 3.
Proof.
  eexists. split; [vm_compute; reflexivity|].
  apply (proj1 (frame_counter_monotone Sample.ClientName Sample.waveStreamHeaders
                  Sample.finalise) 128
           [Sample.aliceFrame; EvDisconnected 0; Sample.aliceFrame; Sample.aliceFrame]
           Sample.recordingAlice).
  vm_compute. reflexivity.
Defined.

(** C8 on a directory that already holds Alice-7_22124-0-2.wav. *)
Lemma unique_recording_file_name_witness :
  FS.dirExists Sample.jamDir "Alice-7_22124-0-2.wav" Sample.oneFile = true
  /\ exists (cl : CJamClient) (fs' : FileSystem),
       new' 0 2 "Alice" Sample.alice Sample.jamDir Sample.oneFile = Ok cl fs'
       /\ filename cl = "/rec/Jam-20200101-000000000/Alice-7_22124-0-2_1.wav"
       /\ nodes fs' !! "/rec/Jam-20200101-000000000/Alice-7_22124-0-2.wav"
          = nodes Sample.oneFile !! "/rec/Jam-20200101-000000000/Alice-7_22124-0-2.wav".
Proof.
  split; [by vm_compute|].
  destruct (unique_recording_file_name Sample.ClientName Sample.waveStreamHeaders
              0 2 "Alice" Sample.alice Sample.jamDir Sample.oneFile)
    as (k & _ & _ & _ & H1 & Hok & _); [by vm_compute|by vm_compute|].
  cbn zeta in Hok. rewrite (H1 ltac:(by vm_compute)) in Hok.
  destruct (Hok ltac:(by vm_compute)) as (cl & fs' & Hnew & Hname & _ & Hkeep).
  exists cl, fs'. split; [done|]. split; [by rewrite Hname|].
  apply Hkeep. by vm_compute.
Defined.

(** C9 on a session whose Reaper project was exported before. *)
Lemma existing_export_is_skipped_witness :
  currentSession (recorder Sample.stopping) = Some Sample.finished
  /\ exists m' : Machine,
       (reaper';; audacity') Sample.stopping = Ok tt m'
       /\ nodes (mdisk m') !! "/rec/Jam-20200101-000000000/Jam-20200101-000000000.rpp"
          = Some (File "first")
       /\ is_Some (nodes (mdisk m') !! "/rec/Jam-20200101-000000000/Jam-20200101-000000000.lof").
Proof.
  split; [reflexivity|].
  destruct (existing_export_is_skipped Sample.CReaperProject_toString Sample.secondsAt48K
              Sample.stopping Sample.finished eq_refl) as (_ & _ & H & _).
  cbn zeta in H.
  assert (FS.exists_ "/rec/Jam-20200101-000000000/Jam-20200101-000000000.rpp"
            Sample.exportedOnce = true) as Hr by (vm_compute; reflexivity).
  assert (FS.exists_ "/rec/Jam-20200101-000000000/Jam-20200101-000000000.lof"
            Sample.exportedOnce = false) as Hl by (vm_compute; reflexivity).
  assert (FS.writable "/rec/Jam-20200101-000000000/Jam-20200101-000000000.lof"
            Sample.exportedOnce = true) as Hw by (vm_compute; reflexivity).
  destruct (H Hr Hl Hw) as [Hrun Hkeep].
  eexists. split; [exact Hrun|]. split.
  - refine (eq_trans Hkeep _). vm_compute. reflexivity.
  - cbn [mdisk FS.put nodes]. rewrite lookup_insert_eq. by eexists.
Defined.

(** C10 on a directory that is not there. *)
Lemma SessionDirToReaper_refuses_witness :
  FS.exists_ "/rec/Jam-1" Sample.emptyDisk = false
  /\ exists msg : string,
       SessionDirToReaper Sample.CReaperProject_toString "/rec/Jam-1" 128 (Sample.emptyDisk, [])
       = Throw msg (Sample.emptyDisk, []).
Proof.
  split; [by vm_compute|].
  apply (SessionDirToReaper_refuses Sample.CReaperProject_toString "/rec/Jam-1" 128
           Sample.emptyDisk []).
  left. by vm_compute.
Defined.

(** C1 does not hold of the code: a session records three frames of Alice
    (two channels, 128 samples a frame) in slot 0, the client disconnects
    and the session ends.  [Tracks] has one track with one segment of three
    frames; the file it names holds the 44 header bytes and three frames of
    2 * 128 samples of two bytes; [TracksFromSessionDir] over the same
    directory lists only names ending in .pcm and returns no track. *)
Lemma live_and_offline_tracks_differ :
  match CJamSession_new Sample.MAX_NUM_CHANNELS "/rec" Sample.stamp Sample.emptyDisk with
  | Ok s fs =>
      match (deliverAll' 128 [Sample.aliceFrame; Sample.aliceFrame; Sample.aliceFrame;
                              EvDisconnected 0];;
             End Sample.ClientName Sample.finalise) {| session := s; disk := fs |} with
      | Ok _ w =>
          Tracks (session w)
          = {[ "Alice-7_22124" :=
                 [ {| item_numChannels := 2; item_startFrame := 0; item_length := 3;
                      item_fileName :=
                        "/rec/Jam-20200101-000000000/Alice-7_22124-0-2.wav" |} ] ]}
          /\ FS.size "/rec/Jam-20200101-000000000/Alice-7_22124-0-2.wav" (disk w)
             = 44 + 3 * (2 * 128 * 2)
          /\ TracksFromSessionDir (sessionDir (session w)) 128 (disk w) = Some ∅
      | _ => False
      end
  | _ => False
  end.
Proof. vm_compute. repeat split; reflexivity. Qed.

(** C2 does not hold of the code: in a session just constructed slot 0 is
    empty, and DisconnectClient(0) dereferences the null pointer; so does
    the recorder's OnDisconnected(0) on a session that has seen no frame
    for channel 0. *)
Lemma disconnect_on_empty_slot_faults :
  match CJamSession_new Sample.MAX_NUM_CHANNELS "/rec" Sample.stamp Sample.emptyDisk with
  | Ok s fs =>
      slotAt (vecptrJamClients s) 0 = Some None
      /\ disconnect' 0 {| session := s; disk := fs |} = Fault
  | _ => False
  end
  /\ (Start Sample.ClientName Sample.finalise Sample.MAX_NUM_CHANNELS
        Sample.CReaperProject_toString Sample.secondsAt48K Sample.stamp;;
      OnDisconnected Sample.ClientName Sample.finalise 0) Sample.idle = Fault.
Proof. vm_compute. repeat split; reflexivity. Qed.

(** C7 does not hold of the code: for a file of 16 bytes, two channels and
    frames of 2 samples, [TracksFromSessionDir] gives length 16 / 2 / 2 = 4;
    the file holds 16 / (2 * 2 * 2) = 2 frames of 16-bit samples. *)
Lemma offline_length_ignores_sample_width :
  FS.size "/old/Alic-7_22124-0-2.pcm" Sample.pcmDir = 16
  /\ TracksFromSessionDir "/old" 2 Sample.pcmDir
     = Some {[ "Alic-7_22124" :=
                 [ {| item_numChannels := 2; item_startFrame := 0; item_length := 4;
                      item_fileName := "/old/Alic-7_22124-0-2.pcm" |} ] ]}
  /\ 16 / (2 * 2 * 2) = 2.
Proof. vm_compute. repeat split; reflexivity. Qed.

Notation "'deliver''" := (deliver Sample.ClientName Sample.waveStreamHeaders Sample.finalise).
Notation "'handleAll''" :=
  (handleAll Sample.ClientName Sample.waveStreamHeaders Sample.finalise
     Sample.MAX_NUM_CHANNELS Sample.CReaperProject_toString Sample.secondsAt48K).
Notation "'slotOf''" :=
  (slotOf Sample.ClientName Sample.waveStreamHeaders Sample.finalise
     Sample.MAX_NUM_CHANNELS Sample.CReaperProject_toString Sample.secondsAt48K).
Notation "'onEnd''" :=
  (OnEnd Sample.ClientName Sample.finalise Sample.CReaperProject_toString
     Sample.secondsAt48K).

Lemma consistent_idle_sample : consistent (recorder Sample.idle).
Proof. split; [done|]. by intros [? ?]. Qed.

Lemma consistent_recording_sample : consistent (recorder Sample.recordingMachine).
Proof. split; [by eexists|done]. Qed.

(** A run of the session recording Alice keeps its four slots and its
    directory. *)
Lemma session_run_keeps_shape_witness :
  exists w' : World,
    final (deliverAll' 128 [Sample.aliceFrame; EvDisconnected 0; Sample.aliceFrame]
             Sample.recordingAlice) = Some w'
    /\ length (vecptrJamClients (session w')) = 4%nat
    /\ sessionDir (session w') = Sample.jamDir.
Proof.
  eexists. split; [vm_compute; reflexivity|].
  destruct (session_run_keeps_shape Sample.ClientName Sample.waveStreamHeaders
              Sample.finalise 128 [Sample.aliceFrame; EvDisconnected 0; Sample.aliceFrame]
              Sample.recordingAlice _ ltac:(vm_compute; reflexivity)) as (H1 & H2 & _).
  split; [exact H1|exact H2].
Defined.

(** Disconnecting Alice in slot 0 leaves slot 1 empty as it was. *)
Lemma event_touches_only_its_slot_witness :
  exists w' : World,
    final (deliver' 128 (EvDisconnected 0) Sample.recordingAlice) = Some w'
    /\ slotAt (vecptrJamClients (session w')) 1 = Some None.
Proof.
  eexists. split; [vm_compute; reflexivity|].
  exact (event_touches_only_its_slot Sample.ClientName Sample.waveStreamHeaders
           Sample.finalise 128 (EvDisconnected 0) Sample.recordingAlice _ 1
           ltac:(vm_compute; reflexivity) ltac:(cbn; lia)).
Defined.

Lemma started_sample :
  CJamSession_new Sample.MAX_NUM_CHANNELS "/rec" Sample.stamp Sample.emptyDisk
  = Ok (session Sample.started) (disk Sample.started).
Proof. vm_compute. reflexivity. Qed.

(** Two frames of Alice and her disconnect, from a new session: the one
    finalized connection ends at or before the frame counter. *)
Lemma segments_within_counter_witness :
  exists w' : World,
    final (deliverAll' 128 [Sample.aliceFrame; Sample.aliceFrame; EvDisconnected 0]
             Sample.started) = Some w'
    /\ forall conn : CJamClientConnection,
         conn ∈ jamClientConnections (session w') ->
         0 <= StartFrame conn /\ 0 <= Length conn
         /\ StartFrame conn + Length conn <= currentFrame (session w').
Proof.
  eexists. split; [vm_compute; reflexivity|].
  exact (proj2 (proj2
    (segments_within_counter Sample.ClientName Sample.waveStreamHeaders Sample.finalise
       Sample.MAX_NUM_CHANNELS "/rec" Sample.stamp Sample.emptyDisk
       (disk Sample.started) (session Sample.started) 128
       [Sample.aliceFrame; Sample.aliceFrame; EvDisconnected 0] _
       started_sample ltac:(vm_compute; reflexivity)))).
Defined.

(** Alice records, disconnects and records again, from a new session:
    the two files are on the disk and differ. *)
Lemma recording_files_distinct_witness :
  exists w' : World,
    final (deliverAll' 128 [Sample.aliceFrame; EvDisconnected 0; Sample.aliceFrame;
                            Sample.aliceFrame] Sample.started) = Some w'
    /\ NoDup (FileName <$> jamClientConnections (session w')).
Proof.
  eexists. split; [vm_compute; reflexivity|].
  exact (proj1
    (recording_files_distinct Sample.ClientName Sample.waveStreamHeaders Sample.finalise
       Sample.MAX_NUM_CHANNELS "/rec" Sample.stamp Sample.emptyDisk
       (disk Sample.started) (session Sample.started) 128
       [Sample.aliceFrame; EvDisconnected 0; Sample.aliceFrame; Sample.aliceFrame] _
       started_sample ltac:(vm_compute; reflexivity))).
Defined.

(** Two frames of Alice, two channels of 128 samples, from a new session:
    her file holds the 44 bytes of the header and 2 * 512 bytes of
    samples. *)
Lemma recording_file_sizes_witness :
  exists (w' : World) (r : CJamClient),
    final (deliverAll' 128 [Sample.aliceFrame; Sample.aliceFrame] Sample.started) = Some w'
    /\ slotAt (vecptrJamClients (session w')) 0 = Some (Some r)
    /\ FS.size (filename r) (disk w') = 44 + 2 * 512.
Proof.
  eexists _, _. split; [vm_compute; reflexivity|].
  split; [vm_compute; reflexivity|].
  refine (eq_trans
    (recording_file_sizes Sample.ClientName Sample.waveStreamHeaders Sample.finalise
       Sample.MAX_NUM_CHANNELS "/rec" Sample.stamp Sample.emptyDisk
       (disk Sample.started) (session Sample.started) 128
       [Sample.aliceFrame; Sample.aliceFrame] _
       started_sample ltac:(vm_compute; reflexivity) 0 _ ltac:(vm_compute; reflexivity)) _).
  vm_compute. reflexivity.
Defined.

(** A frame of Alice for an empty slot, on a disk that refuses her file:
    [Frame] throws and nothing has changed. *)
Lemma Frame_throw_leaves_slot_empty_witness :
  exists (msg : string) (w' : World),
    frame' 0 "Alice" Sample.alice 2 (replicate 256 0) 128 Sample.lockedOut = Throw msg w'
    /\ w' = Sample.lockedOut.
Proof.
  eexists _, _. split; [vm_compute; reflexivity|].
  destruct (Frame_throw_leaves_slot_empty Sample.ClientName Sample.waveStreamHeaders
              Sample.finalise Sample.lockedOut _ 0 "Alice" Sample.alice 2
              (replicate 256 0) 128 _ ltac:(vm_compute; reflexivity)) as (_ & _ & H & _).
  apply H. reflexivity.
Defined.

(** Channel 4 of a session of four slots. *)
Lemma channel_id_out_of_range_witness :
  disconnect' 4 Sample.recordingAlice = Fault
  /\ frame' 4 "Alice" Sample.alice 2 (replicate 256 0) 128 Sample.recordingAlice = Fault.
Proof.
  destruct (channel_id_out_of_range Sample.ClientName Sample.waveStreamHeaders
              Sample.finalise Sample.recordingAlice 4 "Alice" Sample.alice 2
              (replicate 256 0) 128) as (H1 & H2 & _).
  - right. cbn. lia.
  - split; [exact H1|]. apply H2. cbn. lia.
Defined.

(** The second recording of Alice at frame 0 with two channels, had it
    been written as [.pcm]: the entry reads back as her track, frame 0,
    two channels. *)
Lemma offline_entry_reads_back_witness :
  trackFromEntry "/old" 2 Sample.pcmDir ∅ "Alice-7_22124-0-2_1.pcm"
  = Some {[ "Alice-7_22124" :=
              [ {| item_numChannels := 2; item_startFrame := 0; item_length := 0;
                   item_fileName := "/old/Alice-7_22124-0-2_1.pcm" |} ] ]}.
Proof.
  refine (eq_trans
            (offline_entry_reads_back Sample.ClientName "Alice" Sample.alice
               "Alice" "7_22124" 0 2 2 1 "/old" Sample.pcmDir ∅ _ _ _ _ _ _ _ _) _).
  - reflexivity.
  - reflexivity.
  - reflexivity.
  - reflexivity.
  - reflexivity.
  - vm_compute. split; discriminate.
  - vm_compute. split; [reflexivity|discriminate].
  - discriminate.
  - vm_compute. reflexivity.
Defined.

(** The directory with one [.pcm] file: one item, for that file. *)
Lemma offline_tracks_one_item_per_file_witness :
  exists tracks : gmap string (list STrackItem),
    TracksFromSessionDir "/old" 2 Sample.pcmDir = Some tracks
    /\ item_fileName <$> items tracks ≡ₚ ["/old/Alic-7_22124-0-2.pcm"].
Proof.
  eexists. split; [vm_compute; reflexivity|].
  refine (Permutation_trans
            (offline_tracks_one_item_per_file "/old" 2 Sample.pcmDir _
               ltac:(vm_compute; reflexivity)) _).
  vm_compute. reflexivity.
Defined.

(** A frame, a disconnect and a stop, from the idle recorder. *)
Lemma recorder_stays_consistent_witness :
  exists m' : Machine,
    final (handleAll' [AudioFrame Sample.stamp 0 "Alice" Sample.alice 2 (replicate 256 0);
                       ClientDisconnected 0; StopRecorder] Sample.idle) = Some m'
    /\ consistent (recorder m')
    /\ recordBaseDir (recorder m') = "/rec".
Proof.
  eexists. split; [vm_compute; reflexivity|].
  destruct (recorder_stays_consistent Sample.ClientName Sample.waveStreamHeaders
              Sample.finalise Sample.MAX_NUM_CHANNELS Sample.CReaperProject_toString
              Sample.secondsAt48K
              [AudioFrame Sample.stamp 0 "Alice" Sample.alice 2 (replicate 256 0);
               ClientDisconnected 0; StopRecorder] Sample.idle _
              consistent_idle_sample ltac:(vm_compute; reflexivity)) as (H1 & H2 & _).
  split; [exact H1|exact H2].
Defined.

(** Stopping the recorder that records Alice in slot 0: the Reaper
    project is written, from a session with her connection. *)
Lemma stop_exports_open_recordings_witness :
  exists (m' : Machine) (s' : CJamSession),
    onEnd' Sample.recordingMachine = Ok tt m'
    /\ jamClientConnections s' = [connectionOf Sample.ClientName Sample.recording]
    /\ nodes (mdisk m') !! "/rec/Jam-20200101-000000000/Jam-20200101-000000000.rpp"
       = Some (File (Sample.CReaperProject_toString (Tracks s') 128 +:+ QString.endl)).
Proof.
  destruct (stop_exports_open_recordings Sample.ClientName Sample.finalise
              Sample.CReaperProject_toString Sample.secondsAt48K
              Sample.recordingMachine (session Sample.recordingAlice) eq_refl eq_refl)
    as (m' & s' & H1 & H2 & H3 & _).
  - vm_compute. reflexivity.
  - vm_compute. reflexivity.
  - vm_compute. reflexivity.
  - vm_compute. reflexivity.
  - intros c Hc. apply elem_of_cons in Hc as [[= ->]|Hc].
    + split; intros H; vm_compute in H; discriminate H.
    + exfalso. repeat (apply elem_of_cons in Hc as [Hc|Hc]; [discriminate Hc|]).
      by apply elem_of_nil in Hc.
  - exists m', s'. split; [exact H1|]. split; [exact H2|exact H3].
Defined.

(** The first frame of Alice reaches the idle recorder. *)
Lemma first_frame_starts_session_witness :
  exists (m' : Machine) (s : CJamSession) (cl : CJamClient),
    OnFrame Sample.ClientName Sample.waveStreamHeaders Sample.finalise
      Sample.MAX_NUM_CHANNELS Sample.CReaperProject_toString Sample.secondsAt48K
      Sample.stamp 0 "Alice" Sample.alice 2 (replicate 256 0) Sample.idle = Ok tt m'
    /\ currentSession (recorder m') = Some s
    /\ currentFrame s = 1
    /\ slotAt (vecptrJamClients s) 0 = Some (Some cl)
    /\ frameCount cl = 1.
Proof.
  destruct (first_frame_starts_session Sample.ClientName Sample.waveStreamHeaders
              Sample.finalise Sample.MAX_NUM_CHANNELS Sample.CReaperProject_toString
              Sample.secondsAt48K Sample.idle Sample.stamp 0 "Alice" Sample.alice 2
              (replicate 256 0) eq_refl)
    as (m' & s & cl & H1 & _ & H2 & _ & H3 & H4 & _ & H5 & _).
  - split; [vm_compute; reflexivity|reflexivity].
  - left. vm_compute. reflexivity.
  - vm_compute. split; [discriminate|reflexivity].
  - vm_compute. lia.
  - exists m', s, cl. split; [exact H1|]. split; [exact H2|]. split; [exact H3|].
    split; [exact H4|exact H5].
Defined.

(** A stop request reaches the recorder that records Alice. *)
Lemma stop_leaves_recorder_idle_witness :
  exists m' : Machine,
    slotOf' StopRecorder Sample.recordingMachine = Ok tt m'
    /\ isRecording (recorder m') = false /\ currentSession (recorder m') = None.
Proof.
  apply (stop_leaves_recorder_idle Sample.ClientName Sample.waveStreamHeaders
           Sample.finalise Sample.MAX_NUM_CHANNELS Sample.CReaperProject_toString
           Sample.secondsAt48K StopRecorder Sample.recordingMachine
           consistent_recording_sample).
  by left.
Defined.


